(** * The PostgreSQL database resource of the Terraform provider

    A shallow embedding of [postgresql/resource_postgresql_database.go]:
    the lifecycle operations Create / Read / Update / Delete / Exists of
    the [postgresql_database] resource, the per-attribute setters and the
    owner grant / revoke helpers.

    The database connection is an oracle (a [Store]): every theorem that
    does not fix one holds for all stores.  Every call of [db.Exec] and
    [db.QueryRow] is logged, with its statement text, its bound
    parameters and its outcome, so that claims about what is emitted and
    in which order are statements about that log.

    The catalog lock ([c.catalogLock]) and [log.Printf] have no effect on
    the values computed and are left out. *)

From Stdlib Require Import String Ascii ZArith List Bool Lia DecimalString.
Import ListNotations.
Local Open Scope string_scope.
Local Open Scope Z_scope.

(* ===================================================================== *)
(** ** Strings: the helpers of [strings], [fmt] and [lib/pq] *)
(* ===================================================================== *)

Module GoStrings.

(** The double quote character, code 34. *)
Definition dquote_char : ascii := ascii_of_nat 34.
Definition dquote : string := String dquote_char EmptyString.

(** [strings.ToUpper] on the ASCII range.  The source only compares the
    result with ["DEFAULT"]; no letter of that word is the upper case of
    a character outside ASCII, so the byte-wise version decides the
    same comparisons. *)
Definition upper_ascii (c : ascii) : ascii :=
  let n := nat_of_ascii c in
  if (Nat.leb 97 n && Nat.leb n 122)%bool then ascii_of_nat (n - 32) else c.

Fixpoint ToUpper (s : string) : string :=
  match s with
  | EmptyString => EmptyString
  | String c r => String (upper_ascii c) (ToUpper r)
  end.

(** [strings.Contains s substr]. *)
Fixpoint Contains (s substr : string) : bool :=
  if String.prefix substr s then true
  else match s with
       | EmptyString => false
       | String _ r => Contains r substr
       end.

(** [fmt]'s default formatting of an [int] and of a [bool]. *)
Definition fmt_int (z : Z) : string := NilZero.string_of_int (Z.to_int z).
Definition fmt_bool (b : bool) : string := if b then "true" else "false".

(** [pq.QuoteIdentifier]: the name is cut at its first NUL byte, every
    double quote is doubled and the result is wrapped in double
    quotes. *)
Fixpoint cutAtNul (s : string) : string :=
  match s with
  | EmptyString => EmptyString
  | String c r => if Ascii.eqb c zero then EmptyString else String c (cutAtNul r)
  end.

Fixpoint doubleQuotes (s : string) : string :=
  match s with
  | EmptyString => EmptyString
  | String c r =>
      if Ascii.eqb c dquote_char
      then String c (String c (doubleQuotes r))
      else String c (doubleQuotes r)
  end.

Definition QuoteIdentifier (name : string) : string :=
  dquote ++ doubleQuotes (cutAtNul name) ++ dquote.

End GoStrings.
Import GoStrings.

(* ===================================================================== *)
(** ** Errors *)
(* ===================================================================== *)

(** A Go [error] value; [nil] is [None] of [option error].  Messages that
    the source formats with [%q] are kept as the format and its
    arguments. *)
Inductive error : Type :=
| ErrNoRows                                          (* sql.ErrNoRows *)
| DriverError (msg : string)                         (* an error of the store; Error() = msg *)
| errors_New (msg : string)                          (* errors.New *)
| fmt_Errorf (format : string) (args : list string)  (* fmt.Errorf *)
| errwrap_Wrapf (format : string) (args : list string) (inner : error).
    (* errwrap.Wrapf(fmt.Sprintf(format, args...), inner) *)

(* ===================================================================== *)
(** ** The schema and [schema.ResourceData] *)
(* ===================================================================== *)

(** One value per attribute of the schema, fields named after the
    attribute constants of the source. *)
Record Attrs : Type := mkAttrs {
  dbNameAttr       : string;
  dbOwnerAttr      : string;
  dbTemplateAttr   : string;
  dbEncodingAttr   : string;
  dbCollationAttr  : string;
  dbCTypeAttr      : string;
  dbTablespaceAttr : string;
  dbConnLimitAttr  : Z;
  dbAllowConnsAttr : bool;
  dbIsTemplateAttr : bool
}.

(** [schema.ResourceData].  [GetChange] and [HasChange] compare the prior
    state with the planned values (state merged with the diff); [Get] and
    [GetOk] read the planned values overlaid with what [Set] has written
    since. *)
Record ResourceData : Type := mkResourceData {
  rd_id    : string;
  rd_state : Attrs;
  rd_diff  : Attrs;
  rd_set   : Attrs
}.

(** The resource data an operation is entered with: nothing written yet. *)
Definition resourceData (id : string) (old new : Attrs) : ResourceData :=
  mkResourceData id old new new.

Definition Get {A} (attr : Attrs -> A) (d : ResourceData) : A := attr (rd_set d).

(** [d.GetOk] of a string attribute: the value, and whether it is set to
    something other than the zero value. *)
Definition GetOk (attr : Attrs -> string) (d : ResourceData) : string * bool :=
  (attr (rd_set d), negb (attr (rd_set d) =? "")%string).

Definition GetChange {A} (attr : Attrs -> A) (d : ResourceData) : A * A :=
  (attr (rd_state d), attr (rd_diff d)).

Definition HasChange_string (attr : Attrs -> string) (d : ResourceData) : bool :=
  negb (attr (rd_state d) =? attr (rd_diff d))%string.
Definition HasChange_int (attr : Attrs -> Z) (d : ResourceData) : bool :=
  negb (attr (rd_state d) =? attr (rd_diff d))%Z.
Definition HasChange_bool (attr : Attrs -> bool) (d : ResourceData) : bool :=
  negb (Bool.eqb (attr (rd_state d)) (attr (rd_diff d))).

Definition SetId (id : string) (d : ResourceData) : ResourceData :=
  mkResourceData id (rd_state d) (rd_diff d) (rd_set d).

Definition onSet (f : Attrs -> Attrs) (d : ResourceData) : ResourceData :=
  mkResourceData (rd_id d) (rd_state d) (rd_diff d) (f (rd_set d)).

(** [d.Set(attr, v)], one function per attribute. *)
Definition Set_dbNameAttr (v : string) : ResourceData -> ResourceData :=
  onSet (fun a => mkAttrs v (dbOwnerAttr a) (dbTemplateAttr a) (dbEncodingAttr a)
    (dbCollationAttr a) (dbCTypeAttr a) (dbTablespaceAttr a) (dbConnLimitAttr a)
    (dbAllowConnsAttr a) (dbIsTemplateAttr a)).
Definition Set_dbOwnerAttr (v : string) : ResourceData -> ResourceData :=
  onSet (fun a => mkAttrs (dbNameAttr a) v (dbTemplateAttr a) (dbEncodingAttr a)
    (dbCollationAttr a) (dbCTypeAttr a) (dbTablespaceAttr a) (dbConnLimitAttr a)
    (dbAllowConnsAttr a) (dbIsTemplateAttr a)).
Definition Set_dbTemplateAttr (v : string) : ResourceData -> ResourceData :=
  onSet (fun a => mkAttrs (dbNameAttr a) (dbOwnerAttr a) v (dbEncodingAttr a)
    (dbCollationAttr a) (dbCTypeAttr a) (dbTablespaceAttr a) (dbConnLimitAttr a)
    (dbAllowConnsAttr a) (dbIsTemplateAttr a)).
Definition Set_dbEncodingAttr (v : string) : ResourceData -> ResourceData :=
  onSet (fun a => mkAttrs (dbNameAttr a) (dbOwnerAttr a) (dbTemplateAttr a) v
    (dbCollationAttr a) (dbCTypeAttr a) (dbTablespaceAttr a) (dbConnLimitAttr a)
    (dbAllowConnsAttr a) (dbIsTemplateAttr a)).
Definition Set_dbCollationAttr (v : string) : ResourceData -> ResourceData :=
  onSet (fun a => mkAttrs (dbNameAttr a) (dbOwnerAttr a) (dbTemplateAttr a) (dbEncodingAttr a)
    v (dbCTypeAttr a) (dbTablespaceAttr a) (dbConnLimitAttr a)
    (dbAllowConnsAttr a) (dbIsTemplateAttr a)).
Definition Set_dbCTypeAttr (v : string) : ResourceData -> ResourceData :=
  onSet (fun a => mkAttrs (dbNameAttr a) (dbOwnerAttr a) (dbTemplateAttr a) (dbEncodingAttr a)
    (dbCollationAttr a) v (dbTablespaceAttr a) (dbConnLimitAttr a)
    (dbAllowConnsAttr a) (dbIsTemplateAttr a)).
Definition Set_dbTablespaceAttr (v : string) : ResourceData -> ResourceData :=
  onSet (fun a => mkAttrs (dbNameAttr a) (dbOwnerAttr a) (dbTemplateAttr a) (dbEncodingAttr a)
    (dbCollationAttr a) (dbCTypeAttr a) v (dbConnLimitAttr a)
    (dbAllowConnsAttr a) (dbIsTemplateAttr a)).
Definition Set_dbConnLimitAttr (v : Z) : ResourceData -> ResourceData :=
  onSet (fun a => mkAttrs (dbNameAttr a) (dbOwnerAttr a) (dbTemplateAttr a) (dbEncodingAttr a)
    (dbCollationAttr a) (dbCTypeAttr a) (dbTablespaceAttr a) v
    (dbAllowConnsAttr a) (dbIsTemplateAttr a)).
Definition Set_dbAllowConnsAttr (v : bool) : ResourceData -> ResourceData :=
  onSet (fun a => mkAttrs (dbNameAttr a) (dbOwnerAttr a) (dbTemplateAttr a) (dbEncodingAttr a)
    (dbCollationAttr a) (dbCTypeAttr a) (dbTablespaceAttr a) (dbConnLimitAttr a)
    v (dbIsTemplateAttr a)).
Definition Set_dbIsTemplateAttr (v : bool) : ResourceData -> ResourceData :=
  onSet (fun a => mkAttrs (dbNameAttr a) (dbOwnerAttr a) (dbTemplateAttr a) (dbEncodingAttr a)
    (dbCollationAttr a) (dbCTypeAttr a) (dbTablespaceAttr a) (dbConnLimitAttr a)
    (dbAllowConnsAttr a) v).

(* ===================================================================== *)
(** ** The client and the store *)
(* ===================================================================== *)

(** The optional features the resource asks about. *)
Inductive featureName : Type := featureDBAllowConnections | featureDBIsTemplate.

(** The parts of [*Client] the resource reads.  The feature table of the
    provider is not part of this file: the capability set is a field. *)
Record Client : Type := mkClient {
  config_Username  : string;
  version_String   : string;
  featureSupported : featureName -> bool
}.

(** A value bound as a statement parameter or scanned from a row. *)
Inductive SqlVal : Type :=
| VString (s : string)
| VInt (z : Z)
| VBool (b : bool).

(** What [db.QueryRow(...).Scan(...)] reports: no row, another error of
    the store, or the columns of the row as converted by [Scan]. *)
Inductive ScanResult : Type :=
| NoRows
| ScanError (msg : string)
| Row (cols : list SqlVal).

(** The database behind [c.DB()]: how it answers [Exec] (the message of
    the error, if any) and [QueryRow], and the state it is left in. *)
Record Store : Type := mkStore {
  World       : Type;
  db_exec     : World -> string -> list SqlVal -> World * option string;
  db_queryRow : World -> string -> list SqlVal -> World * ScanResult
}.

(** The call sites of [Exec] and [QueryRow] in the source.  A site labels
    an entry of the log; the store sees the text and the parameters of a
    call, not its site. *)
Inductive ExecSite : Type :=
| SGrant | SRevoke | SCreate | SDrop | SRename | SOwner
| STablespace | SConnLimit | SAllowConns | SIsTemplate.

Inductive QuerySite : Type :=
| QExists | QIdentity | QCore | QAllowConns | QIsTemplate.

(** The log of calls made on the store. *)
Inductive Event : Type :=
| EvExec (site : ExecSite) (sql : string) (args : list SqlVal) (failure : option string)
| EvQuery (site : QuerySite) (sql : string) (args : list SqlVal) (res : ScanResult).

Definition isExec (e : Event) : bool :=
  match e with EvExec _ _ _ _ => true | EvQuery _ _ _ _ => false end.

Definition execSite (e : Event) : option ExecSite :=
  match e with EvExec s _ _ _ => Some s | EvQuery _ _ _ _ => None end.

Definition ev_sql (e : Event) : string :=
  match e with EvExec _ q _ _ => q | EvQuery _ q _ _ => q end.

Definition ev_args (e : Event) : list SqlVal :=
  match e with EvExec _ _ a _ => a | EvQuery _ _ a _ => a end.

(* ===================================================================== *)
(** ** The operations *)
(* ===================================================================== *)

Section Resource.

(** [pqQuoteLiteral] is defined in another file of the provider; the
    operations are read for any such function. *)
Variable pqQuoteLiteral : string -> string.

(** The store behind the client's connection. *)
Variable S : Store.

(** What an operation reads and writes: the store and the resource
    data [d]. *)
Record St : Type := mkSt { world : World S; rd : ResourceData }.

(** A computation returns its value, the state it leaves and the calls
    it made on the store, in order. *)
Definition M (A : Type) : Type := St -> A * St * list Event.

Definition ret {A} (a : A) : M A := fun st => (a, st, []).

Definition bind {A B} (m : M A) (k : A -> M B) : M B := fun st =>
  let '(a, st1, evs1) := m st in
  let '(b, st2, evs2) := k a st1 in
  (b, st2, (evs1 ++ evs2)%list).

Notation "x <- m ;; k" := (bind m (fun x => k))
  (at level 100, m at next level, right associativity).
Notation "m ;;; k" := (bind m (fun _ => k))
  (at level 100, right associativity).

Definition result {A} (r : A * St * list Event) : A := fst (fst r).
Definition final {A} (r : A * St * list Event) : St := snd (fst r).
Definition events {A} (r : A * St * list Event) : list Event := snd r.

(** [c.DB().Exec(sql, args...)]: the error's message, if it failed. *)
Definition Exec (site : ExecSite) (sql : string) (args : list SqlVal)
  : M (option string) := fun st =>
  let '(w, r) := db_exec S (world st) sql args in
  (r, mkSt w (rd st), [EvExec site sql args r]).

(** [c.DB().QueryRow(sql, args...).Scan(...)]. *)
Definition QueryRow (site : QuerySite) (sql : string) (args : list SqlVal)
  : M ScanResult := fun st =>
  let '(w, r) := db_queryRow S (world st) sql args in
  (r, mkSt w (rd st), [EvQuery site sql args r]).

Definition getData : M ResourceData := fun st => (rd st, st, []).

Definition update (f : ResourceData -> ResourceData) : M unit := fun st =>
  (tt, mkSt (world st) (f (rd st)), []).

(** [if err := m; err != nil { return wrap(err) }], then [k]. *)
Definition check (m : M (option error)) (wrap : error -> error)
  (k : M (option error)) : M (option error) :=
  err <- m ;;
  match err with
  | Some e => ret (Some (wrap e))
  | None => k
  end.

(** [defer cleanup()] in a function whose result parameter is unnamed:
    [return v] fixes the result [v] first, the deferred closure runs
    afterwards, and what the closure assigns to the local variable
    [err] is not part of the result. *)
Definition defer {A} (cleanup : M unit) (body : M A) : M A :=
  r <- body ;;
  cleanup ;;;
  ret r.

(** The destinations of the [Scan] calls of the source. *)
Definition scanError (r : ScanResult) : error :=
  match r with
  | NoRows => ErrNoRows
  | ScanError msg => DriverError msg
  | Row _ => DriverError "sql: Scan error"
  end.

Definition scan_string (r : ScanResult) : error + string :=
  match r with
  | Row [VString a] => inr a
  | _ => inl (scanError r)
  end.

Definition scan_string_string (r : ScanResult) : error + (string * string) :=
  match r with
  | Row [VString a; VString b] => inr (a, b)
  | _ => inl (scanError r)
  end.

Definition scan_core (r : ScanResult)
  : error + (string * string * string * string * Z) :=
  match r with
  | Row [VString e; VString co; VString ct; VString ts; VInt n] =>
      inr (e, co, ct, ts, n)
  | _ => inl (scanError r)
  end.

Definition scan_bool (r : ScanResult) : error + bool :=
  match r with
  | Row [VBool b] => inr b
  | _ => inl (scanError r)
  end.

Definition isErrNoRows (e : error) : bool :=
  match e with ErrNoRows => true | _ => false end.

(* ------------------------------------------------------------------- *)
(** *** Owner membership *)

Definition duplicateKeyMessage : string :=
  "duplicate key value violates unique constraint".

Definition grantSQL (dbOwner connUsername : string) : string :=
  "GRANT " ++ QuoteIdentifier dbOwner ++ " TO " ++ QuoteIdentifier connUsername.

Definition revokeSQL (dbOwner connUsername : string) : string :=
  "REVOKE " ++ QuoteIdentifier dbOwner ++ " FROM " ++ QuoteIdentifier connUsername.

Definition grantRoleMembership (dbOwner connUsername : string)
  : M (option error) :=
  if (negb (dbOwner =? "") && negb (dbOwner =? connUsername))%string%bool then
    err <- Exec SGrant (grantSQL dbOwner connUsername) [] ;;
    match err with
    | Some msg =>
        (* is already member or role *)
        if Contains msg duplicateKeyMessage then ret None
        else ret (Some (errwrap_Wrapf "Error granting membership: {{err}}" []
                          (DriverError msg)))
    | None => ret None
    end
  else ret None.

Definition revokeRoleMembership (dbOwner connUsername : string)
  : M (option error) :=
  if (negb (dbOwner =? "") && negb (dbOwner =? connUsername))%string%bool then
    err <- Exec SRevoke (revokeSQL dbOwner connUsername) [] ;;
    match err with
    | Some msg =>
        ret (Some (errwrap_Wrapf "Error revoking membership: {{err}}" []
                     (DriverError msg)))
    | None => ret None
    end
  else ret None.

Definition wrapGrant (c : Client) (owner : string) : error -> error :=
  errwrap_Wrapf "Error adding connection user (%q) to ROLE %q: {{err}}"
    [config_Username c; owner].

Definition wrapRevoke (c : Client) (owner : string) : error -> error :=
  errwrap_Wrapf "Error removing connection user (%q) from ROLE %q: {{err}}"
    [config_Username c; owner].

(** The closure deferred by Create and by [setDBOwner]: it reads the
    owner from [d] when it runs and stores the outcome in the local
    [err] of the enclosing function. *)
Definition deferredRevoke (c : Client) : M unit :=
  d <- getData ;;
  err <- revokeRoleMembership (Get dbOwnerAttr d) (config_Username c) ;;
  let err := match err with
             | Some e => Some (wrapRevoke c (Get dbOwnerAttr d) e)
             | None => None
             end in
  ret tt.

(* ------------------------------------------------------------------- *)
(** *** Read *)

Definition dbSQLFmt (columns : string) : string :=
  "SELECT " ++ columns ++ " " ++
  "FROM pg_catalog.pg_database AS d, pg_catalog.pg_tablespace AS ts " ++
  "WHERE d.datname = $1 AND d.dattablespace = ts.oid".

Definition identitySQL : string :=
  "SELECT d.datname, pg_catalog.pg_get_userbyid(d.datdba) from pg_database d WHERE datname=$1".

Definition coreColumns : string :=
  "pg_catalog.pg_encoding_to_char(d.encoding), d.datcollate, d.datctype, ts.spcname, d.datconnlimit".

Definition readAllowConns (c : Client) (dbId : string) : M (option error) :=
  if featureSupported c featureDBAllowConnections then
    r <- QueryRow QAllowConns (dbSQLFmt "d.datallowconn") [VString dbId] ;;
    match scan_bool r with
    | inl e =>
        ret (Some (errwrap_Wrapf
          "Error reading ALLOW_CONNECTIONS property for DATABASE: {{err}}" [] e))
    | inr dbAllowConns =>
        update (Set_dbAllowConnsAttr dbAllowConns) ;;;
        ret None
    end
  else ret None.

Definition readIsTemplate (c : Client) (dbId : string) : M (option error) :=
  if featureSupported c featureDBIsTemplate then
    r <- QueryRow QIsTemplate (dbSQLFmt "d.datistemplate") [VString dbId] ;;
    match scan_bool r with
    | inl e =>
        ret (Some (errwrap_Wrapf
          "Error reading IS_TEMPLATE property for DATABASE: {{err}}" [] e))
    | inr dbIsTemplate =>
        update (Set_dbIsTemplateAttr dbIsTemplate) ;;;
        ret None
    end
  else ret None.

Definition wrapRead : error -> error :=
  errwrap_Wrapf "Error reading database: {{err}}" [].

Definition resourcePostgreSQLDatabaseReadImpl (c : Client) : M (option error) :=
  d <- getData ;;
  let dbId := rd_id d in
  r <- QueryRow QIdentity identitySQL [VString dbId] ;;
  match scan_string_string r with
  | inl e =>
      if isErrNoRows e then update (SetId "") ;;; ret None
      else ret (Some (wrapRead e))
  | inr (dbName, ownerName) =>
      r <- QueryRow QCore (dbSQLFmt coreColumns) [VString dbId] ;;
      match scan_core r with
      | inl e =>
          if isErrNoRows e then update (SetId "") ;;; ret None
          else ret (Some (wrapRead e))
      | inr (dbEncoding, dbCollation, dbCType, dbTablespaceName, dbConnLimit) =>
          update (Set_dbNameAttr dbName) ;;;
          update (Set_dbOwnerAttr ownerName) ;;;
          update (Set_dbEncodingAttr dbEncoding) ;;;
          update (Set_dbCollationAttr dbCollation) ;;;
          update (Set_dbCTypeAttr dbCType) ;;;
          update (Set_dbTablespaceAttr dbTablespaceName) ;;;
          update (Set_dbConnLimitAttr dbConnLimit) ;;;
          d <- getData ;;
          let dbTemplate := Get dbTemplateAttr d in
          let dbTemplate :=
            if (dbTemplate =? "")%string then "template0" else dbTemplate in
          update (Set_dbTemplateAttr dbTemplate) ;;;
          check (readAllowConns c dbId) (fun e => e)
            (check (readIsTemplate c dbId) (fun e => e)
               (ret None))
      end
  end.

Definition resourcePostgreSQLDatabaseRead (c : Client) : M (option error) :=
  resourcePostgreSQLDatabaseReadImpl c.

Definition existsSQL : string :=
  "SELECT d.datname from pg_database d WHERE datname=$1".

Definition resourcePostgreSQLDatabaseExists (c : Client)
  : M (bool * option error) :=
  d <- getData ;;
  r <- QueryRow QExists existsSQL [VString (rd_id d)] ;;
  match scan_string r with
  | inl e => if isErrNoRows e then ret (false, None) else ret (false, Some e)
  | inr _ => ret (true, None)
  end.

(* ------------------------------------------------------------------- *)
(** *** Create *)

Definition isDefault (v : string) : bool := (ToUpper v =? "DEFAULT")%string.

(** The clauses streamed into the query buffer, one per [switch] or
    block of the source. *)
Definition ownerClause (c : Client) (d : ResourceData) : string :=
  let '(v, ok) := GetOk dbOwnerAttr d in
  if ok then " OWNER " ++ QuoteIdentifier v
  else
    (* No owner specified in the config, default to using the
       connecting username. *)
    " OWNER " ++ QuoteIdentifier (config_Username c).

Definition templateClause (d : ResourceData) : string :=
  let '(v, ok) := GetOk dbTemplateAttr d in
  if (ok && isDefault v)%bool then " TEMPLATE DEFAULT"
  else if ok then " TEMPLATE " ++ QuoteIdentifier v
  else if (v =? "")%string then " TEMPLATE template0"
  else "".

Definition encodingClause (d : ResourceData) : string :=
  let '(v, ok) := GetOk dbEncodingAttr d in
  if (ok && isDefault v)%bool then " ENCODING DEFAULT"
  else if ok then " ENCODING '" ++ pqQuoteLiteral v ++ "' "
  else if (v =? "")%string then " ENCODING 'UTF8'"
  else "".

Definition collationClause (d : ResourceData) : string :=
  let '(v, ok) := GetOk dbCollationAttr d in
  if (ok && isDefault v)%bool then " LC_COLLATE DEFAULT"
  else if ok then " LC_COLLATE '" ++ pqQuoteLiteral v ++ "' "
  else if (v =? "")%string then " LC_COLLATE 'C'"
  else "".

Definition ctypeClause (d : ResourceData) : string :=
  let '(v, ok) := GetOk dbCTypeAttr d in
  if (ok && isDefault v)%bool then " LC_CTYPE DEFAULT"
  else if ok then " LC_CTYPE '" ++ pqQuoteLiteral v ++ "' "
  else if (v =? "")%string then " LC_CTYPE 'C'"
  else "".

Definition tablespaceClause (d : ResourceData) : string :=
  let '(v, ok) := GetOk dbTablespaceAttr d in
  if (ok && isDefault v)%bool then " TABLESPACE DEFAULT"
  else if ok then " TABLESPACE " ++ QuoteIdentifier v
  else "".

Definition allowConnsClause (c : Client) (d : ResourceData) : string :=
  if featureSupported c featureDBAllowConnections
  then " ALLOW_CONNECTIONS " ++ fmt_bool (Get dbAllowConnsAttr d)
  else "".

Definition connLimitClause (d : ResourceData) : string :=
  " CONNECTION LIMIT " ++ fmt_int (Get dbConnLimitAttr d).

Definition isTemplateClause (c : Client) (d : ResourceData) : string :=
  if featureSupported c featureDBIsTemplate
  then " IS_TEMPLATE " ++ fmt_bool (Get dbIsTemplateAttr d)
  else "".

(** [b.String()] at the end of Create. *)
Definition createSQL (c : Client) (d : ResourceData) : string :=
  "CREATE DATABASE " ++ QuoteIdentifier (Get dbNameAttr d)
    ++ ownerClause c d
    ++ templateClause d
    ++ encodingClause d
    ++ collationClause d
    ++ ctypeClause d
    ++ tablespaceClause d
    ++ allowConnsClause c d
    ++ connLimitClause d
    ++ isTemplateClause c d.

Definition resourcePostgreSQLDatabaseCreate (c : Client) : M (option error) :=
  d <- getData ;;
  let dbName := Get dbNameAttr d in
  (* Needed in order to set the owner of the db if the connection user
     is not a superuser *)
  check (grantRoleMembership (Get dbOwnerAttr d) (config_Username c))
        (wrapGrant c (Get dbOwnerAttr d))
    (defer (deferredRevoke c)
       (err <- Exec SCreate (createSQL c d) [] ;;
        match err with
        | Some msg =>
            ret (Some (errwrap_Wrapf "Error creating database %q: {{err}}"
                         [dbName] (DriverError msg)))
        | None =>
            update (SetId dbName) ;;;
            resourcePostgreSQLDatabaseReadImpl c
        end)).

(* ------------------------------------------------------------------- *)
(** *** The setters of Update *)

Definition renameSQL (o n : string) : string :=
  "ALTER DATABASE " ++ QuoteIdentifier o ++ " RENAME TO " ++ QuoteIdentifier n.

Definition setDBName : M (option error) :=
  d <- getData ;;
  if negb (HasChange_string dbNameAttr d) then ret None
  else
    let '(o, n) := GetChange dbNameAttr d in
    if (n =? "")%string then
      ret (Some (errors_New "Error setting database name to an empty string"))
    else
      err <- Exec SRename (renameSQL o n) [] ;;
      match err with
      | Some msg =>
          ret (Some (errwrap_Wrapf "Error updating database name: {{err}}" []
                       (DriverError msg)))
      | None => update (SetId n) ;;; ret None
      end.

Definition ownerSQL (dbName owner : string) : string :=
  "ALTER DATABASE " ++ QuoteIdentifier dbName ++ " OWNER TO "
                    ++ QuoteIdentifier owner.

Definition setDBOwner (c : Client) : M (option error) :=
  d <- getData ;;
  if negb (HasChange_string dbOwnerAttr d) then ret None
  else
    let owner := Get dbOwnerAttr d in
    if (owner =? "")%string then ret None
    else
      check (grantRoleMembership (Get dbOwnerAttr d) (config_Username c))
            (wrapGrant c (Get dbOwnerAttr d))
        (defer (deferredRevoke c)
           (d <- getData ;;
            let dbName := Get dbNameAttr d in
            err <- Exec SOwner (ownerSQL dbName owner) [] ;;
            match err with
            | Some msg =>
                ret (Some (errwrap_Wrapf "Error updating database OWNER: {{err}}" []
                             (DriverError msg)))
            | None =>
                (* [return err]: the [err] of the grant, which is [nil] here *)
                ret None
            end)).

Definition setDBTablespace : M (option error) :=
  d <- getData ;;
  if negb (HasChange_string dbTablespaceAttr d) then ret None
  else
    let tbspName := Get dbTablespaceAttr d in
    let dbName := Get dbNameAttr d in
    let sql :=
      if ((tbspName =? "")%string || isDefault tbspName)%bool
      then "ALTER DATABASE " ++ QuoteIdentifier dbName ++ " RESET TABLESPACE"
      else "ALTER DATABASE " ++ QuoteIdentifier dbName ++ " SET TABLESPACE "
                             ++ QuoteIdentifier tbspName in
    err <- Exec STablespace sql [] ;;
    match err with
    | Some msg =>
        ret (Some (errwrap_Wrapf "Error updating database TABLESPACE: {{err}}" []
                     (DriverError msg)))
    | None => ret None
    end.

Definition connLimitSQL (dbName : string) : string :=
  "ALTER DATABASE " ++ QuoteIdentifier dbName ++ " CONNECTION LIMIT = $1".

Definition setDBConnLimit : M (option error) :=
  d <- getData ;;
  if negb (HasChange_int dbConnLimitAttr d) then ret None
  else
    let connLimit := Get dbConnLimitAttr d in
    let dbName := Get dbNameAttr d in
    err <- Exec SConnLimit (connLimitSQL dbName) [VInt connLimit] ;;
    match err with
    | Some msg =>
        ret (Some (errwrap_Wrapf "Error updating database CONNECTION LIMIT: {{err}}" []
                     (DriverError msg)))
    | None => ret None
    end.

Definition unsupportedAllowConns (c : Client) : error :=
  fmt_Errorf
    "PostgreSQL client is talking with a server (%q) that does not support database ALLOW_CONNECTIONS"
    [version_String c].

Definition unsupportedIsTemplate (c : Client) : error :=
  fmt_Errorf
    "PostgreSQL client is talking with a server (%q) that does not support database IS_TEMPLATE"
    [version_String c].

Definition setDBAllowConns (c : Client) : M (option error) :=
  d <- getData ;;
  if negb (HasChange_bool dbAllowConnsAttr d) then ret None
  else if negb (featureSupported c featureDBAllowConnections) then
    ret (Some (unsupportedAllowConns c))
  else
    let allowConns := Get dbAllowConnsAttr d in
    let dbName := Get dbNameAttr d in
    let sql := "ALTER DATABASE " ++ QuoteIdentifier dbName
                                 ++ " ALLOW_CONNECTIONS $1" in
    err <- Exec SAllowConns sql [VBool allowConns] ;;
    match err with
    | Some msg =>
        ret (Some (errwrap_Wrapf "Error updating database ALLOW_CONNECTIONS: {{err}}" []
                     (DriverError msg)))
    | None => ret None
    end.

Definition isTemplateSQL (dbName : string) : string :=
  "ALTER DATABASE " ++ QuoteIdentifier dbName ++ " IS_TEMPLATE $1".

Definition wrapIsTemplate : error -> error :=
  errwrap_Wrapf "Error updating database IS_TEMPLATE: {{err}}" [].

Definition doSetDBIsTemplate (c : Client) (dbName : string) (isTemplate : bool)
  : M (option error) :=
  if negb (featureSupported c featureDBIsTemplate) then
    ret (Some (unsupportedIsTemplate c))
  else
    err <- Exec SIsTemplate (isTemplateSQL dbName) [VBool isTemplate] ;;
    match err with
    | Some msg => ret (Some (wrapIsTemplate (DriverError msg)))
    | None => ret None
    end.

Definition setDBIsTemplate (c : Client) : M (option error) :=
  d <- getData ;;
  if negb (HasChange_bool dbIsTemplateAttr d) then ret None
  else
    check (doSetDBIsTemplate c (Get dbNameAttr d) (Get dbIsTemplateAttr d))
          wrapIsTemplate
      (ret None).

(* ------------------------------------------------------------------- *)
(** *** Update and Delete *)

Definition same (e : error) : error := e.

(** The setters that run before [setDBAllowConns], and those that run
    before [setDBIsTemplate]. *)
Definition settersBeforeAllowConns (c : Client) (k : M (option error))
  : M (option error) :=
  check setDBName same
    (check (setDBOwner c) same
       (check setDBTablespace same
          (check setDBConnLimit same k))).

Definition resourcePostgreSQLDatabaseUpdate (c : Client) : M (option error) :=
  settersBeforeAllowConns c
    (check (setDBAllowConns c) same
       (check (setDBIsTemplate c) same
          (* Empty values: ALTER DATABASE name RESET configuration_parameter; *)
          (resourcePostgreSQLDatabaseReadImpl c))).

Definition dropSQL (dbName : string) : string :=
  "DROP DATABASE " ++ QuoteIdentifier dbName.

Definition resourcePostgreSQLDatabaseDelete (c : Client) : M (option error) :=
  d <- getData ;;
  let dbName := Get dbNameAttr d in
  check (if featureSupported c featureDBIsTemplate then
           if Get dbIsTemplateAttr d then
             (* Template databases must have this attribute cleared
                before they can be dropped. *)
             doSetDBIsTemplate c dbName false
           else ret None
         else ret None)
        (errwrap_Wrapf
           "Error updating database IS_TEMPLATE during DROP DATABASE: {{err}}" [])
    (check (setDBIsTemplate c) same
       (err <- Exec SDrop (dropSQL dbName) [] ;;
        match err with
        | Some msg =>
            ret (Some (errwrap_Wrapf "Error dropping database: {{err}}" []
                         (DriverError msg)))
        | None => update (SetId "") ;;; ret None
        end)).

End Resource.

Arguments mkSt {S} _ _.
Arguments world {S} _.
Arguments rd {S} _.
Arguments result {S A} _.
Arguments final {S A} _.
Arguments events {S A} _.
Arguments ret {S A} _ _.
Arguments bind {S A B} _ _ _.
Arguments check {S} _ _ _ _.
Arguments defer {S A} _ _ _.

(* ===================================================================== *)
(** ** Vocabulary of the statements *)
(* ===================================================================== *)

Section Vocabulary.

Variable S : Store.

(** Every call the computation makes on the store satisfies [P]. *)
Definition emitsOnly {A} (P : Event -> Prop) (m : M S A) : Prop :=
  forall st, Forall P (events (m st)).

(** [d'] has the attributes of [d] on all three levels; the identifier
    may differ. *)
Definition sameAttrs (d d' : ResourceData) : Prop :=
  rd_state d = rd_state d' /\ rd_diff d = rd_diff d' /\ rd_set d = rd_set d'.

Definition keepsAttrs {A} (m : M S A) : Prop :=
  forall st, sameAttrs (rd st) (rd (final (m st))).

(** No attribute that Update looks at differs between the prior state
    and the planned values. *)
Definition unchanged (d : ResourceData) : Prop :=
  HasChange_string dbNameAttr d = false /\
  HasChange_string dbOwnerAttr d = false /\
  HasChange_string dbTablespaceAttr d = false /\
  HasChange_int dbConnLimitAttr d = false /\
  HasChange_bool dbAllowConnsAttr d = false /\
  HasChange_bool dbIsTemplateAttr d = false.

(** The call is a [QueryRow], not an [Exec]. *)
Definition isQuery (e : Event) : Prop := isExec e = false.

(** Every call the computation makes satisfies [P d], where [d] is the
    resource data the computation starts from. *)
Definition emitsFor {A} (P : ResourceData -> Event -> Prop) (m : M S A) : Prop :=
  forall st, Forall (P (rd st)) (events (m st)).

(** [P] looks at the attributes of [d] only. *)
Definition attrStable (P : ResourceData -> Event -> Prop) : Prop :=
  forall d d', sameAttrs d d' -> forall e, P d' e -> P d e.

(** The call is not an [Exec] of the given site. *)
Definition notSite (s : ExecSite) (e : Event) : Prop := execSite e <> Some s.

(** If the call is the ALTER ... OWNER TO statement, it names the
    database and the owner that [d] holds. *)
Definition ownerStatementFor (d : ResourceData) (e : Event) : Prop :=
  execSite e = Some SOwner ->
  ev_sql e = ownerSQL (Get dbNameAttr d) (Get dbOwnerAttr d).

(** If the call is the ALTER ... CONNECTION LIMIT statement, its text is
    the fixed text with the placeholder [$1] and the limit that [d] holds
    is its one bound parameter. *)
Definition connLimitStatementFor (d : ResourceData) (e : Event) : Prop :=
  execSite e = Some SConnLimit ->
  ev_sql e = connLimitSQL (Get dbNameAttr d) /\
  ev_args e = [VInt (Get dbConnLimitAttr d)].

(** The reading of "the limit is passed as a bound parameter" on a log:
    every statement that sets the connection limit, the CREATE DATABASE
    or the ALTER ... CONNECTION LIMIT, has the limit among its bound
    parameters. *)
Definition limitIsBound (limit : Z) (evs : list Event) : Prop :=
  forall e, In e evs ->
    execSite e = Some SCreate \/ execSite e = Some SConnLimit ->
    In (VInt limit) (ev_args e).

(** The error is one of the two unsupported-feature errors of the source
    (its only uses of [fmt.Errorf]), bare or wrapped. *)
Fixpoint isUnsupportedFeature (e : error) : bool :=
  match e with
  | fmt_Errorf _ _ => true
  | errwrap_Wrapf _ _ inner => isUnsupportedFeature inner
  | _ => false
  end.

(** Every error the computation returns satisfies [Q]. *)
Definition failsOnly (Q : error -> Prop) (m : M S (option error)) : Prop :=
  forall st e, result (m st) = Some e -> Q e.

End Vocabulary.

Arguments failsOnly {S} _ _.

(* ===================================================================== *)
(** ** Vocabulary of the further properties *)
(* ===================================================================== *)

Section FurtherVocabulary.

Variable S : Store.

(** The six setters of Update in their order, without the read-back. *)
Definition allSetters (c : Client) : M S (option error) :=
  settersBeforeAllowConns S c
    (check (setDBAllowConns S c) same
       (check (setDBIsTemplate S c) same (ret None))).

(** The resource data a computation leaves is related by [R] to the one
    it started from. *)
Definition relates {A} (R : ResourceData -> ResourceData -> Prop) (m : M S A)
  : Prop :=
  forall st, R (rd st) (rd (final (m st))).

(** The three setters of Update that run before [setDBConnLimit]. *)
Definition settersBeforeConnLimit (c : Client) : M S (option error) :=
  check (setDBName S) same
    (check (setDBOwner S c) same
       (check (setDBTablespace S) same (ret None))).

(** The call is one of the two core queries of the read-back and the
    catalog answered it with no row. *)
Definition reportsAbsent (e : Event) : bool :=
  match e with
  | EvQuery QIdentity _ _ NoRows => true
  | EvQuery QCore _ _ NoRows => true
  | _ => false
  end.

Definition querySite (e : Event) : option QuerySite :=
  match e with EvExec _ _ _ _ => None | EvQuery s _ _ _ => Some s end.

Definition failed (e : Event) : bool :=
  match e with
  | EvExec _ _ _ (Some _) => true
  | _ => false
  end.

(** The place of each call in an Update: the rename, the grant, the
    ownership change and the revoke, the tablespace, the connection
    limit, the two gated flags, then the queries of the read-back.  The
    calls Update never makes come last. *)
Definition updateRank (e : Event) : nat :=
  match e with
  | EvExec SRename _ _ _ => 0
  | EvExec SGrant _ _ _ => 1
  | EvExec SOwner _ _ _ => 2
  | EvExec SRevoke _ _ _ => 3
  | EvExec STablespace _ _ _ => 4
  | EvExec SConnLimit _ _ _ => 5
  | EvExec SAllowConns _ _ _ => 6
  | EvExec SIsTemplate _ _ _ => 7
  | EvQuery QIdentity _ _ _ => 8
  | EvQuery QCore _ _ _ => 9
  | EvQuery QAllowConns _ _ _ => 10
  | EvQuery QIsTemplate _ _ _ => 11
  | EvExec SCreate _ _ _ => 12
  | EvExec SDrop _ _ _ => 12
  | EvQuery QExists _ _ _ => 12
  end.

(** The ranks of the calls grow strictly along the log, starting at
    [lo] or above. *)
Fixpoint ascending (lo : nat) (l : list Event) : Prop :=
  match l with
  | [] => True
  | e :: l' => (lo <= updateRank e)%nat /\ ascending (Datatypes.S (updateRank e)) l'
  end.

(** Ascending from [lo], with every rank below [hi]. *)
Definition within (lo hi : nat) (l : list Event) : Prop :=
  ascending lo l /\ Forall (fun e => (updateRank e < hi)%nat) l.

Definition emitsWithin {A} (lo hi : nat) (m : M S A) : Prop :=
  forall st, within lo hi (events (m st)).

(** A statement of Update stands in the log only if the attribute it
    sets differs between the prior state and the planned values of [d]. *)
Definition changedOnly (d : ResourceData) (e : Event) : Prop :=
  match execSite e with
  | Some SRename => HasChange_string dbNameAttr d = true
  | Some SGrant | Some SOwner | Some SRevoke =>
      HasChange_string dbOwnerAttr d = true
  | Some STablespace => HasChange_string dbTablespaceAttr d = true
  | Some SConnLimit => HasChange_int dbConnLimitAttr d = true
  | Some SAllowConns => HasChange_bool dbAllowConnsAttr d = true
  | Some SIsTemplate => HasChange_bool dbIsTemplateAttr d = true
  | Some SCreate | Some SDrop => False
  | None => True
  end.

(** The sites of the statements that alter one attribute of a database
    named in the statement. *)
Definition attributeSite (s : ExecSite) : bool :=
  match s with
  | SOwner | STablespace | SConnLimit | SAllowConns | SIsTemplate => true
  | _ => false
  end.

(** A statement that alters an attribute names the database by the name
    that [d] holds. *)
Definition namesDatabase (d : ResourceData) (e : Event) : Prop :=
  forall s, execSite e = Some s -> attributeSite s = true ->
  exists rest,
    ev_sql e = "ALTER DATABASE " ++ QuoteIdentifier (Get dbNameAttr d) ++ rest.

End FurtherVocabulary.

Arguments relates {S A} _ _.
Arguments emitsWithin {S A} _ _ _.

Arguments emitsOnly {S A} _ _.
Arguments emitsFor {S A} _ _.
Arguments keepsAttrs {S A} _.

(* ===================================================================== *)
(** ** Sample stores and inputs *)
(* ===================================================================== *)

Module Samples.

(** A literal-quoting function for the sample runs; the sample values
    hold no character that needs escaping. *)
Definition quoteLiteral (s : string) : string := s.

(** The answers of a catalog that holds one database, with the
    attributes [a]. *)
Definition catalogAnswer (a : Attrs) (sql : string) : ScanResult :=
  if (sql =? identitySQL)%string then
    Row [VString (dbNameAttr a); VString (dbOwnerAttr a)]
  else if (sql =? dbSQLFmt coreColumns)%string then
    Row [VString (dbEncodingAttr a); VString (dbCollationAttr a);
         VString (dbCTypeAttr a); VString (dbTablespaceAttr a);
         VInt (dbConnLimitAttr a)]
  else if (sql =? dbSQLFmt "d.datallowconn")%string then
    Row [VBool (dbAllowConnsAttr a)]
  else if (sql =? dbSQLFmt "d.datistemplate")%string then
    Row [VBool (dbIsTemplateAttr a)]
  else if (sql =? existsSQL)%string then Row [VString (dbNameAttr a)]
  else NoRows.

(** A store that answers each statement with [verdict] and whose
    catalog, when it is read back, holds the database [a]. *)
Definition storeWith (verdict : string -> option string) (a : Attrs) : Store :=
  mkStore unit
    (fun w sql _ => (w, verdict sql))
    (fun w sql _ => (w, catalogAnswer a sql)).

(** A store that accepts every statement. *)
Definition acceptingStore : Attrs -> Store := storeWith (fun _ => None).

(** A store that refuses every REVOKE and accepts the rest. *)
Definition revokeRefusingStore : Attrs -> Store :=
  storeWith (fun sql =>
    if String.prefix "REVOKE " sql
    then Some "pq: permission denied to revoke role"
    else None).

(** A store in which the acting role already is a member of every
    role it is granted. *)
Definition memberStore : Attrs -> Store :=
  storeWith (fun sql =>
    if String.prefix "GRANT " sql
    then Some "pq: duplicate key value violates unique constraint pg_auth_members_role_member_index"
    else None).

(** A store whose catalog holds no database. *)
Definition emptyStore : Store :=
  mkStore unit
    (fun w _ _ => (w, None))
    (fun w _ _ => (w, NoRows)).

Definition allFeatures (f : featureName) : bool := true.
Definition noFeatures (f : featureName) : bool := false.

Definition capableClient : Client := mkClient "postgres" "13.4.0" allFeatures.
Definition oldClient : Client := mkClient "postgres" "9.4.0" noFeatures.

Definition appDb : Attrs :=
  mkAttrs "app_db" "app_role" "template0" "UTF8" "" "" "" 50 true false.

Definition blank : Attrs := mkAttrs "" "" "" "" "" "" "" 0 false false.

(** The desired state of a Create: no prior state, no identifier. *)
Definition createAppDb : ResourceData := resourceData "" blank appDb.

Definition quoted (s : string) : string := dquote ++ s ++ dquote.

(** The rows the catalog holds once the sample operations are done. *)
Definition appDbRow : Attrs :=
  mkAttrs "app_db" "app_role" "" "UTF8" "C" "C" "pg_default" 50 true false.

Definition appDbRenamedRow : Attrs :=
  mkAttrs "app_db2" "new_role" "" "UTF8" "C" "C" "pg_default" 50 true false.

Definition appDbNewOwnerRow : Attrs :=
  mkAttrs "app_db" "new_role" "" "UTF8" "C" "C" "pg_default" 50 true false.

Definition closedTemplateRow : Attrs :=
  mkAttrs "tpl_db" "postgres" "" "UTF8" "C" "C" "pg_default" (-1) true false.

(** An Update that renames [app_db] and hands it to another role. *)
Definition appDbRenamed : Attrs :=
  mkAttrs "app_db2" "new_role" "template0" "UTF8" "" "" "" 50 true false.

(** An Update that changes the owner only. *)
Definition appDbNewOwner : Attrs :=
  mkAttrs "app_db" "new_role" "template0" "UTF8" "" "" "" 50 true false.

Definition chown : ResourceData := resourceData "app_db" appDb appDbNewOwner.

(** An Update that changes the connection limit only. *)
Definition appDbLimit10 : Attrs :=
  mkAttrs "app_db" "app_role" "template0" "UTF8" "" "" "" 10 true false.

Definition relimit : ResourceData := resourceData "app_db" appDb appDbLimit10.

(** A template database that refuses connections: both gated attributes
    are set away from their defaults. *)
Definition closedTemplate : Attrs :=
  mkAttrs "tpl_db" "" "" "" "" "" "" (-1) false true.

Definition createClosedTemplate : ResourceData := resourceData "" blank closedTemplate.

(** An Update that turns [app_db] into such a database. *)
Definition appDbClosedTemplate : Attrs :=
  mkAttrs "app_db" "app_role" "template0" "UTF8" "" "" "" 50 false true.

Definition closeAndTemplate : ResourceData :=
  resourceData "app_db" appDb appDbClosedTemplate.

(** The resource data of a Delete: the state, with no change planned. *)
Definition deleteTemplate : ResourceData :=
  resourceData "app_db" appDbClosedTemplate appDbClosedTemplate.

Definition unchangedAppDb : ResourceData := resourceData "app_db" appDb appDb.

(** The statement Create builds for [createClosedTemplate] on a server
    that has neither feature. *)
Definition createClosedTemplateSQL : string :=
  "CREATE DATABASE " ++ quoted "tpl_db" ++ " OWNER " ++ quoted "postgres"
    ++ " TEMPLATE template0 ENCODING 'UTF8' LC_COLLATE 'C' LC_CTYPE 'C'"
    ++ " CONNECTION LIMIT -1".

(** A server that has ALLOW_CONNECTIONS and lacks IS_TEMPLATE. *)
Definition allowConnsOnly (f : featureName) : bool :=
  match f with
  | featureDBAllowConnections => true
  | featureDBIsTemplate => false
  end.

Definition halfClient : Client := mkClient "postgres" "9.4.0" allowConnsOnly.

Definition start (S : Store) (w : World S) (d : ResourceData) : St S := mkSt w d.

(** The statement Create builds for [createAppDb] on a server that has
    both features. *)
Definition createAppDbSQL : string :=
  "CREATE DATABASE " ++ quoted "app_db" ++ " OWNER " ++ quoted "app_role"
    ++ " TEMPLATE " ++ quoted "template0"
    ++ " ENCODING 'UTF8'  LC_COLLATE 'C' LC_CTYPE 'C'"
    ++ " ALLOW_CONNECTIONS true CONNECTION LIMIT 50 IS_TEMPLATE false".

(** A store that refuses the statements that begin with [start] and
    accepts the rest. *)
Definition refusing (start message : string) : Attrs -> Store :=
  storeWith (fun sql => if String.prefix start sql then Some message else None).

Definition grantRefusingStore : Attrs -> Store :=
  refusing "GRANT " "pq: permission denied to grant role".

Definition createRefusingStore : Attrs -> Store :=
  refusing "CREATE DATABASE " "pq: permission denied to create database".

Definition alterRefusingStore : Attrs -> Store :=
  refusing "ALTER DATABASE " "pq: must be owner of database".

(** A store whose catalog queries fail. *)
Definition brokenCatalogStore : Store :=
  mkStore unit
    (fun w _ _ => (w, None))
    (fun w _ _ => (w, ScanError "pq: connection reset")).

(** A store whose catalog has the row of [app_db] for the identity query
    and no row for the second core query. *)
Definition vanishingStore : Store :=
  mkStore unit
    (fun w _ _ => (w, None))
    (fun w sql _ =>
       if (sql =? identitySQL)%string
       then (w, Row [VString "app_db"; VString "app_role"])
       else (w, NoRows)).

(** An Update that hands [app_db] to the connecting user. *)
Definition appDbOwnedBySelf : Attrs :=
  mkAttrs "app_db" "postgres" "template0" "UTF8" "" "" "" 50 true false.

Definition chownToSelf : ResourceData := resourceData "app_db" appDb appDbOwnedBySelf.

(** A catalog that reports another owner than the one asked for. *)
Definition appDbForeignRow : Attrs :=
  mkAttrs "app_db" "other_role" "" "UTF8" "C" "C" "pg_default" 50 true false.

Definition renameAndChown : ResourceData := resourceData "app_db" appDb appDbRenamed.

(** An Update that renames [app_db] and changes its connection limit. *)
Definition appDbRenamedLimit10 : Attrs :=
  mkAttrs "app_db2" "app_role" "template0" "UTF8" "" "" "" 10 true false.

Definition renameAndRelimit : ResourceData :=
  resourceData "app_db" appDb appDbRenamedLimit10.

End Samples.

(* ===================================================================== *)
(** ** Facts about strings *)
(* ===================================================================== *)

Lemma append_assoc (s1 s2 s3 : string) : (s1 ++ s2) ++ s3 = s1 ++ s2 ++ s3.
Proof. induction s1 as [| c s1 IH]; simpl; [reflexivity | now rewrite IH]. Qed.

(* ===================================================================== *)
(** ** Running computations *)
(* ===================================================================== *)

(** Reduce the projections of a run that is given as a triple. *)
Ltac projections := cbn [result final events fst snd app world rd].

Section Running.

Variable S : Store.

Lemma bind_run {A B} (m : M S A) (k : A -> M S B) (st : St S) :
  bind m k st =
    (result (k (result (m st)) (final (m st))),
     final (k (result (m st)) (final (m st))),
     (events (m st) ++ events (k (result (m st)) (final (m st))))%list).
Proof.
  unfold bind, result, final, events.
  destruct (m st) as [[a st1] evs1]; simpl.
  destruct (k a st1) as [[b st2] evs2]; reflexivity.
Qed.

Lemma triple_eta {A} (r : A * St S * list Event) :
  r = (result r, final r, events r).
Proof. destruct r as [[a s] e]; reflexivity. Qed.

Lemma bind_update_run {B} f (k : unit -> M S B) (st : St S) :
  bind (update S f) k st = k tt (mkSt (world st) (f (rd st))).
Proof.
  rewrite bind_run. unfold update. projections. symmetry. apply triple_eta.
Qed.

Lemma bind_getData_run {B} (k : ResourceData -> M S B) (st : St S) :
  bind (getData S) k st = k (rd st) st.
Proof.
  rewrite bind_run. unfold getData. projections. symmetry. apply triple_eta.
Qed.

Lemma check_run_ok (m : M S (option error)) wrap k st :
  result (m st) = None ->
  check m wrap k st =
    (result (k (final (m st))), final (k (final (m st))),
     (events (m st) ++ events (k (final (m st))))%list).
Proof.
  intros H. unfold check. rewrite bind_run, H. reflexivity.
Qed.

Lemma check_run_err (m : M S (option error)) wrap k st e :
  result (m st) = Some e ->
  check m wrap k st = (Some (wrap e), final (m st), events (m st)).
Proof.
  intros H. unfold check. rewrite bind_run, H. simpl.
  now rewrite app_nil_r.
Qed.

Lemma defer_run {A} (cleanup : M S unit) (body : M S A) st :
  defer cleanup body st =
    (result (body st), final (cleanup (final (body st))),
     (events (body st) ++ events (cleanup (final (body st))))%list).
Proof.
  unfold defer. rewrite !bind_run. simpl. now rewrite app_nil_r.
Qed.

Lemma Exec_run site sql args (st : St S) :
  Exec S site sql args st =
    (snd (db_exec S (world st) sql args),
     mkSt (fst (db_exec S (world st) sql args)) (rd st),
     [EvExec site sql args (snd (db_exec S (world st) sql args))]).
Proof. unfold Exec. destruct (db_exec S (world st) sql args); reflexivity. Qed.

Lemma QueryRow_run site sql args (st : St S) :
  QueryRow S site sql args st =
    (snd (db_queryRow S (world st) sql args),
     mkSt (fst (db_queryRow S (world st) sql args)) (rd st),
     [EvQuery site sql args (snd (db_queryRow S (world st) sql args))]).
Proof. unfold QueryRow. destruct (db_queryRow S (world st) sql args); reflexivity. Qed.

(** *** Computations whose every call on the store satisfies [P] *)

Lemma emitsOnly_weaken {A} (P Q : Event -> Prop) (m : M S A) :
  (forall e, P e -> Q e) -> emitsOnly P m -> emitsOnly Q m.
Proof. intros H Hm st. eapply Forall_impl; [exact H | apply Hm]. Qed.

Lemma emitsOnly_ret {A} P (a : A) : emitsOnly (S:=S) P (ret a).
Proof. intros st; constructor. Qed.

Lemma emitsOnly_bind {A B} P (m : M S A) (k : A -> M S B) :
  emitsOnly P m -> (forall a, emitsOnly P (k a)) -> emitsOnly P (bind m k).
Proof.
  intros Hm Hk st. rewrite bind_run. unfold events at 1; simpl.
  apply Forall_app; split; [apply Hm | apply Hk].
Qed.

Lemma emitsOnly_getData P : emitsOnly P (getData S).
Proof. intros st; constructor. Qed.

Lemma emitsOnly_update P f : emitsOnly P (update S f).
Proof. intros st; constructor. Qed.

Lemma emitsOnly_Exec (P : Event -> Prop) site sql args :
  (forall r, P (EvExec site sql args r)) -> emitsOnly P (Exec S site sql args).
Proof.
  intros H st. rewrite Exec_run. unfold events; simpl. repeat constructor. apply H.
Qed.

Lemma emitsOnly_QueryRow (P : Event -> Prop) site sql args :
  (forall r, P (EvQuery site sql args r)) -> emitsOnly P (QueryRow S site sql args).
Proof.
  intros H st. rewrite QueryRow_run. unfold events; simpl. repeat constructor. apply H.
Qed.

Lemma emitsOnly_check P (m : M S (option error)) wrap k :
  emitsOnly P m -> emitsOnly P k -> emitsOnly P (check m wrap k).
Proof.
  intros Hm Hk. unfold check. apply emitsOnly_bind; [assumption|].
  intros [e|]; [apply emitsOnly_ret | assumption].
Qed.

Lemma emitsOnly_defer {A} P (cleanup : M S unit) (body : M S A) :
  emitsOnly P cleanup -> emitsOnly P body -> emitsOnly P (defer cleanup body).
Proof.
  intros Hc Hb. unfold defer. apply emitsOnly_bind; [assumption|].
  intros a. apply emitsOnly_bind; [assumption|]. intros _. apply emitsOnly_ret.
Qed.

(** *** Computations that leave the attributes of [d] alone *)

Lemma sameAttrs_refl d : sameAttrs d d.
Proof. repeat split. Qed.

Lemma sameAttrs_trans d1 d2 d3 : sameAttrs d1 d2 -> sameAttrs d2 d3 -> sameAttrs d1 d3.
Proof. intros (?&?&?) (?&?&?); repeat split; congruence. Qed.

Lemma sameAttrs_SetId id d : sameAttrs d (SetId id d).
Proof. repeat split. Qed.

Lemma keepsAttrs_ret {A} (a : A) : keepsAttrs (S:=S) (ret a).
Proof. intros st; apply sameAttrs_refl. Qed.

Lemma keepsAttrs_bind {A B} (m : M S A) (k : A -> M S B) :
  keepsAttrs m -> (forall a, keepsAttrs (k a)) -> keepsAttrs (bind m k).
Proof.
  intros Hm Hk st. rewrite bind_run. unfold final at 1; simpl.
  eapply sameAttrs_trans; [apply Hm | apply Hk].
Qed.

Lemma keepsAttrs_getData : keepsAttrs (getData S).
Proof. intros st; apply sameAttrs_refl. Qed.

Lemma keepsAttrs_SetId id : keepsAttrs (update S (SetId id)).
Proof. intros st; apply sameAttrs_SetId. Qed.

Lemma keepsAttrs_Exec site sql args : keepsAttrs (Exec S site sql args).
Proof. intros st. rewrite Exec_run. apply sameAttrs_refl. Qed.

Lemma keepsAttrs_check (m : M S (option error)) wrap k :
  keepsAttrs m -> keepsAttrs k -> keepsAttrs (check m wrap k).
Proof.
  intros Hm Hk. unfold check. apply keepsAttrs_bind; [assumption|].
  intros [e|]; [apply keepsAttrs_ret | assumption].
Qed.

Lemma keepsAttrs_defer {A} (cleanup : M S unit) (body : M S A) :
  keepsAttrs cleanup -> keepsAttrs body -> keepsAttrs (defer cleanup body).
Proof.
  intros Hc Hb. unfold defer. apply keepsAttrs_bind; [assumption|].
  intros a. apply keepsAttrs_bind; [assumption|]. intros _. apply keepsAttrs_ret.
Qed.

Lemma check_cases (m : M S (option error)) wrap k st :
  (exists e, result (m st) = Some e /\
             check m wrap k st = (Some (wrap e), final (m st), events (m st))) \/
  (result (m st) = None /\
   check m wrap k st =
     (result (k (final (m st))), final (k (final (m st))),
      (events (m st) ++ events (k (final (m st))))%list)).
Proof.
  destruct (result (m st)) as [e|] eqn:E.
  - left. exists e. split; [reflexivity | now apply check_run_err].
  - right. split; [reflexivity | now apply check_run_ok].
Qed.

Lemma check_run (m : M S (option error)) wrap k st r st' evs :
  m st = (r, st', evs) ->
  check m wrap k st =
    match r with
    | Some e => (Some (wrap e), st', evs)
    | None => (result (k st'), final (k st'), (evs ++ events (k st'))%list)
    end.
Proof.
  intros H. destruct r as [e|].
  - rewrite (check_run_err m wrap k st e) by (rewrite H; reflexivity).
    now rewrite H.
  - rewrite (check_run_ok m wrap k st) by (rewrite H; reflexivity).
    now rewrite H.
Qed.

Lemma emitsFor_of_emitsOnly {A} (P : ResourceData -> Event -> Prop) Q (m : M S A) :
  (forall d e, Q e -> P d e) -> emitsOnly Q m -> emitsFor P m.
Proof. intros H Hm st. eapply Forall_impl; [apply H | apply Hm]. Qed.

Lemma emitsFor_check P (m : M S (option error)) wrap k :
  attrStable P -> keepsAttrs m ->
  emitsFor P m -> emitsFor P k -> emitsFor P (check m wrap k).
Proof.
  intros HP Hkeep Hm Hk st.
  destruct (check_cases m wrap k st) as [(e & _ & ->) | (_ & ->)]; projections.
  - apply Hm.
  - apply Forall_app; split; [apply Hm|].
    eapply Forall_impl; [| apply Hk]. intros e. apply HP, Hkeep.
Qed.

End Running.

Ltac emits_step :=
  match goal with
  | |- emitsOnly _ (ret _) => apply emitsOnly_ret
  | |- emitsOnly _ (bind _ _) => apply emitsOnly_bind; [| intro]
  | |- emitsOnly _ (check _ _ _) => apply emitsOnly_check
  | |- emitsOnly _ (defer _ _) => apply emitsOnly_defer
  | |- emitsOnly _ (getData _) => apply emitsOnly_getData
  | |- emitsOnly _ (update _ _) => apply emitsOnly_update
  | |- emitsOnly _ (Exec _ _ _ _) => apply emitsOnly_Exec; intro
  | |- emitsOnly _ (QueryRow _ _ _ _) => apply emitsOnly_QueryRow; intro
  | |- emitsOnly _ (if ?b then _ else _) => destruct b
  | |- emitsOnly _ (match ?x with _ => _ end) => destruct x
  end.

Ltac keeps_step :=
  match goal with
  | |- keepsAttrs (ret _) => apply keepsAttrs_ret
  | |- keepsAttrs (bind _ _) => apply keepsAttrs_bind; [| intro]
  | |- keepsAttrs (check _ _ _) => apply keepsAttrs_check
  | |- keepsAttrs (defer _ _) => apply keepsAttrs_defer
  | |- keepsAttrs (getData _) => apply keepsAttrs_getData
  | |- keepsAttrs (update _ (SetId _)) => apply keepsAttrs_SetId
  | |- keepsAttrs (Exec _ _ _ _) => apply keepsAttrs_Exec
  | |- keepsAttrs (if ?b then _ else _) => destruct b
  | |- keepsAttrs (match ?x with _ => _ end) => destruct x
  end.

(* ===================================================================== *)
(** ** The operations on an arbitrary store *)
(* ===================================================================== *)

Section Claims.

Variable pqQuoteLiteral : string -> string.
Variable S : Store.

Local Abbreviation Create := (resourcePostgreSQLDatabaseCreate pqQuoteLiteral S).
Local Abbreviation ReadImpl := (resourcePostgreSQLDatabaseReadImpl S).
Local Abbreviation Read := (resourcePostgreSQLDatabaseRead S).
Local Abbreviation Update := (resourcePostgreSQLDatabaseUpdate S).
Local Abbreviation Delete := (resourcePostgreSQLDatabaseDelete S).

Lemma grant_noop owner user (st : St S) :
  owner = "" \/ owner = user ->
  grantRoleMembership S owner user st = (None, st, []).
Proof.
  intros H. unfold grantRoleMembership.
  destruct H as [-> | ->].
  - reflexivity.
  - rewrite String.eqb_refl, andb_false_r. reflexivity.
Qed.

Lemma revoke_noop owner user (st : St S) :
  owner = "" \/ owner = user ->
  revokeRoleMembership S owner user st = (None, st, []).
Proof.
  intros H. unfold revokeRoleMembership.
  destruct H as [-> | ->].
  - reflexivity.
  - rewrite String.eqb_refl, andb_false_r. reflexivity.
Qed.

(** C9.  [grantRoleMembership] returns [nil] when the store answers the
    GRANT with an error whose message holds the duplicate-key phrase,
    and it executes nothing (and returns [nil]) when the owner is empty
    or is the connecting user. *)
Theorem grantRoleMembership_duplicate_or_noop (owner user : string) (st : St S) :
  (owner = "" \/ owner = user \/
   exists msg,
     snd (db_exec S (world st) (grantSQL owner user) []) = Some msg /\
     Contains msg duplicateKeyMessage = true) ->
  result (grantRoleMembership S owner user st) = None /\
  (owner = "" \/ owner = user ->
   grantRoleMembership S owner user st = (None, st, [])).
Proof.
  intros H. split; [| apply grant_noop].
  destruct H as [H | [H | (msg & Hex & Hdup)]];
    try (rewrite grant_noop by auto; reflexivity).
  unfold grantRoleMembership.
  destruct (negb (owner =? "") && negb (owner =? user))%bool%string; [| reflexivity].
  rewrite bind_run, Exec_run. projections.
  rewrite Hex, Hdup. reflexivity.
Qed.

(** C10.  When the desired state leaves the owner unset, the owner
    clause names the connecting user, the CREATE DATABASE text carries
    that clause right after the database name, and that text is the
    first statement Create executes. *)
Theorem create_owner_defaults_to_username (c : Client) (st : St S) :
  Get dbOwnerAttr (rd st) = "" ->
  ownerClause c (rd st) = " OWNER " ++ QuoteIdentifier (config_Username c) /\
  (exists rest,
     createSQL pqQuoteLiteral c (rd st) =
       "CREATE DATABASE " ++ QuoteIdentifier (Get dbNameAttr (rd st))
         ++ " OWNER " ++ QuoteIdentifier (config_Username c) ++ rest) /\
  (exists r evs,
     events (Create c st) =
       EvExec SCreate (createSQL pqQuoteLiteral c (rd st)) [] r :: evs).
Proof.
  intros Hown.
  assert (Hclause : ownerClause c (rd st)
                    = " OWNER " ++ QuoteIdentifier (config_Username c)).
  { unfold ownerClause, GetOk. unfold Get in Hown. rewrite Hown. reflexivity. }
  split; [exact Hclause|]. split.
  - unfold createSQL. rewrite Hclause. eexists.
    rewrite append_assoc. reflexivity.
  - unfold resourcePostgreSQLDatabaseCreate.
    rewrite bind_run. unfold getData. projections.
    rewrite check_run_ok by (rewrite Hown, grant_noop by auto; reflexivity).
    rewrite Hown, grant_noop by auto. projections.
    rewrite defer_run. projections.
    rewrite bind_run, Exec_run. projections.
    eexists _, _. reflexivity.
Qed.

(* --------------------------------------------------------------------- *)
(** *** What each function calls *)

Lemma ReadImpl_emits_queries c : emitsOnly isQuery (ReadImpl c).
Proof.
  unfold resourcePostgreSQLDatabaseReadImpl, readAllowConns, readIsTemplate.
  repeat emits_step; reflexivity.
Qed.

(** C8.  When the identity query finds no row, Read returns [nil], the
    identifier of the resource is cleared, no attribute of [d] is
    written, and that query is the only call made on the store. *)
Theorem read_absent_clears_identifier (c : Client) (st : St S) :
  snd (db_queryRow S (world st) identitySQL [VString (rd_id (rd st))]) = NoRows ->
  Read c st =
    (None,
     mkSt (fst (db_queryRow S (world st) identitySQL [VString (rd_id (rd st))]))
          (SetId "" (rd st)),
     [EvQuery QIdentity identitySQL [VString (rd_id (rd st))] NoRows]).
Proof.
  intros H.
  unfold resourcePostgreSQLDatabaseRead, resourcePostgreSQLDatabaseReadImpl.
  rewrite bind_run. unfold getData. projections.
  rewrite bind_run, QueryRow_run. projections.
  rewrite H. reflexivity.
Qed.

(** X19.  The same outcome when the row disappears between the two
    core queries: nothing is written and nothing is asked afterwards. *)
Lemma read_absent_at_core_query (c : Client) (st : St S) a b :
  let w1 := fst (db_queryRow S (world st) identitySQL [VString (rd_id (rd st))]) in
  snd (db_queryRow S (world st) identitySQL [VString (rd_id (rd st))])
    = Row [VString a; VString b] ->
  snd (db_queryRow S w1 (dbSQLFmt coreColumns) [VString (rd_id (rd st))]) = NoRows ->
  Read c st =
    (None,
     mkSt (fst (db_queryRow S w1 (dbSQLFmt coreColumns) [VString (rd_id (rd st))]))
          (SetId "" (rd st)),
     [EvQuery QIdentity identitySQL [VString (rd_id (rd st))] (Row [VString a; VString b]);
      EvQuery QCore (dbSQLFmt coreColumns) [VString (rd_id (rd st))] NoRows]).
Proof.
  intros w1 H1 H2.
  unfold resourcePostgreSQLDatabaseRead, resourcePostgreSQLDatabaseReadImpl.
  rewrite bind_run. unfold getData. projections.
  rewrite bind_run, QueryRow_run. projections.
  rewrite H1. cbn [scan_string_string].
  rewrite bind_run, QueryRow_run. projections.
  fold w1. rewrite H2. reflexivity.
Qed.

Lemma exists_absent (c : Client) (st : St S) :
  snd (db_queryRow S (world st) existsSQL [VString (rd_id (rd st))]) = NoRows ->
  result (resourcePostgreSQLDatabaseExists S c st) = (false, None).
Proof.
  intros H. unfold resourcePostgreSQLDatabaseExists.
  rewrite bind_run. unfold getData. projections.
  rewrite bind_run, QueryRow_run. projections.
  rewrite H. reflexivity.
Qed.

(* --------------------------------------------------------------------- *)
(** *** Update without a change *)

Lemma setDBName_unchanged (st : St S) :
  HasChange_string dbNameAttr (rd st) = false -> setDBName S st = (None, st, []).
Proof.
  intros H. unfold setDBName. rewrite bind_run. unfold getData. projections.
  rewrite H. reflexivity.
Qed.

Lemma setDBOwner_unchanged c (st : St S) :
  HasChange_string dbOwnerAttr (rd st) = false -> setDBOwner S c st = (None, st, []).
Proof.
  intros H. unfold setDBOwner. rewrite bind_run. unfold getData. projections.
  rewrite H. reflexivity.
Qed.

Lemma setDBTablespace_unchanged (st : St S) :
  HasChange_string dbTablespaceAttr (rd st) = false ->
  setDBTablespace S st = (None, st, []).
Proof.
  intros H. unfold setDBTablespace. rewrite bind_run. unfold getData. projections.
  rewrite H. reflexivity.
Qed.

Lemma setDBConnLimit_unchanged (st : St S) :
  HasChange_int dbConnLimitAttr (rd st) = false ->
  setDBConnLimit S st = (None, st, []).
Proof.
  intros H. unfold setDBConnLimit. rewrite bind_run. unfold getData. projections.
  rewrite H. reflexivity.
Qed.

Lemma setDBAllowConns_unchanged c (st : St S) :
  HasChange_bool dbAllowConnsAttr (rd st) = false ->
  setDBAllowConns S c st = (None, st, []).
Proof.
  intros H. unfold setDBAllowConns. rewrite bind_run. unfold getData. projections.
  rewrite H. reflexivity.
Qed.

Lemma setDBIsTemplate_unchanged c (st : St S) :
  HasChange_bool dbIsTemplateAttr (rd st) = false ->
  setDBIsTemplate S c st = (None, st, []).
Proof.
  intros H. unfold setDBIsTemplate. rewrite bind_run. unfold getData. projections.
  rewrite H. reflexivity.
Qed.

Lemma check_skip (m k : M S (option error)) wrap (st : St S) :
  m st = (None, st, []) -> check m wrap k st = k st.
Proof.
  intros H. rewrite check_run_ok by (rewrite H; reflexivity).
  rewrite H. projections. symmetry. apply triple_eta.
Qed.

(** C4.  When no attribute has changed, each of the six setters returns
    [nil] at once, leaving the state as it is and calling nothing;
    Update then is the read-back alone, and no call it makes on the
    store is an [Exec]. *)
Theorem update_unchanged_executes_nothing (c : Client) (st : St S) :
  unchanged (rd st) ->
  setDBName S st = (None, st, []) /\
  setDBOwner S c st = (None, st, []) /\
  setDBTablespace S st = (None, st, []) /\
  setDBConnLimit S st = (None, st, []) /\
  setDBAllowConns S c st = (None, st, []) /\
  setDBIsTemplate S c st = (None, st, []) /\
  Update c st = ReadImpl c st /\
  Forall isQuery (events (Update c st)).
Proof.
  intros (Hn & Ho & Ht & Hl & Ha & Hi).
  pose proof (setDBName_unchanged st Hn) as En.
  pose proof (setDBOwner_unchanged c st Ho) as Eo.
  pose proof (setDBTablespace_unchanged st Ht) as Et.
  pose proof (setDBConnLimit_unchanged st Hl) as El.
  pose proof (setDBAllowConns_unchanged c st Ha) as Ea.
  pose proof (setDBIsTemplate_unchanged c st Hi) as Ei.
  assert (E : Update c st = ReadImpl c st).
  { unfold resourcePostgreSQLDatabaseUpdate, settersBeforeAllowConns.
    now rewrite !check_skip. }
  repeat (split; [assumption|]).
  rewrite E. apply ReadImpl_emits_queries.
Qed.

(* --------------------------------------------------------------------- *)
(** *** What each function calls, and that the setters keep the attributes *)

Lemma grant_emits o u :
  emitsOnly (fun e => execSite e = Some SGrant) (grantRoleMembership S o u).
Proof. unfold grantRoleMembership. repeat emits_step; reflexivity. Qed.

Lemma revoke_emits o u :
  emitsOnly (fun e => execSite e = Some SRevoke) (revokeRoleMembership S o u).
Proof. unfold revokeRoleMembership. repeat emits_step; reflexivity. Qed.

Lemma deferredRevoke_emits c :
  emitsOnly (fun e => execSite e = Some SRevoke) (deferredRevoke S c).
Proof.
  unfold deferredRevoke. repeat emits_step. apply revoke_emits.
Qed.

Lemma setDBName_emits :
  emitsOnly (fun e => execSite e = Some SRename) (setDBName S).
Proof. unfold setDBName, GetChange. repeat emits_step; reflexivity. Qed.

Lemma setDBTablespace_emits :
  emitsOnly (fun e => execSite e = Some STablespace) (setDBTablespace S).
Proof. unfold setDBTablespace. repeat emits_step; reflexivity. Qed.

Lemma setDBConnLimit_emits :
  emitsOnly (fun e => execSite e = Some SConnLimit) (setDBConnLimit S).
Proof. unfold setDBConnLimit. repeat emits_step; reflexivity. Qed.

Lemma setDBAllowConns_emits c :
  emitsOnly (fun e => execSite e = Some SAllowConns) (setDBAllowConns S c).
Proof. unfold setDBAllowConns. repeat emits_step; reflexivity. Qed.

Lemma doSetDBIsTemplate_emits c n b :
  emitsOnly (fun e => execSite e = Some SIsTemplate) (doSetDBIsTemplate S c n b).
Proof. unfold doSetDBIsTemplate. repeat emits_step; reflexivity. Qed.

Lemma setDBIsTemplate_emits c :
  emitsOnly (fun e => execSite e = Some SIsTemplate) (setDBIsTemplate S c).
Proof.
  unfold setDBIsTemplate. repeat emits_step. apply doSetDBIsTemplate_emits.
Qed.

Lemma grant_keeps o u : keepsAttrs (grantRoleMembership S o u).
Proof. unfold grantRoleMembership. repeat keeps_step. Qed.

Lemma revoke_keeps o u : keepsAttrs (revokeRoleMembership S o u).
Proof. unfold revokeRoleMembership. repeat keeps_step. Qed.

Lemma deferredRevoke_keeps c : keepsAttrs (deferredRevoke S c).
Proof. unfold deferredRevoke. repeat keeps_step. apply revoke_keeps. Qed.

Lemma setDBName_keeps : keepsAttrs (setDBName S).
Proof. unfold setDBName, GetChange. repeat keeps_step. Qed.

Lemma setDBOwner_keeps c : keepsAttrs (setDBOwner S c).
Proof.
  unfold setDBOwner. repeat keeps_step;
    first [apply grant_keeps | apply deferredRevoke_keeps].
Qed.

Lemma setDBTablespace_keeps : keepsAttrs (setDBTablespace S).
Proof. unfold setDBTablespace. repeat keeps_step. Qed.

Lemma setDBConnLimit_keeps : keepsAttrs (setDBConnLimit S).
Proof. unfold setDBConnLimit. repeat keeps_step. Qed.

Lemma setDBAllowConns_keeps c : keepsAttrs (setDBAllowConns S c).
Proof. unfold setDBAllowConns. repeat keeps_step. Qed.

Lemma doSetDBIsTemplate_keeps c n b : keepsAttrs (doSetDBIsTemplate S c n b).
Proof. unfold doSetDBIsTemplate. repeat keeps_step. Qed.

Lemma setDBIsTemplate_keeps c : keepsAttrs (setDBIsTemplate S c).
Proof.
  unfold setDBIsTemplate. repeat keeps_step. apply doSetDBIsTemplate_keeps.
Qed.

(* --------------------------------------------------------------------- *)
(** *** Rename before ownership *)

Lemma ownerStatementFor_stable : attrStable ownerStatementFor.
Proof.
  intros d d' (_ & _ & Hset) e H Hsite. unfold Get in *. rewrite Hset. now apply H.
Qed.

Lemma ownerStatementFor_query d e : isQuery e -> ownerStatementFor d e.
Proof. destruct e; unfold isQuery, ownerStatementFor; simpl; congruence. Qed.

Lemma setDBOwner_emitsFor c : emitsFor ownerStatementFor (setDBOwner S c).
Proof.
  intros st. unfold setDBOwner.
  rewrite bind_run. unfold getData. projections.
  destruct (negb (HasChange_string dbOwnerAttr (rd st))); [constructor|].
  destruct (Get dbOwnerAttr (rd st) =? "")%string; [constructor|].
  set (grant := grantRoleMembership S _ _).
  assert (Hgrant : Forall (ownerStatementFor (rd st)) (events (grant st))).
  { eapply Forall_impl; [| apply grant_emits]. intros e He Hs. congruence. }
  match goal with
  | |- Forall _ (events (check ?m ?wr ?k ?s)) =>
      destruct (check_cases _ m wr k s)
        as [(e & _ & ->) | (_ & ->)]
  end; projections; [exact Hgrant|].
  apply Forall_app; split; [exact Hgrant|].
  rewrite defer_run. projections.
  apply Forall_app; split.
  - rewrite bind_run. unfold getData. projections.
    rewrite bind_run, Exec_run. projections.
    constructor.
    + intros _. cbn [ev_sql]. f_equal.
      destruct (grant_keeps (Get dbOwnerAttr (rd st)) (config_Username c) st)
        as (_ & _ & Hset).
      unfold Get. fold grant in Hset. now rewrite Hset.
    + match goal with
      | |- Forall _ (events (match ?x with _ => _ end _)) => destruct x
      end; constructor.
  - eapply Forall_impl; [| apply deferredRevoke_emits]. intros e He Hs. congruence.
Qed.

Lemma update_emits_owner_statement c : emitsFor ownerStatementFor (Update c).
Proof.
  unfold resourcePostgreSQLDatabaseUpdate, settersBeforeAllowConns.
  pose proof ownerStatementFor_stable as HS.
  repeat apply emitsFor_check; auto using setDBName_keeps, setDBOwner_keeps,
    setDBTablespace_keeps, setDBConnLimit_keeps, setDBAllowConns_keeps,
    setDBIsTemplate_keeps, setDBOwner_emitsFor.
  - eapply emitsFor_of_emitsOnly; [| apply setDBName_emits].
    intros d e He Hs; congruence.
  - eapply emitsFor_of_emitsOnly; [| apply setDBTablespace_emits].
    intros d e He Hs; congruence.
  - eapply emitsFor_of_emitsOnly; [| apply setDBConnLimit_emits].
    intros d e He Hs; congruence.
  - eapply emitsFor_of_emitsOnly; [| apply setDBAllowConns_emits].
    intros d e He Hs; congruence.
  - eapply emitsFor_of_emitsOnly; [| apply setDBIsTemplate_emits].
    intros d e He Hs; congruence.
  - eapply emitsFor_of_emitsOnly; [| apply ReadImpl_emits_queries].
    intros d e. apply ownerStatementFor_query.
Qed.

(** What [setDBName] does when the name has changed. *)
Lemma setDBName_changed (st : St S) :
  HasChange_string dbNameAttr (rd st) = true ->
  let o := dbNameAttr (rd_state (rd st)) in
  let n := dbNameAttr (rd_diff (rd st)) in
  let x := db_exec S (world st) (renameSQL o n) [] in
  setDBName S st =
    if (n =? "")%string then
      (Some (errors_New "Error setting database name to an empty string"), st, [])
    else
      match snd x with
      | Some msg =>
          (Some (errwrap_Wrapf "Error updating database name: {{err}}" []
                   (DriverError msg)),
           mkSt (fst x) (rd st),
           [EvExec SRename (renameSQL o n) [] (Some msg)])
      | None =>
          (None, mkSt (fst x) (SetId n (rd st)),
           [EvExec SRename (renameSQL o n) [] None])
      end.
Proof.
  intros H o n x. unfold setDBName.
  rewrite bind_run. unfold getData. projections. rewrite H. cbn [negb GetChange].
  fold o n. destruct (n =? "")%string; [reflexivity|].
  rewrite bind_run, Exec_run. projections. fold x.
  destruct (snd x); reflexivity.
Qed.

(* --------------------------------------------------------------------- *)
(** *** Delete of a template database *)

Lemma doSetDBIsTemplate_supported c n b (st : St S) :
  featureSupported c featureDBIsTemplate = true ->
  let x := db_exec S (world st) (isTemplateSQL n) [VBool b] in
  doSetDBIsTemplate S c n b st =
    (match snd x with
     | Some msg => Some (wrapIsTemplate (DriverError msg))
     | None => None
     end,
     mkSt (fst x) (rd st),
     [EvExec SIsTemplate (isTemplateSQL n) [VBool b] (snd x)]).
Proof.
  intros H x. unfold doSetDBIsTemplate. rewrite H. cbn [negb].
  rewrite bind_run, Exec_run. projections. fold x.
  destruct (snd x); reflexivity.
Qed.

(** C6.  On a server that has IS_TEMPLATE, Delete of a database whose
    is-template flag is true in the prior state makes, as its first
    call, the statement that sets IS_TEMPLATE to false, whatever value
    is planned for the flag.  If the store refuses that statement it is
    the only call; if not, the DROP DATABASE follows it and nothing
    else is called.  Delete returns [nil] exactly when the store
    accepted both. *)
Theorem delete_clears_template_before_drop
  (c : Client) (id : string) (old new : Attrs) (w : World S) :
  featureSupported c featureDBIsTemplate = true ->
  dbIsTemplateAttr old = true ->
  let run := Delete c (mkSt w (resourceData id old new)) in
  let clearText :=
    "ALTER DATABASE " ++ QuoteIdentifier (dbNameAttr new) ++ " IS_TEMPLATE $1" in
  let dropText := "DROP DATABASE " ++ QuoteIdentifier (dbNameAttr new) in
  let cleared := db_exec S w clearText [VBool false] in
  let dropped := db_exec S (fst cleared) dropText [] in
  events run =
    EvExec SIsTemplate clearText [VBool false] (snd cleared)
      :: match snd cleared with
         | Some _ => []
         | None => [EvExec SDrop dropText [] (snd dropped)]
         end /\
  (result run = None <-> snd cleared = None /\ snd dropped = None).
Proof.
  clear pqQuoteLiteral.
  intros Hfeat Hold run clearText dropText cleared dropped. subst run.
  set (st := mkSt w (resourceData id old new)).
  pose proof (doSetDBIsTemplate_supported c (dbNameAttr new) false st Hfeat)
    as Hclear.
  cbn zeta in Hclear.
  change (isTemplateSQL (dbNameAttr new)) with clearText in Hclear.
  change (db_exec S (world st) clearText [VBool false]) with cleared in Hclear.
  assert (Hdrop : forall d : ResourceData,
    bind (Exec S SDrop dropText [])
      (fun err =>
         match err with
         | Some msg =>
             ret (Some (errwrap_Wrapf "Error dropping database: {{err}}" []
                          (DriverError msg)))
         | None => bind (update S (SetId "")) (fun _ => ret None)
         end) (mkSt (fst cleared) d) =
    (match snd dropped with
     | Some msg =>
         Some (errwrap_Wrapf "Error dropping database: {{err}}" [] (DriverError msg))
     | None => None
     end,
     mkSt (fst dropped) (match snd dropped with Some _ => d | None => SetId "" d end),
     [EvExec SDrop dropText [] (snd dropped)])).
  { intros d. rewrite bind_run, Exec_run. projections. fold dropped.
    destruct (snd dropped); reflexivity. }
  unfold resourcePostgreSQLDatabaseDelete.
  rewrite bind_run. unfold getData. projections. rewrite Hfeat.
  change (Get dbIsTemplateAttr (rd st)) with (dbIsTemplateAttr new).
  change (Get dbNameAttr (rd st)) with (dbNameAttr new).
  change (dropSQL (dbNameAttr new)) with dropText.
  destruct (dbIsTemplateAttr new) eqn:Hnew.
  - (* the flag is planned to stay: Delete clears it itself *)
    rewrite (check_run _ _ _ _ _ _ _ _ Hclear).
    destruct (snd cleared) as [msg|]; projections.
    { split; [reflexivity|]. split; [discriminate | intros [H _]; discriminate H]. }
    rewrite check_skip.
    2:{ apply setDBIsTemplate_unchanged. unfold HasChange_bool. simpl.
        now rewrite Hold, Hnew. }
    rewrite (Hdrop (rd st)). projections.
    split; [reflexivity|].
    destruct (snd dropped); split; intuition discriminate.
  - (* the flag is planned to be cleared: [setDBIsTemplate] clears it *)
    rewrite check_skip by reflexivity.
    assert (Hset : setDBIsTemplate S c st =
      (match snd cleared with
       | Some msg => Some (wrapIsTemplate (wrapIsTemplate (DriverError msg)))
       | None => None
       end,
       mkSt (fst cleared) (rd st),
       [EvExec SIsTemplate clearText [VBool false] (snd cleared)])).
    { unfold setDBIsTemplate. rewrite bind_run. unfold getData. projections.
      assert (Hch : HasChange_bool dbIsTemplateAttr (rd st) = true).
      { unfold HasChange_bool. simpl. now rewrite Hold, Hnew. }
      rewrite Hch. cbn [negb].
      change (Get dbIsTemplateAttr (rd st)) with (dbIsTemplateAttr new).
      change (Get dbNameAttr (rd st)) with (dbNameAttr new).
      rewrite Hnew, (check_run _ _ _ _ _ _ _ _ Hclear).
      destruct (snd cleared); [reflexivity|].
      unfold ret. projections. reflexivity. }
    rewrite (check_run _ _ _ _ _ _ _ _ Hset).
    destruct (snd cleared) as [msg|]; projections.
    { split; [reflexivity|]. split; [discriminate | intros [H _]; discriminate H]. }
    rewrite (Hdrop (rd st)). projections.
    split; [reflexivity|].
    destruct (snd dropped); split; intuition discriminate.
Qed.

(* --------------------------------------------------------------------- *)
(** *** The connection limit *)

Lemma setDBOwner_emits c :
  emitsOnly (fun e => execSite e = Some SGrant \/ execSite e = Some SOwner \/
                      execSite e = Some SRevoke) (setDBOwner S c).
Proof.
  unfold setDBOwner. repeat emits_step; auto.
  - eapply emitsOnly_weaken; [| apply grant_emits]. auto.
  - eapply emitsOnly_weaken; [| apply deferredRevoke_emits]. auto.
Qed.

Lemma connLimitStatementFor_stable : attrStable connLimitStatementFor.
Proof.
  intros d d' (_ & _ & Hset) e H Hsite. unfold Get in *. rewrite Hset. now apply H.
Qed.

Lemma setDBConnLimit_changed (st : St S) :
  HasChange_int dbConnLimitAttr (rd st) = true ->
  let sql := connLimitSQL (Get dbNameAttr (rd st)) in
  let args := [VInt (Get dbConnLimitAttr (rd st))] in
  events (setDBConnLimit S st) =
    [EvExec SConnLimit sql args (snd (db_exec S (world st) sql args))].
Proof.
  intros H sql args. unfold setDBConnLimit.
  rewrite bind_run. unfold getData. projections. rewrite H. cbn [negb].
  rewrite bind_run, Exec_run. projections. fold sql args.
  destruct (snd (db_exec S (world st) sql args)); reflexivity.
Qed.

Lemma setDBConnLimit_emitsFor : emitsFor connLimitStatementFor (setDBConnLimit S).
Proof.
  intros st.
  destruct (HasChange_int dbConnLimitAttr (rd st)) eqn:H.
  - rewrite setDBConnLimit_changed by assumption.
    repeat constructor.
  - rewrite setDBConnLimit_unchanged by assumption. constructor.
Qed.

Lemma update_emits_connLimit_statement c : emitsFor connLimitStatementFor (Update c).
Proof.
  unfold resourcePostgreSQLDatabaseUpdate, settersBeforeAllowConns.
  pose proof connLimitStatementFor_stable as HS.
  repeat apply emitsFor_check; auto using setDBName_keeps, setDBOwner_keeps,
    setDBTablespace_keeps, setDBConnLimit_keeps, setDBAllowConns_keeps,
    setDBIsTemplate_keeps, setDBConnLimit_emitsFor.
  - eapply emitsFor_of_emitsOnly; [| apply setDBName_emits].
    intros d e He Hs; congruence.
  - eapply emitsFor_of_emitsOnly; [| apply setDBOwner_emits].
    intros d e [He | [He | He]] Hs; congruence.
  - eapply emitsFor_of_emitsOnly; [| apply setDBTablespace_emits].
    intros d e He Hs; congruence.
  - eapply emitsFor_of_emitsOnly; [| apply setDBAllowConns_emits].
    intros d e He Hs; congruence.
  - eapply emitsFor_of_emitsOnly; [| apply setDBIsTemplate_emits].
    intros d e He Hs; congruence.
  - eapply emitsFor_of_emitsOnly; [| apply ReadImpl_emits_queries].
    intros d e He Hs. destruct e; [discriminate He | discriminate Hs].
Qed.

Lemma create_emits_create_statement c (st : St S) :
  Forall (fun e => execSite e = Some SCreate ->
                   ev_sql e = createSQL pqQuoteLiteral c (rd st) /\ ev_args e = [])
         (events (Create c st)).
Proof.
  unfold resourcePostgreSQLDatabaseCreate.
  rewrite bind_run. unfold getData. projections.
  match goal with |- Forall ?P (events (?m st)) => enough (H : emitsOnly P m) by apply H end.
  repeat emits_step; auto.
  - eapply emitsOnly_weaken; [| apply grant_emits]. intros e He Hs; congruence.
  - eapply emitsOnly_weaken; [| apply deferredRevoke_emits]. intros e He Hs; congruence.
  - eapply emitsOnly_weaken; [| apply ReadImpl_emits_queries].
    intros e He Hs. destruct e; [discriminate He | discriminate Hs].
Qed.

(* --------------------------------------------------------------------- *)
(** *** Attributes gated by a feature of the server *)

Lemma check_result (m : M S (option error)) wrap k (st : St S) :
  result (check m wrap k st) =
    match result (m st) with
    | Some e => Some (wrap e)
    | None => result (k (final (m st)))
    end.
Proof.
  destruct (check_cases _ m wrap k st) as [(e & -> & ->) | (-> & ->)]; reflexivity.
Qed.

Lemma check_final (m : M S (option error)) wrap k (st : St S) :
  final (check m wrap k st) =
    match result (m st) with
    | Some e => final (m st)
    | None => final (k (final (m st)))
    end.
Proof.
  destruct (check_cases _ m wrap k st) as [(e & -> & ->) | (-> & ->)]; reflexivity.
Qed.

Lemma settersBeforeAllowConns_keeps c :
  keepsAttrs (settersBeforeAllowConns S c (ret None)).
Proof.
  unfold settersBeforeAllowConns.
  repeat keeps_step;
    auto using setDBName_keeps, setDBOwner_keeps, setDBTablespace_keeps,
      setDBConnLimit_keeps.
Qed.

(** Update runs its continuation [k] from the state the first four
    setters leave, if none of them fails, and returns the error of the
    first that fails otherwise. *)
Lemma settersBeforeAllowConns_result c k (st : St S) :
  result (settersBeforeAllowConns S c k st) =
    match result (settersBeforeAllowConns S c (ret None) st) with
    | Some e => Some e
    | None => result (k (final (settersBeforeAllowConns S c (ret None) st)))
    end.
Proof.
  unfold settersBeforeAllowConns.
  rewrite !(check_result (setDBName S)), !(check_final (setDBName S)).
  destruct (result (setDBName S st)); [reflexivity|].
  set (st1 := final (setDBName S st)).
  rewrite !(check_result (setDBOwner S c)), !(check_final (setDBOwner S c)).
  destruct (result (setDBOwner S c st1)); [reflexivity|].
  set (st2 := final (setDBOwner S c st1)).
  rewrite !(check_result (setDBTablespace S)), !(check_final (setDBTablespace S)).
  destruct (result (setDBTablespace S st2)); [reflexivity|].
  set (st3 := final (setDBTablespace S st2)).
  rewrite !(check_result (setDBConnLimit S)), !(check_final (setDBConnLimit S)).
  destruct (result (setDBConnLimit S st3)); reflexivity.
Qed.

Lemma HasChange_bool_sameAttrs attr d d' :
  sameAttrs d d' -> HasChange_bool attr d' = HasChange_bool attr d.
Proof. intros (H1 & H2 & _). unfold HasChange_bool. now rewrite H1, H2. Qed.

Lemma setDBAllowConns_unsupported c (st : St S) :
  featureSupported c featureDBAllowConnections = false ->
  HasChange_bool dbAllowConnsAttr (rd st) = true ->
  setDBAllowConns S c st = (Some (unsupportedAllowConns c), st, []).
Proof.
  intros Hf Hc. unfold setDBAllowConns.
  rewrite bind_run. unfold getData. projections. rewrite Hc, Hf. reflexivity.
Qed.

Lemma doSetDBIsTemplate_unsupported c n b (st : St S) :
  featureSupported c featureDBIsTemplate = false ->
  doSetDBIsTemplate S c n b st = (Some (unsupportedIsTemplate c), st, []).
Proof. intros Hf. unfold doSetDBIsTemplate. now rewrite Hf. Qed.

Lemma setDBIsTemplate_unsupported c (st : St S) :
  featureSupported c featureDBIsTemplate = false ->
  HasChange_bool dbIsTemplateAttr (rd st) = true ->
  setDBIsTemplate S c st =
    (Some (wrapIsTemplate (unsupportedIsTemplate c)), st, []).
Proof.
  intros Hf Hc. unfold setDBIsTemplate.
  rewrite bind_run. unfold getData. projections. rewrite Hc. cbn [negb].
  rewrite check_run_err with (e := unsupportedIsTemplate c)
    by now rewrite doSetDBIsTemplate_unsupported.
  now rewrite doSetDBIsTemplate_unsupported.
Qed.

Lemma setDBAllowConns_silent c :
  featureSupported c featureDBAllowConnections = false ->
  emitsOnly (fun _ => False) (setDBAllowConns S c).
Proof.
  intros Hf st.
  destruct (HasChange_bool dbAllowConnsAttr (rd st)) eqn:Hc.
  - rewrite setDBAllowConns_unsupported by assumption. constructor.
  - rewrite setDBAllowConns_unchanged by assumption. constructor.
Qed.

Lemma setDBIsTemplate_silent c :
  featureSupported c featureDBIsTemplate = false ->
  emitsOnly (fun _ => False) (setDBIsTemplate S c).
Proof.
  intros Hf st.
  destruct (HasChange_bool dbIsTemplateAttr (rd st)) eqn:Hc.
  - rewrite setDBIsTemplate_unsupported by assumption. constructor.
  - rewrite setDBIsTemplate_unchanged by assumption. constructor.
Qed.

Lemma create_sites c :
  emitsOnly (fun e => execSite e = None \/ execSite e = Some SGrant \/
                      execSite e = Some SCreate \/ execSite e = Some SRevoke)
            (Create c).
Proof.
  unfold resourcePostgreSQLDatabaseCreate. repeat emits_step; auto.
  - eapply emitsOnly_weaken; [| apply grant_emits]. auto.
  - eapply emitsOnly_weaken; [| apply deferredRevoke_emits]. auto.
  - eapply emitsOnly_weaken; [| apply ReadImpl_emits_queries].
    intros [] He; [discriminate He | now left].
Qed.

Lemma update_sites (P : Event -> Prop) c :
  (forall e, isQuery e -> P e) ->
  (forall e s, execSite e = Some s ->
     s = SRename \/ s = SGrant \/ s = SOwner \/ s = SRevoke \/
     s = STablespace \/ s = SConnLimit -> P e) ->
  emitsOnly P (setDBAllowConns S c) ->
  emitsOnly P (setDBIsTemplate S c) ->
  emitsOnly P (Update c).
Proof.
  intros Hq Hs Ha Hi.
  unfold resourcePostgreSQLDatabaseUpdate, settersBeforeAllowConns.
  repeat emits_step; try assumption.
  - eapply emitsOnly_weaken; [| apply setDBName_emits].
    intros e He. eapply Hs; [exact He | auto 10].
  - eapply emitsOnly_weaken; [| apply setDBOwner_emits].
    intros e [He | [He | He]]; (eapply Hs; [exact He | auto 10]).
  - eapply emitsOnly_weaken; [| apply setDBTablespace_emits].
    intros e He. eapply Hs; [exact He | auto 10].
  - eapply emitsOnly_weaken; [| apply setDBConnLimit_emits].
    intros e He. eapply Hs; [exact He | auto 10].
  - eapply emitsOnly_weaken; [| apply ReadImpl_emits_queries]. exact Hq.
Qed.

Lemma notSite_query s e : isQuery e -> notSite s e.
Proof. destruct e; unfold isQuery, notSite; simpl; congruence. Qed.

Lemma update_without_allowConns c :
  featureSupported c featureDBAllowConnections = false ->
  emitsOnly (notSite SAllowConns) (Update c).
Proof.
  intros Hf. apply update_sites.
  - apply notSite_query.
  - intros e s He Hs. unfold notSite. rewrite He.
    intuition (subst; discriminate).
  - eapply emitsOnly_weaken; [| apply setDBAllowConns_silent, Hf]. intros e [].
  - eapply emitsOnly_weaken; [| apply setDBIsTemplate_emits].
    intros e He. unfold notSite. congruence.
Qed.

Lemma update_without_isTemplate c :
  featureSupported c featureDBIsTemplate = false ->
  emitsOnly (notSite SIsTemplate) (Update c).
Proof.
  intros Hf. apply update_sites.
  - apply notSite_query.
  - intros e s He Hs. unfold notSite. rewrite He.
    intuition (subst; discriminate).
  - eapply emitsOnly_weaken; [| apply setDBAllowConns_emits].
    intros e He. unfold notSite. congruence.
  - eapply emitsOnly_weaken; [| apply setDBIsTemplate_silent, Hf]. intros e [].
Qed.

Lemma update_fails_without_allowConns c (st : St S) :
  featureSupported c featureDBAllowConnections = false ->
  HasChange_bool dbAllowConnsAttr (rd st) = true ->
  (exists e, result (Update c st) = Some e) /\
  (result (settersBeforeAllowConns S c (ret None) st) = None ->
   result (Update c st) = Some (unsupportedAllowConns c)).
Proof.
  intros Hf Hc. unfold resourcePostgreSQLDatabaseUpdate.
  rewrite settersBeforeAllowConns_result.
  set (p := settersBeforeAllowConns S c (ret None) st).
  assert (E : result (check (setDBAllowConns S c) same
                        (check (setDBIsTemplate S c) same (ReadImpl c)) (final p))
              = Some (unsupportedAllowConns c)).
  { rewrite check_result, setDBAllowConns_unsupported; [reflexivity | exact Hf |].
    rewrite (HasChange_bool_sameAttrs _ (rd st)); [exact Hc|].
    apply settersBeforeAllowConns_keeps. }
  rewrite E. split.
  - destruct (result p); eauto.
  - intros ->. reflexivity.
Qed.

Lemma update_fails_without_isTemplate c (st : St S) :
  featureSupported c featureDBIsTemplate = false ->
  HasChange_bool dbIsTemplateAttr (rd st) = true ->
  (exists e, result (Update c st) = Some e) /\
  (result (settersBeforeAllowConns S c
             (check (setDBAllowConns S c) same (ret None)) st) = None ->
   result (Update c st) = Some (wrapIsTemplate (unsupportedIsTemplate c))).
Proof.
  intros Hf Hc. unfold resourcePostgreSQLDatabaseUpdate.
  rewrite (settersBeforeAllowConns_result c
             (check (setDBAllowConns S c) same
                (check (setDBIsTemplate S c) same (ReadImpl c)))),
          (settersBeforeAllowConns_result c
             (check (setDBAllowConns S c) same (ret None))).
  set (p := settersBeforeAllowConns S c (ret None) st).
  destruct (result p) as [e|] eqn:Ep; [split; [eauto | discriminate]|].
  rewrite !(check_result (setDBAllowConns S c)).
  destruct (result (setDBAllowConns S c (final p))) as [e|] eqn:Ea;
    [split; [eauto | discriminate]|].
  set (st5 := final (setDBAllowConns S c (final p))).
  assert (Hc5 : HasChange_bool dbIsTemplateAttr (rd st5) = true).
  { rewrite (HasChange_bool_sameAttrs _ (rd st)); [exact Hc|].
    eapply sameAttrs_trans; [apply settersBeforeAllowConns_keeps|].
    apply setDBAllowConns_keeps. }
  rewrite check_result, (setDBIsTemplate_unsupported c st5 Hf Hc5).
  split; [eexists; reflexivity | intros _; reflexivity].
Qed.

(* --------------------------------------------------------------------- *)
(** *** The errors Create returns *)

Lemma failsOnly_ret_None Q : failsOnly (S:=S) Q (ret None).
Proof. intros st e H. discriminate H. Qed.

Lemma failsOnly_ret_Some (Q : error -> Prop) e :
  Q e -> failsOnly (S:=S) Q (ret (Some e)).
Proof. intros H st e' [= <-]. exact H. Qed.

Lemma failsOnly_bind {A} Q (m : M S A) (k : A -> M S (option error)) :
  (forall a, failsOnly Q (k a)) -> failsOnly Q (bind m k).
Proof. intros Hk st e. rewrite bind_run. projections. apply Hk. Qed.

Lemma failsOnly_check (Q Q' : error -> Prop) (m : M S (option error)) wrap k :
  failsOnly Q' m -> (forall e, Q' e -> Q (wrap e)) -> failsOnly Q k ->
  failsOnly Q (check m wrap k).
Proof.
  intros Hm Hw Hk st e. rewrite check_result.
  destruct (result (m st)) as [e'|] eqn:E.
  - intros [= <-]. eapply Hw, Hm, E.
  - apply Hk.
Qed.

Lemma failsOnly_defer Q (cleanup : M S unit) (body : M S (option error)) :
  failsOnly Q body -> failsOnly Q (defer cleanup body).
Proof. intros Hb st e. rewrite defer_run. projections. apply Hb. Qed.

Lemma scanError_supported r : isUnsupportedFeature (scanError r) = false.
Proof. destruct r; reflexivity. Qed.

Lemma scan_string_string_inl r e :
  scan_string_string r = inl e -> isUnsupportedFeature e = false.
Proof.
  destruct r as [| msg | [| [] [| [] [| ? ?]]]]; simpl; intros [= <-]; reflexivity.
Qed.

Lemma scan_core_inl r e :
  scan_core r = inl e -> isUnsupportedFeature e = false.
Proof.
  destruct r as [| msg | [| [] [| [] [| [] [| [] [| [] [| ? ?]]]]]]];
    simpl; intros [= <-]; reflexivity.
Qed.

Lemma scan_bool_inl r e :
  scan_bool r = inl e -> isUnsupportedFeature e = false.
Proof.
  destruct r as [| msg | [| [] [| ? ?]]]; simpl; intros [= <-]; reflexivity.
Qed.

Ltac fails_step :=
  match goal with
  | |- failsOnly _ (ret None) => apply failsOnly_ret_None
  | |- failsOnly _ (ret (Some _)) => apply failsOnly_ret_Some
  | |- failsOnly _ (bind _ _) => apply failsOnly_bind; intro
  | |- failsOnly _ (defer _ _) => apply failsOnly_defer
  | |- failsOnly _ (if ?b then _ else _) => destruct b
  | |- failsOnly _ (match ?x with _ => _ end) => destruct x eqn:?
  end.

Lemma grant_fails_supported o u :
  failsOnly (fun e => isUnsupportedFeature e = false) (grantRoleMembership S o u).
Proof. unfold grantRoleMembership. repeat fails_step; reflexivity. Qed.

Lemma readAllowConns_fails_supported c dbId :
  failsOnly (fun e => isUnsupportedFeature e = false) (readAllowConns S c dbId).
Proof.
  unfold readAllowConns. repeat fails_step.
  simpl. eapply scan_bool_inl; eassumption.
Qed.

Lemma readIsTemplate_fails_supported c dbId :
  failsOnly (fun e => isUnsupportedFeature e = false) (readIsTemplate S c dbId).
Proof.
  unfold readIsTemplate. repeat fails_step.
  simpl. eapply scan_bool_inl; eassumption.
Qed.

Lemma ReadImpl_fails_supported c :
  failsOnly (fun e => isUnsupportedFeature e = false) (ReadImpl c).
Proof.
  unfold resourcePostgreSQLDatabaseReadImpl. repeat fails_step.
  - simpl. eapply scan_string_string_inl; eassumption.
  - simpl. eapply scan_core_inl; eassumption.
  - eapply failsOnly_check;
      [apply readAllowConns_fails_supported | auto |].
    eapply failsOnly_check;
      [apply readIsTemplate_fails_supported | auto |].
    apply failsOnly_ret_None.
Qed.

(** Create returns none of the unsupported-feature errors, on any store
    and with any capability set. *)
Lemma create_fails_supported c :
  failsOnly (fun e => isUnsupportedFeature e = false) (Create c).
Proof.
  unfold resourcePostgreSQLDatabaseCreate. repeat fails_step.
  eapply failsOnly_check; [apply grant_fails_supported | auto |].
  repeat fails_step.
  - reflexivity.
  - apply ReadImpl_fails_supported.
Qed.

(** C2, as the code has it.  On a server without ALLOW_CONNECTIONS:
    the CREATE DATABASE text has no clause for the attribute and does
    not depend on its value; Create and Update execute no ALTER ...
    ALLOW_CONNECTIONS; an Update in which the attribute has changed
    returns an error, which is the unsupported-feature error when the
    setters before it have not failed.  The same on a server without
    IS_TEMPLATE, where the unsupported-feature error comes wrapped.
    Create never returns an unsupported-feature error. *)
Theorem gated_attribute_without_feature (c : Client) (st : St S) :
  (featureSupported c featureDBAllowConnections = false ->
   allowConnsClause c (rd st) = "" /\
   (forall v, createSQL pqQuoteLiteral c (Set_dbAllowConnsAttr v (rd st))
              = createSQL pqQuoteLiteral c (rd st)) /\
   Forall (notSite SAllowConns) (events (Create c st)) /\
   Forall (notSite SAllowConns) (events (Update c st)) /\
   (HasChange_bool dbAllowConnsAttr (rd st) = true ->
    (exists e, result (Update c st) = Some e) /\
    (result (settersBeforeAllowConns S c (ret None) st) = None ->
     result (Update c st) = Some (unsupportedAllowConns c)))) /\
  (featureSupported c featureDBIsTemplate = false ->
   isTemplateClause c (rd st) = "" /\
   (forall v, createSQL pqQuoteLiteral c (Set_dbIsTemplateAttr v (rd st))
              = createSQL pqQuoteLiteral c (rd st)) /\
   Forall (notSite SIsTemplate) (events (Create c st)) /\
   Forall (notSite SIsTemplate) (events (Update c st)) /\
   (HasChange_bool dbIsTemplateAttr (rd st) = true ->
    (exists e, result (Update c st) = Some e) /\
    (result (settersBeforeAllowConns S c
               (check (setDBAllowConns S c) same (ret None)) st) = None ->
     result (Update c st) = Some (wrapIsTemplate (unsupportedIsTemplate c))))) /\
  (forall e, result (Create c st) = Some e -> isUnsupportedFeature e = false).
Proof.
  split; [| split]; [intros Hf | intros Hf | apply create_fails_supported].
  - split; [unfold allowConnsClause; now rewrite Hf|].
    split; [intros v; unfold createSQL, allowConnsClause; now rewrite Hf|].
    split.
    { eapply Forall_impl; [| apply create_sites].
      intros e He. cbv beta in He. unfold notSite. intuition congruence. }
    split; [now apply update_without_allowConns|].
    intros Hc. now apply update_fails_without_allowConns.
  - split; [unfold isTemplateClause; now rewrite Hf|].
    split; [intros v; unfold createSQL, isTemplateClause; now rewrite Hf|].
    split.
    { eapply Forall_impl; [| apply create_sites].
      intros e He. cbv beta in He. unfold notSite. intuition congruence. }
    split; [now apply update_without_isTemplate|].
    intros Hc. now apply update_fails_without_isTemplate.
Qed.

(* --------------------------------------------------------------------- *)
(** *** What the read-back writes *)

(** X18.  When the catalog queries return rows, the read-back copies
    their columns into [d]: the attributes then hold what the store
    answered; the template is not read from the catalog. *)
Lemma read_back_copies_catalog_rows (c : Client) (st : St S)
  (n o e co ct ts : string) (l : Z) (ac it : bool) :
  featureSupported c featureDBAllowConnections = true ->
  featureSupported c featureDBIsTemplate = true ->
  let q := [VString (rd_id (rd st))] in
  let x1 := db_queryRow S (world st) identitySQL q in
  let x2 := db_queryRow S (fst x1) (dbSQLFmt coreColumns) q in
  let x3 := db_queryRow S (fst x2) (dbSQLFmt "d.datallowconn") q in
  let x4 := db_queryRow S (fst x3) (dbSQLFmt "d.datistemplate") q in
  snd x1 = Row [VString n; VString o] ->
  snd x2 = Row [VString e; VString co; VString ct; VString ts; VInt l] ->
  snd x3 = Row [VBool ac] ->
  snd x4 = Row [VBool it] ->
  result (ReadImpl c st) = None /\
  rd_set (rd (final (ReadImpl c st))) =
    mkAttrs n o
      (if (Get dbTemplateAttr (rd st) =? "")%string then "template0"
       else Get dbTemplateAttr (rd st))
      e co ct ts l ac it.
Proof.
  intros Hf1 Hf2 q x1 x2 x3 x4 H1 H2 H3 H4.
  subst q x1 x2 x3 x4.
  unfold resourcePostgreSQLDatabaseReadImpl, readAllowConns, readIsTemplate,
    bind, check, bind, getData, update, ret, QueryRow, result, final.
  rewrite Hf1, Hf2. cbn [world rd].
  destruct (db_queryRow S (world st) identitySQL _) as [w1 r1].
  cbn [fst snd] in *. subst r1. cbn [scan_string_string world rd].
  destruct (db_queryRow S w1 (dbSQLFmt coreColumns) _) as [w2 r2].
  cbn [fst snd] in *. subst r2. cbn [scan_core world rd].
  destruct (db_queryRow S w2 (dbSQLFmt "d.datallowconn") _) as [w3 r3].
  cbn [fst snd] in *. subst r3. cbn [scan_bool world rd].
  destruct (db_queryRow S w3 (dbSQLFmt "d.datistemplate") _) as [w4 r4].
  cbn [fst snd] in *. subst r4. cbn [scan_bool world rd fst snd].
  split; reflexivity.
Qed.

(* --------------------------------------------------------------------- *)
(** *** The result of [setDBOwner] and the deferred revoke *)

(** On every store: when the grant and the ALTER ... OWNER TO succeed,
    [setDBOwner] returns [nil], whatever the deferred REVOKE answers. *)
Lemma setDBOwner_result_ignores_revoke (c : Client) (st : St S) :
  HasChange_string dbOwnerAttr (rd st) = true ->
  Get dbOwnerAttr (rd st) <> "" ->
  let granted := grantRoleMembership S (Get dbOwnerAttr (rd st)) (config_Username c) st in
  result granted = None ->
  snd (db_exec S (world (final granted))
         (ownerSQL (Get dbNameAttr (rd st)) (Get dbOwnerAttr (rd st))) []) = None ->
  result (setDBOwner S c st) = None.
Proof.
  intros Hch Hown granted Hgrant Hexec.
  unfold setDBOwner. rewrite bind_run. unfold getData. projections.
  rewrite Hch. cbn [negb].
  apply String.eqb_neq in Hown. rewrite Hown.
  fold granted. rewrite check_run_ok by exact Hgrant. projections.
  rewrite defer_run. projections.
  rewrite bind_run. projections.
  rewrite bind_run, Exec_run. projections.
  assert (Hname : Get dbNameAttr (rd (final granted)) = Get dbNameAttr (rd st)).
  { destruct (grant_keeps (Get dbOwnerAttr (rd st)) (config_Username c) st)
      as (_ & _ & Hset). fold granted in Hset. unfold Get. now rewrite Hset. }
  unfold granted in *. rewrite Hname, Hexec. reflexivity.
Qed.

End Claims.

(* ===================================================================== *)
(** ** Further properties: what a run does to [d], and in which order *)
(* ===================================================================== *)

Section Relating.

Variable S : Store.
Variable R : ResourceData -> ResourceData -> Prop.
Hypothesis R_refl : forall d, R d d.
Hypothesis R_trans : forall d1 d2 d3, R d1 d2 -> R d2 d3 -> R d1 d3.

Lemma relates_ret {A} (a : A) : relates (S:=S) R (ret a).
Proof. intros st. apply R_refl. Qed.

Lemma relates_bind {A B} (m : M S A) (k : A -> M S B) :
  relates R m -> (forall a, relates R (k a)) -> relates R (bind m k).
Proof.
  intros Hm Hk st. rewrite bind_run. projections.
  eapply R_trans; [apply Hm | apply Hk].
Qed.

Lemma relates_getData : relates R (getData S).
Proof. intros st. apply R_refl. Qed.

Lemma relates_Exec site sql args : relates R (Exec S site sql args).
Proof. intros st. rewrite Exec_run. apply R_refl. Qed.

Lemma relates_QueryRow site sql args : relates R (QueryRow S site sql args).
Proof. intros st. rewrite QueryRow_run. apply R_refl. Qed.

Lemma relates_update f : (forall d, R d (f d)) -> relates R (update S f).
Proof. intros H st. apply H. Qed.

Lemma relates_check (m : M S (option error)) wrap k :
  relates R m -> relates R k -> relates R (check m wrap k).
Proof.
  intros Hm Hk. unfold check. apply relates_bind; [assumption|].
  intros [e|]; [apply relates_ret | assumption].
Qed.

Lemma relates_defer {A} (cleanup : M S unit) (body : M S A) :
  relates R cleanup -> relates R body -> relates R (defer cleanup body).
Proof.
  intros Hc Hb. unfold defer. apply relates_bind; [assumption|].
  intros a. apply relates_bind; [assumption|]. intros _. apply relates_ret.
Qed.

End Relating.

(** One step of a proof of [relates R m]; [rf] and [tr] prove that [R]
    is reflexive and transitive. *)
Ltac relates_step rf tr :=
  match goal with
  | |- relates _ (ret _) => apply relates_ret; exact rf
  | |- relates _ (bind _ _) => apply relates_bind; [exact tr | | intro]
  | |- relates _ (check _ _ _) => apply relates_check; [exact rf | exact tr | |]
  | |- relates _ (defer _ _) => apply relates_defer; [exact rf | exact tr | |]
  | |- relates _ (getData _) => apply relates_getData; exact rf
  | |- relates _ (Exec _ _ _ _) => apply relates_Exec; exact rf
  | |- relates _ (QueryRow _ _ _ _) => apply relates_QueryRow; exact rf
  | |- relates _ (if ?b then _ else _) => destruct b
  | |- relates _ (match ?x with _ => _ end) => destruct x
  end.

Section Ordering.

Variable S : Store.

Lemma ascending_weaken lo lo' l :
  (lo <= lo')%nat -> ascending lo' l -> ascending lo l.
Proof.
  destruct l as [| e l]; simpl; [trivial|].
  intros H [H1 H2]. split; [lia | exact H2].
Qed.

Lemma within_nil lo hi : within lo hi [].
Proof. split; constructor. Qed.

Lemma within_weaken lo lo' hi hi' l :
  (lo' <= lo)%nat -> (hi <= hi')%nat -> within lo hi l -> within lo' hi' l.
Proof.
  intros H1 H2 [Ha Hb]. split.
  - eapply ascending_weaken; eassumption.
  - eapply Forall_impl; [| exact Hb]. simpl. intros e He. lia.
Qed.

Lemma within_app lo mid hi l1 l2 :
  (lo <= mid)%nat -> (mid <= hi)%nat ->
  within lo mid l1 -> within mid hi l2 -> within lo hi (l1 ++ l2).
Proof.
  revert lo. induction l1 as [| e l1 IH]; intros lo Hlo Hhi [Ha Hb] H2.
  - simpl. eapply within_weaken; [exact Hlo | apply Nat.le_refl | exact H2].
  - simpl in Ha. destruct Ha as [Ha1 Ha2].
    inversion Hb as [| ? ? Hb1 Hb2]; subst.
    destruct (IH (Datatypes.S (updateRank e))) as [Hc Hd];
      [lia | exact Hhi | split; assumption | exact H2 |].
    split.
    + simpl. split; assumption.
    + simpl. constructor; [lia | exact Hd].
Qed.

Lemma within_single r e : updateRank e = r -> within r (Datatypes.S r) [e].
Proof.
  intros <-. split; simpl.
  - split; [apply Nat.le_refl | exact I].
  - repeat constructor.
Qed.

Lemma emitsWithin_weaken {A} lo lo' hi hi' (m : M S A) :
  (lo' <= lo)%nat -> (hi <= hi')%nat ->
  emitsWithin lo hi m -> emitsWithin lo' hi' m.
Proof. intros H1 H2 H st. eapply within_weaken; [exact H1 | exact H2 | apply H]. Qed.

Lemma emitsWithin_ret {A} lo hi (a : A) : emitsWithin (S:=S) lo hi (ret a).
Proof. intros st. apply within_nil. Qed.

Lemma emitsWithin_bind {A B} lo mid hi (m : M S A) (k : A -> M S B) :
  (lo <= mid)%nat -> (mid <= hi)%nat ->
  emitsWithin lo mid m -> (forall a, emitsWithin mid hi (k a)) ->
  emitsWithin lo hi (bind m k).
Proof.
  intros H1 H2 Hm Hk st. rewrite bind_run. projections.
  eapply within_app; [exact H1 | exact H2 | apply Hm | apply Hk].
Qed.

Lemma emitsWithin_getData lo hi : emitsWithin lo hi (getData S).
Proof. intros st. apply within_nil. Qed.

Lemma emitsWithin_update lo hi f : emitsWithin lo hi (update S f).
Proof. intros st. apply within_nil. Qed.

Lemma emitsWithin_Exec r site sql args :
  (forall x, updateRank (EvExec site sql args x) = r) ->
  emitsWithin r (Datatypes.S r) (Exec S site sql args).
Proof. intros H st. rewrite Exec_run. projections. apply within_single, H. Qed.

Lemma emitsWithin_QueryRow r site sql args :
  (forall x, updateRank (EvQuery site sql args x) = r) ->
  emitsWithin r (Datatypes.S r) (QueryRow S site sql args).
Proof. intros H st. rewrite QueryRow_run. projections. apply within_single, H. Qed.

Lemma emitsWithin_check lo mid hi (m : M S (option error)) wrap k :
  (lo <= mid)%nat -> (mid <= hi)%nat ->
  emitsWithin lo mid m -> emitsWithin mid hi k ->
  emitsWithin lo hi (check m wrap k).
Proof.
  intros H1 H2 Hm Hk. unfold check.
  eapply emitsWithin_bind; [exact H1 | exact H2 | exact Hm |].
  intros [e|]; [apply emitsWithin_ret | exact Hk].
Qed.

Lemma emitsWithin_defer {A} lo mid hi (cleanup : M S unit) (body : M S A) :
  (lo <= mid)%nat -> (mid <= hi)%nat ->
  emitsWithin lo mid body -> emitsWithin mid hi cleanup ->
  emitsWithin lo hi (defer cleanup body).
Proof.
  intros H1 H2 Hb Hc. unfold defer.
  eapply emitsWithin_bind; [exact H1 | exact H2 | exact Hb |].
  intros a. eapply (emitsWithin_bind mid hi hi);
    [exact H2 | apply Nat.le_refl | exact Hc |].
  intros _. apply emitsWithin_ret.
Qed.

(** A computation that reads or writes [d] and then makes at most one
    call of rank [r]. *)
Lemma emitsWithin_bind_silent {A B} lo hi (m : M S A) (k : A -> M S B) :
  (forall st, events (m st) = []) ->
  (forall a, emitsWithin lo hi (k a)) ->
  emitsWithin lo hi (bind m k).
Proof.
  intros Hm Hk st. rewrite bind_run. projections. rewrite Hm. apply Hk.
Qed.

End Ordering.

(** One step of a proof of [emitsWithin lo hi m] for a computation that
    is not a [check] or a [defer]. *)
Ltac order_step :=
  match goal with
  | |- emitsWithin _ _ (ret _) => apply emitsWithin_ret
  | |- emitsWithin _ _ (bind (getData _) _) =>
      apply emitsWithin_bind_silent; [reflexivity | intro]
  | |- emitsWithin _ _ (bind (update _ _) _) =>
      apply emitsWithin_bind_silent; [reflexivity | intro]
  | |- emitsWithin ?lo ?hi (bind (Exec _ ?site _ _) _) =>
      let r := eval cbv in (updateRank (EvExec site EmptyString [] None)) in
      apply (emitsWithin_bind _ lo (Datatypes.S r) hi);
        [lia | lia
        | apply (emitsWithin_weaken _ r lo (Datatypes.S r) (Datatypes.S r));
            [lia | lia | apply emitsWithin_Exec; intro; reflexivity]
        | intro]
  | |- emitsWithin ?lo ?hi (bind (QueryRow _ ?site _ _) _) =>
      let r := eval cbv in (updateRank (EvQuery site EmptyString [] NoRows)) in
      apply (emitsWithin_bind _ lo (Datatypes.S r) hi);
        [lia | lia
        | apply (emitsWithin_weaken _ r lo (Datatypes.S r) (Datatypes.S r));
            [lia | lia | apply emitsWithin_QueryRow; intro; reflexivity]
        | intro]
  | |- emitsWithin _ _ (if ?b then _ else _) => destruct b
  | |- emitsWithin _ _ (match ?x with _ => _ end) => destruct x
  end.

Section Further.

Variable pqQuoteLiteral : string -> string.
Variable S : Store.

Local Abbreviation Create := (resourcePostgreSQLDatabaseCreate pqQuoteLiteral S).
Local Abbreviation ReadImpl := (resourcePostgreSQLDatabaseReadImpl S).
Local Abbreviation Read := (resourcePostgreSQLDatabaseRead S).
Local Abbreviation Update := (resourcePostgreSQLDatabaseUpdate S).
Local Abbreviation Delete := (resourcePostgreSQLDatabaseDelete S).
Local Abbreviation Exists := (resourcePostgreSQLDatabaseExists S).

(* --------------------------------------------------------------------- *)
(** *** The order of the calls of Update *)

Lemma grant_order o u : emitsWithin 1 2 (grantRoleMembership S o u).
Proof. unfold grantRoleMembership. repeat order_step. Qed.

Lemma revoke_order o u : emitsWithin 3 4 (revokeRoleMembership S o u).
Proof. unfold revokeRoleMembership. repeat order_step. Qed.

Lemma deferredRevoke_order c : emitsWithin 3 4 (deferredRevoke S c).
Proof.
  unfold deferredRevoke. order_step.
  apply (emitsWithin_bind _ 3 4 4); [lia | lia | apply revoke_order |].
  intros err. apply emitsWithin_ret.
Qed.

Lemma setDBName_order : emitsWithin 0 1 (setDBName S).
Proof. unfold setDBName, GetChange. repeat order_step. Qed.

Lemma setDBOwner_order c : emitsWithin 1 4 (setDBOwner S c).
Proof.
  unfold setDBOwner. repeat order_step.
  apply (emitsWithin_check _ 1 2 4); [lia | lia | apply grant_order |].
  apply (emitsWithin_defer _ 2 3 4); [lia | lia | | apply deferredRevoke_order].
  repeat order_step.
Qed.

Lemma setDBTablespace_order : emitsWithin 4 5 (setDBTablespace S).
Proof. unfold setDBTablespace. repeat order_step. Qed.

Lemma setDBConnLimit_order : emitsWithin 5 6 (setDBConnLimit S).
Proof. unfold setDBConnLimit. repeat order_step. Qed.

Lemma setDBAllowConns_order c : emitsWithin 6 7 (setDBAllowConns S c).
Proof. unfold setDBAllowConns. repeat order_step. Qed.

Lemma doSetDBIsTemplate_order c n b : emitsWithin 7 8 (doSetDBIsTemplate S c n b).
Proof. unfold doSetDBIsTemplate. repeat order_step. Qed.

Lemma setDBIsTemplate_order c : emitsWithin 7 8 (setDBIsTemplate S c).
Proof.
  unfold setDBIsTemplate. repeat order_step.
  apply (emitsWithin_check _ 7 8 8);
    [lia | lia | apply doSetDBIsTemplate_order | apply emitsWithin_ret].
Qed.

Lemma readAllowConns_order c i : emitsWithin 10 11 (readAllowConns S c i).
Proof. unfold readAllowConns. repeat order_step. Qed.

Lemma readIsTemplate_order c i : emitsWithin 11 12 (readIsTemplate S c i).
Proof. unfold readIsTemplate. repeat order_step. Qed.

Lemma ReadImpl_order c : emitsWithin 8 12 (ReadImpl c).
Proof.
  unfold resourcePostgreSQLDatabaseReadImpl. repeat order_step.
  apply (emitsWithin_check _ 10 11 12);
    [lia | lia | apply readAllowConns_order |].
  apply (emitsWithin_check _ 11 12 12);
    [lia | lia | apply readIsTemplate_order | apply emitsWithin_ret].
Qed.

(** X1.  The calls of an Update stand in the log in one fixed order:
    rename, grant, ownership change, revoke, tablespace, connection
    limit, allow-connections, is-template, then the four queries of the
    read-back; each occurs at most once, and Update never executes a
    CREATE DATABASE, a DROP DATABASE or the query of Exists. *)
Theorem update_calls_in_fixed_order (c : Client) (st : St S) :
  ascending 0 (events (Update c st)) /\
  Forall (fun e => (updateRank e < 12)%nat) (events (Update c st)).
Proof.
  revert st. change (emitsWithin 0 12 (Update c)).
  unfold resourcePostgreSQLDatabaseUpdate, settersBeforeAllowConns.
  apply (emitsWithin_check _ 0 1 12); [lia | lia | apply setDBName_order |].
  apply (emitsWithin_check _ 1 4 12); [lia | lia | apply setDBOwner_order |].
  apply (emitsWithin_check _ 4 5 12); [lia | lia | apply setDBTablespace_order |].
  apply (emitsWithin_check _ 5 6 12); [lia | lia | apply setDBConnLimit_order |].
  apply (emitsWithin_check _ 6 7 12); [lia | lia | apply setDBAllowConns_order |].
  apply (emitsWithin_check _ 7 8 12); [lia | lia | apply setDBIsTemplate_order |].
  apply ReadImpl_order.
Qed.

(* --------------------------------------------------------------------- *)
(** *** Which statements Update executes, and how they name the database *)

Lemma changedOnly_stable : attrStable changedOnly.
Proof.
  intros d d' (H1 & H2 & _) e.
  unfold changedOnly, HasChange_string, HasChange_int, HasChange_bool.
  now rewrite H1, H2.
Qed.

Lemma setDBName_changedOnly : emitsFor changedOnly (setDBName S).
Proof.
  intros st. destruct (HasChange_string dbNameAttr (rd st)) eqn:H.
  - eapply Forall_impl; [| apply setDBName_emits].
    intros e He. unfold changedOnly. now rewrite He.
  - rewrite setDBName_unchanged by assumption. constructor.
Qed.

Lemma setDBOwner_changedOnly c : emitsFor changedOnly (setDBOwner S c).
Proof.
  intros st. destruct (HasChange_string dbOwnerAttr (rd st)) eqn:H.
  - eapply Forall_impl; [| apply setDBOwner_emits].
    intros e He. cbv beta in He. unfold changedOnly.
    destruct He as [He | [He | He]]; now rewrite He.
  - rewrite setDBOwner_unchanged by assumption. constructor.
Qed.

Lemma setDBTablespace_changedOnly : emitsFor changedOnly (setDBTablespace S).
Proof.
  intros st. destruct (HasChange_string dbTablespaceAttr (rd st)) eqn:H.
  - eapply Forall_impl; [| apply setDBTablespace_emits].
    intros e He. unfold changedOnly. now rewrite He.
  - rewrite setDBTablespace_unchanged by assumption. constructor.
Qed.

Lemma setDBConnLimit_changedOnly : emitsFor changedOnly (setDBConnLimit S).
Proof.
  intros st. destruct (HasChange_int dbConnLimitAttr (rd st)) eqn:H.
  - eapply Forall_impl; [| apply setDBConnLimit_emits].
    intros e He. unfold changedOnly. now rewrite He.
  - rewrite setDBConnLimit_unchanged by assumption. constructor.
Qed.

Lemma setDBAllowConns_changedOnly c : emitsFor changedOnly (setDBAllowConns S c).
Proof.
  intros st. destruct (HasChange_bool dbAllowConnsAttr (rd st)) eqn:H.
  - eapply Forall_impl; [| apply setDBAllowConns_emits].
    intros e He. unfold changedOnly. now rewrite He.
  - rewrite setDBAllowConns_unchanged by assumption. constructor.
Qed.

Lemma setDBIsTemplate_changedOnly c : emitsFor changedOnly (setDBIsTemplate S c).
Proof.
  intros st. destruct (HasChange_bool dbIsTemplateAttr (rd st)) eqn:H.
  - eapply Forall_impl; [| apply setDBIsTemplate_emits].
    intros e He. unfold changedOnly. now rewrite He.
  - rewrite setDBIsTemplate_unchanged by assumption. constructor.
Qed.

(** X2.  Update executes a statement only for an attribute that has
    changed: a rename only if the name differs between the prior state
    and the plan, a grant, ownership change or revoke only if the owner
    differs, and so on for the tablespace, the connection limit and the
    two gated flags. *)
Theorem update_executes_only_for_changed_attributes (c : Client) (st : St S) :
  Forall (changedOnly (rd st)) (events (Update c st)).
Proof.
  revert st. change (emitsFor changedOnly (Update c)).
  unfold resourcePostgreSQLDatabaseUpdate, settersBeforeAllowConns.
  pose proof changedOnly_stable as HS.
  repeat apply emitsFor_check;
    auto using setDBName_keeps, setDBOwner_keeps, setDBTablespace_keeps,
      setDBConnLimit_keeps, setDBAllowConns_keeps, setDBIsTemplate_keeps,
      setDBName_changedOnly, setDBOwner_changedOnly, setDBTablespace_changedOnly,
      setDBConnLimit_changedOnly, setDBAllowConns_changedOnly,
      setDBIsTemplate_changedOnly.
  eapply emitsFor_of_emitsOnly; [| apply ReadImpl_emits_queries].
  intros d [] He; [discriminate He | exact I].
Qed.

Lemma namesDatabase_stable : attrStable namesDatabase.
Proof.
  intros d d' (_ & _ & Hset) e H s Hs Ha. unfold Get in *. rewrite Hset.
  exact (H s Hs Ha).
Qed.

Lemma namesDatabase_other d e :
  (forall s, execSite e = Some s -> attributeSite s = false) ->
  namesDatabase d e.
Proof. intros H s Hs Ha. rewrite (H s Hs) in Ha. discriminate Ha. Qed.

Lemma setDBOwner_namesDatabase c : emitsFor namesDatabase (setDBOwner S c).
Proof.
  intros st. apply Forall_forall. intros e Hin s Hs Ha.
  pose proof (setDBOwner_emitsFor S c st) as HF.
  rewrite Forall_forall in HF. specialize (HF e Hin).
  pose proof (setDBOwner_emits S c st) as HG.
  rewrite Forall_forall in HG. specialize (HG e Hin). cbv beta in HG.
  assert (s = SOwner) as ->.
  { destruct HG as [HG | [HG | HG]]; rewrite HG in Hs; injection Hs as <-;
      [discriminate Ha | reflexivity | discriminate Ha]. }
  rewrite (HF Hs). unfold ownerSQL. eexists. reflexivity.
Qed.

Lemma setDBTablespace_namesDatabase : emitsFor namesDatabase (setDBTablespace S).
Proof.
  intros st. unfold setDBTablespace.
  rewrite bind_run. unfold getData. projections.
  destruct (negb (HasChange_string dbTablespaceAttr (rd st))); [constructor|].
  rewrite bind_run, Exec_run. projections.
  constructor.
  - intros s _ _. cbn [ev_sql].
    destruct ((Get dbTablespaceAttr (rd st) =? "")%string
              || isDefault (Get dbTablespaceAttr (rd st)))%bool;
      eexists; reflexivity.
  - match goal with
    | |- Forall _ (events (match ?x with _ => _ end _)) => destruct x
    end; constructor.
Qed.

Lemma setDBConnLimit_namesDatabase : emitsFor namesDatabase (setDBConnLimit S).
Proof.
  intros st. apply Forall_forall. intros e Hin s Hs Ha.
  pose proof (setDBConnLimit_emitsFor S st) as HF.
  rewrite Forall_forall in HF. specialize (HF e Hin).
  pose proof (setDBConnLimit_emits S st) as HG.
  rewrite Forall_forall in HG. specialize (HG e Hin). cbv beta in HG.
  destruct (HF HG) as [-> _]. unfold connLimitSQL. eexists. reflexivity.
Qed.

Lemma setDBAllowConns_namesDatabase c : emitsFor namesDatabase (setDBAllowConns S c).
Proof.
  intros st. unfold setDBAllowConns.
  rewrite bind_run. unfold getData. projections.
  destruct (negb (HasChange_bool dbAllowConnsAttr (rd st))); [constructor|].
  destruct (negb (featureSupported c featureDBAllowConnections)); [constructor|].
  rewrite bind_run, Exec_run. projections.
  constructor.
  - intros s _ _. cbn [ev_sql]. eexists. reflexivity.
  - match goal with
    | |- Forall _ (events (match ?x with _ => _ end _)) => destruct x
    end; constructor.
Qed.

Lemma setDBIsTemplate_namesDatabase c : emitsFor namesDatabase (setDBIsTemplate S c).
Proof.
  intros st. unfold setDBIsTemplate.
  rewrite bind_run. unfold getData. projections.
  destruct (negb (HasChange_bool dbIsTemplateAttr (rd st))); [constructor|].
  match goal with
  | |- Forall _ (events (check ?m ?wr ?k ?s)) =>
      destruct (check_cases _ m wr k s) as [(e & _ & ->) | (_ & ->)]
  end; projections; rewrite ?app_nil_r;
    unfold doSetDBIsTemplate;
    (destruct (negb (featureSupported c featureDBIsTemplate)); [constructor|]);
    rewrite bind_run, Exec_run; projections;
    (constructor;
     [ intros s _ _; cbn [ev_sql]; unfold isTemplateSQL; eexists; reflexivity
     | match goal with
       | |- Forall _ (events (match ?x with _ => _ end _)) => destruct x
       end; constructor ]).
Qed.

(** X3.  Every statement of Update that alters an attribute (owner,
    tablespace, connection limit, allow-connections, is-template) names
    the database by the name that [d] holds, which is the new name when
    the name changes.  When the name has changed, the rename is the
    first call of Update; nothing is called when the new name is empty,
    and nothing else is called when the rename fails. *)
Theorem update_statements_name_the_database (c : Client) (st : St S) :
  Forall (namesDatabase (rd st)) (events (Update c st)) /\
  (HasChange_string dbNameAttr (rd st) = true ->
   let o := dbNameAttr (rd_state (rd st)) in
   let n := dbNameAttr (rd_diff (rd st)) in
   (n = "" -> events (Update c st) = []) /\
   (n <> "" ->
    exists r rest,
      events (Update c st) = EvExec SRename (renameSQL o n) [] r :: rest /\
      (r <> None -> rest = []))).
Proof.
  split.
  - revert st. change (emitsFor namesDatabase (Update c)).
    unfold resourcePostgreSQLDatabaseUpdate, settersBeforeAllowConns.
    pose proof namesDatabase_stable as HS.
    repeat apply emitsFor_check;
      auto using setDBName_keeps, setDBOwner_keeps, setDBTablespace_keeps,
        setDBConnLimit_keeps, setDBAllowConns_keeps, setDBIsTemplate_keeps,
        setDBOwner_namesDatabase, setDBTablespace_namesDatabase,
        setDBConnLimit_namesDatabase, setDBAllowConns_namesDatabase,
        setDBIsTemplate_namesDatabase.
    + eapply emitsFor_of_emitsOnly; [| apply setDBName_emits].
      intros d e He. apply namesDatabase_other. intros s Hs.
      rewrite He in Hs. injection Hs as <-. reflexivity.
    + eapply emitsFor_of_emitsOnly; [| apply ReadImpl_emits_queries].
      intros d [] He; [discriminate He |].
      apply namesDatabase_other. intros s Hs. discriminate Hs.
  - intros Hch o n.
    pose proof (setDBName_changed S st Hch) as Hrun. cbn zeta in Hrun.
    fold o n in Hrun.
    unfold resourcePostgreSQLDatabaseUpdate, settersBeforeAllowConns.
    match goal with
    | |- context [check (setDBName S) ?wr ?k st] =>
        destruct (check_cases _ (setDBName S) wr k st)
          as [(e & Hres & ->) | (Hres & ->)]
    end; rewrite Hrun in *; projections.
    + split.
      * intros Hn. apply String.eqb_eq in Hn. now rewrite Hn.
      * intros Hn. apply String.eqb_neq in Hn. rewrite Hn in *.
        destruct (snd (db_exec S (world st) (renameSQL o n) [])) as [msg|];
          [| discriminate Hres].
        projections. eexists _, []. split; [reflexivity | reflexivity].
    + split.
      * intros Hn. apply String.eqb_eq in Hn. rewrite Hn in Hres.
        discriminate Hres.
      * intros Hn. apply String.eqb_neq in Hn. rewrite Hn in *.
        destruct (snd (db_exec S (world st) (renameSQL o n) [])) as [msg|];
          [discriminate Hres |].
        projections. eexists None, _. split; [reflexivity|].
        intros H. now contradiction H.
Qed.

(* --------------------------------------------------------------------- *)
(** *** Update stops at the first setter that fails *)

Lemma check_agree (m k k' : M S (option error)) wrap (st : St S) e :
  (forall st' e', result (k' st') = Some e' -> k st' = k' st') ->
  result (check m wrap k' st) = Some e ->
  check m wrap k st = check m wrap k' st.
Proof.
  intros Hk Hres.
  destruct (result (m st)) as [e0|] eqn:Em.
  - now rewrite !(check_run_err _ m _ _ st e0 Em).
  - rewrite (check_run_ok _ m _ k' st Em) in Hres.
    rewrite (check_run_ok _ m _ k st Em), (check_run_ok _ m _ k' st Em).
    cbn [result fst] in Hres. now rewrite (Hk _ _ Hres).
Qed.

Lemma check_extends (m k k' j : M S (option error)) wrap :
  (forall st', result (k' st') = None ->
     k st' = (result (j (final (k' st'))), final (j (final (k' st'))),
              (events (k' st') ++ events (j (final (k' st'))))%list)) ->
  forall st, result (check m wrap k' st) = None ->
    check m wrap k st =
      (result (j (final (check m wrap k' st))),
       final (j (final (check m wrap k' st))),
       (events (check m wrap k' st)
          ++ events (j (final (check m wrap k' st))))%list).
Proof.
  intros Hk st Hres.
  destruct (result (m st)) as [e0|] eqn:Em.
  - rewrite (check_run_err _ m _ k' st e0 Em) in Hres. discriminate Hres.
  - rewrite (check_run_ok _ m _ k' st Em) in Hres |- *.
    cbn [result fst] in Hres.
    rewrite (check_run_ok _ m _ k st Em), (Hk _ Hres). projections.
    now rewrite app_assoc.
Qed.

Lemma allSetters_emits_statements c :
  emitsOnly (fun e => isExec e = true) (allSetters S c).
Proof.
  clear pqQuoteLiteral.
  unfold allSetters, settersBeforeAllowConns. repeat emits_step.
  - eapply emitsOnly_weaken; [| apply setDBName_emits]. now intros [].
  - eapply emitsOnly_weaken; [| apply setDBOwner_emits].
    intros [] H; [reflexivity | cbv beta in H; simpl in H; intuition discriminate].
  - eapply emitsOnly_weaken; [| apply setDBTablespace_emits]. now intros [].
  - eapply emitsOnly_weaken; [| apply setDBConnLimit_emits]. now intros [].
  - eapply emitsOnly_weaken; [| apply setDBAllowConns_emits]. now intros [].
  - eapply emitsOnly_weaken; [| apply setDBIsTemplate_emits]. now intros [].
Qed.

Lemma allSetters_keeps c : keepsAttrs (allSetters S c).
Proof.
  unfold allSetters, settersBeforeAllowConns.
  repeat keeps_step;
    auto using setDBName_keeps, setDBOwner_keeps, setDBTablespace_keeps,
      setDBConnLimit_keeps, setDBAllowConns_keeps, setDBIsTemplate_keeps.
Qed.

Lemma update_when_setter_fails c (st : St S) e :
  result (allSetters S c st) = Some e -> Update c st = allSetters S c st.
Proof.
  unfold resourcePostgreSQLDatabaseUpdate, allSetters, settersBeforeAllowConns.
  revert st e.
  repeat (intros st e; apply check_agree; clear st e).
  intros st e H. discriminate H.
Qed.

Lemma update_when_setters_succeed c (st : St S) :
  result (allSetters S c st) = None ->
  Update c st =
    (result (ReadImpl c (final (allSetters S c st))),
     final (ReadImpl c (final (allSetters S c st))),
     (events (allSetters S c st)
        ++ events (ReadImpl c (final (allSetters S c st))))%list).
Proof.
  unfold resourcePostgreSQLDatabaseUpdate, allSetters, settersBeforeAllowConns.
  revert st.
  repeat apply check_extends.
  intros st _. projections. apply triple_eta.
Qed.

(** X4.  When one of the six setters fails, Update returns that
    setter's error as it is, no setter after it runs, the catalog is not
    read back (the log holds no query) and the attributes of [d] are
    left as they were.  When none fails, Update goes on with the
    read-back and returns its result. *)
Theorem update_stops_at_first_failing_setter (c : Client) (st : St S) :
  (forall e, result (allSetters S c st) = Some e ->
     result (Update c st) = Some e /\
     events (Update c st) = events (allSetters S c st) /\
     Forall (fun ev => isExec ev = true) (events (Update c st)) /\
     sameAttrs (rd st) (rd (final (Update c st)))) /\
  (result (allSetters S c st) = None ->
     result (Update c st) = result (ReadImpl c (final (allSetters S c st))) /\
     events (Update c st) =
       (events (allSetters S c st)
          ++ events (ReadImpl c (final (allSetters S c st))))%list).
Proof.
  split.
  - intros e H. rewrite (update_when_setter_fails c st e H).
    repeat split; try apply (allSetters_keeps c st).
    + exact H.
    + apply allSetters_emits_statements.
  - intros H. rewrite (update_when_setters_succeed c st H). split; reflexivity.
Qed.

(* --------------------------------------------------------------------- *)
(** *** The identifier, and what the read-back asks for *)

Lemma same_trans (d1 d2 d3 : ResourceData) : d2 = d1 -> d3 = d2 -> d3 = d1.
Proof. congruence. Qed.

Ltac untouched_step :=
  relates_step (fun d : ResourceData => eq_refl d)
               (fun d1 d2 d3 : ResourceData => same_trans d1 d2 d3).

Lemma grant_untouched o u :
  relates (fun d d' => d' = d) (grantRoleMembership S o u).
Proof. unfold grantRoleMembership. repeat untouched_step. Qed.

Lemma revoke_untouched o u :
  relates (fun d d' => d' = d) (revokeRoleMembership S o u).
Proof. unfold revokeRoleMembership. repeat untouched_step. Qed.

Lemma deferredRevoke_untouched c :
  relates (fun d d' => d' = d) (deferredRevoke S c).
Proof. unfold deferredRevoke. repeat untouched_step. apply revoke_untouched. Qed.

Lemma setDBOwner_untouched c :
  relates (fun d d' => d' = d) (setDBOwner S c).
Proof.
  unfold setDBOwner. repeat untouched_step;
    first [apply grant_untouched | apply deferredRevoke_untouched].
Qed.

Lemma setDBTablespace_untouched :
  relates (fun d d' => d' = d) (setDBTablespace S).
Proof. unfold setDBTablespace. repeat untouched_step. Qed.

Lemma setDBConnLimit_untouched :
  relates (fun d d' => d' = d) (setDBConnLimit S).
Proof. unfold setDBConnLimit. repeat untouched_step. Qed.

Lemma setDBAllowConns_untouched c :
  relates (fun d d' => d' = d) (setDBAllowConns S c).
Proof. unfold setDBAllowConns. repeat untouched_step. Qed.

Lemma doSetDBIsTemplate_untouched c n b :
  relates (fun d d' => d' = d) (doSetDBIsTemplate S c n b).
Proof. unfold doSetDBIsTemplate. repeat untouched_step. Qed.

Lemma setDBIsTemplate_untouched c :
  relates (fun d d' => d' = d) (setDBIsTemplate S c).
Proof.
  unfold setDBIsTemplate. repeat untouched_step. apply doSetDBIsTemplate_untouched.
Qed.

Lemma existsb_none {A} (f : A -> bool) (P : A -> Prop) l :
  (forall a, P a -> f a = false) -> Forall P l -> existsb f l = false.
Proof.
  intros H Hl. induction Hl as [| a l Ha _ IH]; [reflexivity|].
  simpl. now rewrite (H a Ha), IH.
Qed.

Lemma id_trans (d1 d2 d3 : ResourceData) :
  rd_id d2 = rd_id d1 -> rd_id d3 = rd_id d2 -> rd_id d3 = rd_id d1.
Proof. congruence. Qed.

Lemma gated_reads_identifier c i :
  relates (fun d d' => rd_id d' = rd_id d)
    (check (readAllowConns S c i) (fun e => e)
       (check (readIsTemplate S c i) (fun e => e) (ret None))).
Proof.
  unfold readAllowConns, readIsTemplate.
  repeat first
    [ relates_step (fun d : ResourceData => eq_refl (rd_id d)) id_trans
    | apply relates_update; intros d; reflexivity ].
Qed.

Lemma gated_reads_sites c i :
  emitsOnly (fun e => querySite e = Some QAllowConns \/ querySite e = Some QIsTemplate)
    (check (readAllowConns S c i) (fun e => e)
       (check (readIsTemplate S c i) (fun e => e) (ret None))).
Proof.
  unfold readAllowConns, readIsTemplate. repeat emits_step; auto.
Qed.

Lemma scan_string_string_absent r e sql args :
  scan_string_string r = inl e ->
  isErrNoRows e = reportsAbsent (EvQuery QIdentity sql args r).
Proof.
  destruct r as [| msg | [| [] [| [] [| ? ?]]]]; simpl; intros [= <-]; reflexivity.
Qed.

Lemma scan_string_string_found r p sql args :
  scan_string_string r = inr p ->
  reportsAbsent (EvQuery QIdentity sql args r) = false.
Proof. destruct r; [discriminate | discriminate | reflexivity]. Qed.

Lemma scan_core_absent r e sql args :
  scan_core r = inl e ->
  isErrNoRows e = reportsAbsent (EvQuery QCore sql args r).
Proof.
  destruct r as [| msg | [| [] [| [] [| [] [| [] [| [] [| ? ?]]]]]]];
    simpl; intros [= <-]; reflexivity.
Qed.

Lemma scan_core_found r p sql args :
  scan_core r = inr p ->
  reportsAbsent (EvQuery QCore sql args r) = false.
Proof. destruct r; [discriminate | discriminate | reflexivity]. Qed.

(** The identifier after the read-back: cleared when one of the two
    core queries was answered with no row, and as it was otherwise. *)
Lemma ReadImpl_identifier c (st : St S) :
  rd_id (rd (final (ReadImpl c st))) =
    if existsb reportsAbsent (events (ReadImpl c st)) then "" else rd_id (rd st).
Proof.
  unfold resourcePostgreSQLDatabaseReadImpl.
  rewrite bind_getData_run, bind_run, QueryRow_run. projections.
  set (x1 := db_queryRow S (world st) identitySQL [VString (rd_id (rd st))]).
  cbn [existsb].
  destruct (scan_string_string (snd x1)) as [e1 | [n o]] eqn:E1.
  { rewrite <- (scan_string_string_absent _ _ _ _ E1).
    destruct (isErrNoRows e1); [rewrite bind_update_run|]; reflexivity. }
  rewrite (scan_string_string_found _ _ _ _ E1). cbn [orb].
  rewrite bind_run, QueryRow_run. projections.
  set (x2 := db_queryRow S (fst x1) (dbSQLFmt coreColumns) [VString (rd_id (rd st))]).
  cbn [existsb].
  destruct (scan_core (snd x2)) as [e2 | [[[[en co] ct] ts] l]] eqn:E2.
  { rewrite <- (scan_core_absent _ _ _ _ E2).
    destruct (isErrNoRows e2); [rewrite bind_update_run|]; reflexivity. }
  rewrite (scan_core_found _ _ _ _ E2). cbn [orb].
  rewrite !bind_update_run, bind_getData_run, bind_update_run.
  rewrite (gated_reads_identifier c (rd_id (rd st))).
  rewrite (existsb_none reportsAbsent
             (fun e => querySite e = Some QAllowConns \/ querySite e = Some QIsTemplate)).
  - reflexivity.
  - intros [] [H | H]; try discriminate H; injection H as ->; reflexivity.
  - apply gated_reads_sites.
Qed.

Lemma ReadImpl_binds_identifier c (st : St S) :
  Forall (fun e => ev_args e = [VString (rd_id (rd st))]) (events (ReadImpl c st)).
Proof.
  unfold resourcePostgreSQLDatabaseReadImpl, readAllowConns, readIsTemplate.
  rewrite bind_run. unfold getData. projections.
  match goal with
  | |- Forall ?P (events (?m st)) => enough (H : emitsOnly P m) by apply H
  end.
  cbv beta. repeat emits_step; first [reflexivity | intros st0; constructor].
Qed.

(** The five setters after [setDBName] do not touch [d]. *)
Lemma allSetters_identifier c (st : St S) :
  result (allSetters S c st) = None ->
  rd_id (rd (final (allSetters S c st))) =
    if HasChange_string dbNameAttr (rd st)
    then dbNameAttr (rd_diff (rd st))
    else rd_id (rd st).
Proof.
  unfold allSetters, settersBeforeAllowConns. intros Hres.
  match type of Hres with
  | result (check _ _ ?k _) = _ =>
      assert (Hk : relates (fun d d' => d' = d) k)
  end.
  { repeat untouched_step;
      auto using setDBOwner_untouched, setDBTablespace_untouched,
        setDBConnLimit_untouched, setDBAllowConns_untouched,
        setDBIsTemplate_untouched. }
  match type of Hres with
  | result (check ?m ?wr ?k ?s) = _ =>
      destruct (check_cases _ m wr k s) as [(e & _ & Hrw) | (Hn & Hrw)];
        rewrite Hrw in Hres |- *; clear Hrw; [discriminate Hres|]
  end.
  projections. rewrite (Hk (final (setDBName S st))).
  destruct (HasChange_string dbNameAttr (rd st)) eqn:Hch.
  - pose proof (setDBName_changed S st Hch) as Hrun. cbn zeta in Hrun.
    rewrite Hrun in Hn |- *.
    destruct (dbNameAttr (rd_diff (rd st)) =? "")%string; [discriminate Hn|].
    destruct (snd (db_exec S (world st) _ [])); [discriminate Hn | reflexivity].
  - now rewrite (setDBName_unchanged S st Hch).
Qed.

Lemma statements_report_nothing l :
  Forall (fun e => isExec e = true) l -> existsb reportsAbsent l = false.
Proof.
  apply existsb_none. intros [] H; [reflexivity | discriminate H].
Qed.

(** X5.  The identifier after the setters of a successful Update is the
    new name when the name has changed and the old identifier
    otherwise; every query of the read-back is bound to that identifier
    and to nothing else.  When the setters have succeeded, and so
    whenever Update returns nil, the identifier Update leaves is that
    one if both core queries of the read-back were answered with
    something other than no-row, and the empty string if one of them was
    answered with no row. *)
Theorem update_reads_back_by_current_identifier (c : Client) (st : St S) :
  let id' := if HasChange_string dbNameAttr (rd st)
             then dbNameAttr (rd_diff (rd st))
             else rd_id (rd st) in
  Forall (fun e => isQuery e -> ev_args e = [VString id'])
         (events (Update c st)) /\
  (result (allSetters S c st) = None \/ result (Update c st) = None ->
   rd_id (rd (final (Update c st))) =
     if existsb reportsAbsent (events (Update c st)) then "" else id').
Proof.
  intros id'.
  destruct (result (allSetters S c st)) as [e|] eqn:Hres.
  - rewrite (update_when_setter_fails c st e Hres). split.
    + eapply Forall_impl; [| apply allSetters_emits_statements].
      intros ev Hev Hq. unfold isQuery in Hq. congruence.
    + intros [H | H]; congruence.
  - rewrite (update_when_setters_succeed c st Hres). projections.
    pose proof (allSetters_identifier c st Hres) as Hid. fold id' in Hid.
    split.
    + apply Forall_app. split.
      * eapply Forall_impl; [| apply allSetters_emits_statements].
        intros ev Hev Hq. unfold isQuery in Hq. congruence.
      * rewrite <- Hid. eapply Forall_impl; [| apply ReadImpl_binds_identifier].
        intros ev Hev _. exact Hev.
    + intros _. rewrite existsb_app.
      rewrite (statements_report_nothing _ (allSetters_emits_statements c st)).
      cbn [orb]. rewrite <- Hid. apply ReadImpl_identifier.
Qed.

(* --------------------------------------------------------------------- *)
(** *** The grant and the revoke around an ownership change *)

Lemma elevation_needed o u :
  o <> "" -> o <> u ->
  (negb (o =? "") && negb (o =? u))%string%bool = true.
Proof.
  intros H1 H2. apply String.eqb_neq in H1, H2. now rewrite H1, H2.
Qed.

Lemma grant_run o u (st : St S) :
  o <> "" -> o <> u ->
  let x := db_exec S (world st) (grantSQL o u) [] in
  grantRoleMembership S o u st =
    (match snd x with
     | Some msg =>
         if Contains msg duplicateKeyMessage then None
         else Some (errwrap_Wrapf "Error granting membership: {{err}}" []
                      (DriverError msg))
     | None => None
     end,
     mkSt (fst x) (rd st),
     [EvExec SGrant (grantSQL o u) [] (snd x)]).
Proof.
  intros H1 H2 x. unfold grantRoleMembership.
  rewrite (elevation_needed o u H1 H2).
  rewrite bind_run, Exec_run. projections. fold x.
  destruct (snd x) as [msg|]; [| reflexivity].
  destruct (Contains msg duplicateKeyMessage); reflexivity.
Qed.

Lemma revoke_run o u (st : St S) :
  o <> "" -> o <> u ->
  let x := db_exec S (world st) (revokeSQL o u) [] in
  revokeRoleMembership S o u st =
    (match snd x with
     | Some msg =>
         Some (errwrap_Wrapf "Error revoking membership: {{err}}" []
                 (DriverError msg))
     | None => None
     end,
     mkSt (fst x) (rd st),
     [EvExec SRevoke (revokeSQL o u) [] (snd x)]).
Proof.
  intros H1 H2 x. unfold revokeRoleMembership.
  rewrite (elevation_needed o u H1 H2).
  rewrite bind_run, Exec_run. projections. fold x.
  destruct (snd x) as [msg|]; reflexivity.
Qed.

Lemma deferredRevoke_run c (st : St S) :
  let v := revokeRoleMembership S (Get dbOwnerAttr (rd st)) (config_Username c) st in
  deferredRevoke S c st = (tt, final v, events v).
Proof.
  intros v. unfold deferredRevoke.
  rewrite bind_run. unfold getData. projections.
  rewrite bind_run. projections. fold v. now rewrite app_nil_r.
Qed.

(** What [setDBOwner] does when the owner has changed to a role other
    than the empty one. *)
Lemma setDBOwner_run c (st : St S) :
  HasChange_string dbOwnerAttr (rd st) = true ->
  Get dbOwnerAttr (rd st) <> "" ->
  let o := Get dbOwnerAttr (rd st) in
  let u := config_Username c in
  let g := grantRoleMembership S o u st in
  let x := db_exec S (world (final g)) (ownerSQL (Get dbNameAttr (rd st)) o) [] in
  let v := revokeRoleMembership S o u (mkSt (fst x) (rd st)) in
  setDBOwner S c st =
    match result g with
    | Some e => (Some (wrapGrant c o e), final g, events g)
    | None =>
        (match snd x with
         | Some msg =>
             Some (errwrap_Wrapf "Error updating database OWNER: {{err}}" []
                     (DriverError msg))
         | None => None
         end,
         final v,
         (events g
            ++ EvExec SOwner (ownerSQL (Get dbNameAttr (rd st)) o) [] (snd x)
            :: events v)%list)
    end.
Proof.
  intros Hch Hown o u g x v.
  unfold setDBOwner. rewrite bind_run. unfold getData. projections.
  rewrite Hch. cbn [negb].
  apply String.eqb_neq in Hown. rewrite Hown.
  fold o u g.
  pose proof (grant_untouched o u st) as Hrd. cbv beta in Hrd. fold g in Hrd.
  destruct (result g) as [e|] eqn:Hg.
  - now rewrite (check_run_err _ (grantRoleMembership S o u) _ _ st e Hg).
  - rewrite (check_run_ok _ (grantRoleMembership S o u) _ _ st Hg). projections.
    rewrite defer_run. projections.
    rewrite bind_run. projections.
    rewrite bind_run, Exec_run. projections.
    fold g. rewrite Hrd. fold x.
    assert (E : forall r : option string,
      match r with
      | Some msg =>
          ret (S:=S) (Some (errwrap_Wrapf "Error updating database OWNER: {{err}}" []
                       (DriverError msg)))
      | None => ret None
      end (mkSt (fst x) (rd st))
      = (match r with
         | Some msg =>
             Some (errwrap_Wrapf "Error updating database OWNER: {{err}}" []
                     (DriverError msg))
         | None => None
         end, mkSt (fst x) (rd st), [])).
    { intros [msg|]; reflexivity. }
    rewrite E. projections.
    rewrite deferredRevoke_run. projections. fold o u v.
    reflexivity.
Qed.

(** X6.  When the owner changes to a role other than the connecting
    user and the grant returns nil (also when the store reported that
    the membership already existed), [setDBOwner] makes exactly three
    calls: the GRANT, the ALTER ... OWNER TO and the REVOKE of the same
    role from the same user.  The REVOKE is executed whether or not the
    ALTER succeeded, and the result is decided by the ALTER alone. *)
Theorem setDBOwner_grants_alters_revokes (c : Client) (st : St S) :
  let o := Get dbOwnerAttr (rd st) in
  let u := config_Username c in
  HasChange_string dbOwnerAttr (rd st) = true ->
  o <> "" -> o <> u ->
  result (grantRoleMembership S o u st) = None ->
  exists g a v,
    events (setDBOwner S c st) =
      [EvExec SGrant (grantSQL o u) [] g;
       EvExec SOwner (ownerSQL (Get dbNameAttr (rd st)) o) [] a;
       EvExec SRevoke (revokeSQL o u) [] v] /\
    result (setDBOwner S c st) =
      match a with
      | Some msg =>
          Some (errwrap_Wrapf "Error updating database OWNER: {{err}}" []
                  (DriverError msg))
      | None => None
      end.
Proof.
  intros o u Hch Ho Hu Hg.
  rewrite (setDBOwner_run c st Hch Ho). cbn zeta. fold o u. rewrite Hg.
  projections.
  rewrite (grant_run o u st Ho Hu). projections.
  rewrite (revoke_run o u _ Ho Hu). projections.
  eexists _, _, _. split; reflexivity.
Qed.

(** X7.  When the store refuses the GRANT with a message other than the
    duplicate-key one, [setDBOwner] returns that error, wrapped first by
    the grant and then with the connecting user and the role; the GRANT
    is its only call (no ALTER, no REVOKE) and [d] is not touched. *)
Theorem setDBOwner_stops_when_grant_fails (c : Client) (st : St S) (msg : string) :
  let o := Get dbOwnerAttr (rd st) in
  let u := config_Username c in
  let x := db_exec S (world st) (grantSQL o u) [] in
  HasChange_string dbOwnerAttr (rd st) = true ->
  o <> "" -> o <> u ->
  snd x = Some msg ->
  Contains msg duplicateKeyMessage = false ->
  setDBOwner S c st =
    (Some (wrapGrant c o
             (errwrap_Wrapf "Error granting membership: {{err}}" []
                (DriverError msg))),
     mkSt (fst x) (rd st),
     [EvExec SGrant (grantSQL o u) [] (Some msg)]).
Proof.
  intros o u x Hch Ho Hu Hx Hdup.
  rewrite (setDBOwner_run c st Hch Ho). cbn zeta. fold o u.
  rewrite (grant_run o u st Ho Hu). projections. fold x.
  rewrite Hx, Hdup. reflexivity.
Qed.

(** X8.  When the owner changes to the connecting user itself,
    [setDBOwner] executes the ALTER ... OWNER TO alone, with no GRANT
    and no REVOKE; when the owner changes to the empty string it
    returns nil without any call. *)
Theorem setDBOwner_without_elevation (c : Client) (st : St S) :
  HasChange_string dbOwnerAttr (rd st) = true ->
  (Get dbOwnerAttr (rd st) = "" -> setDBOwner S c st = (None, st, [])) /\
  (Get dbOwnerAttr (rd st) <> "" ->
   Get dbOwnerAttr (rd st) = config_Username c ->
   exists a,
     events (setDBOwner S c st) =
       [EvExec SOwner
          (ownerSQL (Get dbNameAttr (rd st)) (Get dbOwnerAttr (rd st))) [] a] /\
     result (setDBOwner S c st) =
       match a with
       | Some msg =>
           Some (errwrap_Wrapf "Error updating database OWNER: {{err}}" []
                   (DriverError msg))
       | None => None
       end).
Proof.
  intros Hch. split.
  - intros Ho. unfold setDBOwner.
    rewrite bind_run. unfold getData. projections.
    rewrite Hch, Ho. reflexivity.
  - intros Ho Hu.
    rewrite (setDBOwner_run c st Hch Ho). cbn zeta.
    rewrite (grant_noop S _ _ st (or_intror Hu)). projections.
    rewrite (revoke_noop S _ _ _ (or_intror Hu)). projections.
    eexists. split; reflexivity.
Qed.

(* --------------------------------------------------------------------- *)
(** *** The paths of Create *)

(** Create, path by path: the grant fails; the CREATE DATABASE fails;
    the CREATE DATABASE succeeds and the catalog is read back.  The
    deferred revoke ends the last two. *)
Lemma Create_run c (st : St S) :
  let o := Get dbOwnerAttr (rd st) in
  let n := Get dbNameAttr (rd st) in
  let sql := createSQL pqQuoteLiteral c (rd st) in
  let g := grantRoleMembership S o (config_Username c) st in
  let x := db_exec S (world (final g)) sql [] in
  let back := ReadImpl c (mkSt (fst x) (SetId n (rd st))) in
  Create c st =
    match result g with
    | Some e => (Some (wrapGrant c o e), final g, events g)
    | None =>
        match snd x with
        | Some msg =>
            let v := deferredRevoke S c (mkSt (fst x) (rd st)) in
            (Some (errwrap_Wrapf "Error creating database %q: {{err}}" [n]
                     (DriverError msg)),
             final v,
             (events g ++ EvExec SCreate sql [] (Some msg) :: events v)%list)
        | None =>
            let v := deferredRevoke S c (final back) in
            (result back, final v,
             (events g ++ EvExec SCreate sql [] None
                :: events back ++ events v)%list)
        end
    end.
Proof.
  intros o n sql g x back.
  unfold resourcePostgreSQLDatabaseCreate.
  rewrite bind_run. unfold getData. projections.
  fold o n sql.
  pose proof (grant_untouched o (config_Username c) st) as Hrd.
  cbv beta in Hrd. fold g in Hrd.
  destruct (result g) as [e|] eqn:Hg.
  - now rewrite (check_run_err _ (grantRoleMembership S o (config_Username c))
                   _ _ st e Hg).
  - rewrite (check_run_ok _ (grantRoleMembership S o (config_Username c))
               _ _ st Hg). projections.
    rewrite defer_run. projections.
    rewrite bind_run, Exec_run. projections. fold g x.
    rewrite Hrd.
    destruct (snd x) as [msg|].
    + unfold ret at 1 2 3. projections. reflexivity.
    + rewrite bind_run. unfold update at 1 2 3. projections.
      fold back. reflexivity.
Qed.

(** X9.  Create sets the identifier only after a successful CREATE
    DATABASE.  If the grant or the CREATE DATABASE fails, Create returns
    an error and [d] is as it was.  If the CREATE DATABASE succeeds, the
    identifier Create leaves is the database name when both core queries
    of the read-back were answered with something other than no-row,
    also when Create then returns an error of the read-back, and it is
    the empty string when one of them was answered with no row; and
    every query of the read-back is bound to the database name. *)
Theorem create_sets_identifier_after_create_statement (c : Client) (st : St S) :
  let run := Create c st in
  let n := Get dbNameAttr (rd st) in
  let created := EvExec SCreate (createSQL pqQuoteLiteral c (rd st)) [] None in
  (In created (events run) /\
   rd_id (rd (final run)) =
     (if existsb reportsAbsent (events run) then "" else n) /\
   Forall (fun e => isQuery e -> ev_args e = [VString n]) (events run)) \/
  (~ In created (events run) /\
   result run <> None /\
   rd (final run) = rd st /\
   Forall (fun e => isExec e = true) (events run)).
Proof.
  intros run n created. subst run. rewrite Create_run. cbn zeta.
  set (o := Get dbOwnerAttr (rd st)).
  set (g := grantRoleMembership S o (config_Username c) st).
  set (sql := createSQL pqQuoteLiteral c (rd st)).
  set (x := db_exec S (world (final g)) sql []).
  assert (Hgev : Forall (fun e => execSite e = Some SGrant) (events g))
    by apply grant_emits.
  assert (Hgrd : rd (final g) = rd st) by apply (grant_untouched o _ st).
  assert (Hrev : forall s, Forall (fun e => execSite e = Some SRevoke)
                             (events (deferredRevoke S c s)))
    by (intros s; apply deferredRevoke_emits).
  assert (Hrevrd : forall s, rd (final (deferredRevoke S c s)) = rd s)
    by (intros s; apply (deferredRevoke_untouched c s)).
  assert (notCreated : forall l, Forall (fun e => execSite e = Some SGrant) l ->
                                 ~ In created l).
  { intros l Hl Hin. rewrite Forall_forall in Hl. specialize (Hl _ Hin).
    discriminate Hl. }
  assert (notCreated' : forall l, Forall (fun e => execSite e = Some SRevoke) l ->
                                  ~ In created l).
  { intros l Hl Hin. rewrite Forall_forall in Hl. specialize (Hl _ Hin).
    discriminate Hl. }
  assert (execs : forall s l, Forall (fun e => execSite e = Some s) l ->
                              Forall (fun e => isExec e = true) l).
  { intros s l. apply Forall_impl. now intros []. }
  destruct (result g) as [e|] eqn:Hg; [| destruct (snd x) as [msg|] eqn:Hx].
  - right. projections. repeat split; eauto. discriminate.
  - right. projections. repeat split.
    + intros Hin. apply in_app_or in Hin as [Hin | [Hin | Hin]].
      * exact (notCreated _ Hgev Hin).
      * discriminate Hin.
      * exact (notCreated' _ (Hrev _) Hin).
    + discriminate.
    + now rewrite Hrevrd.
    + apply Forall_app. split; [eauto|]. constructor; [reflexivity | eauto].
  - left. projections. fold created.
    set (back := ReadImpl c (mkSt (fst x) (SetId n (rd st)))).
    repeat split.
    + apply in_or_app. right. now left.
    + rewrite Hrevrd, existsb_app.
      rewrite (statements_report_nothing _ (execs _ _ Hgev)).
      cbn [existsb reportsAbsent orb]. rewrite existsb_app.
      rewrite (statements_report_nothing (events (deferredRevoke S c _))
                 (execs _ _ (Hrev _))).
      rewrite orb_false_r.
      apply (ReadImpl_identifier c (mkSt (fst x) (SetId n (rd st)))).
    + apply Forall_app. split.
      { eapply Forall_impl; [| exact Hgev]. intros [] He Hq; discriminate. }
      constructor; [intros Hq; discriminate Hq|].
      apply Forall_app. split.
      * eapply Forall_impl;
          [| apply (ReadImpl_binds_identifier c (mkSt (fst x) (SetId n (rd st))))].
        intros ev Hev _. exact Hev.
      * eapply Forall_impl; [| apply Hrev]. intros [] He Hq; discriminate.
Qed.

(** X10.  When the CREATE DATABASE fails after the grant returned nil,
    Create returns the error of the statement wrapped with the database
    name, makes no query, and still runs the revoke for the owner that
    was granted: its log is the calls of the grant, the failed CREATE
    DATABASE and the calls of the revoke of that owner. *)
Theorem create_failure_still_revokes (c : Client) (st : St S) (msg : string) :
  let o := Get dbOwnerAttr (rd st) in
  let u := config_Username c in
  let sql := createSQL pqQuoteLiteral c (rd st) in
  let g := grantRoleMembership S o u st in
  let x := db_exec S (world (final g)) sql [] in
  result g = None ->
  snd x = Some msg ->
  result (Create c st) =
    Some (errwrap_Wrapf "Error creating database %q: {{err}}"
            [Get dbNameAttr (rd st)] (DriverError msg)) /\
  events (Create c st) =
    (events g ++ EvExec SCreate sql [] (Some msg)
       :: events (revokeRoleMembership S o u (mkSt (fst x) (rd st))))%list /\
  rd (final (Create c st)) = rd st.
Proof.
  intros o u sql g x Hg Hx.
  rewrite Create_run. cbn zeta. fold o u sql g x. rewrite Hg, Hx.
  rewrite deferredRevoke_run. projections.
  repeat split.
  apply (revoke_untouched o u (mkSt (fst x) (rd st))).
Qed.

(* --------------------------------------------------------------------- *)
(** *** What the read-back writes, and the owner the deferred revoke names *)

Lemma owner_trans (d1 d2 d3 : ResourceData) :
  Get dbOwnerAttr d2 = Get dbOwnerAttr d1 ->
  Get dbOwnerAttr d3 = Get dbOwnerAttr d2 ->
  Get dbOwnerAttr d3 = Get dbOwnerAttr d1.
Proof. congruence. Qed.

Lemma gated_reads_keep_owner c i :
  relates (fun d d' => Get dbOwnerAttr d' = Get dbOwnerAttr d)
    (check (readAllowConns S c i) (fun e => e)
       (check (readIsTemplate S c i) (fun e => e) (ret None))).
Proof.
  unfold readAllowConns, readIsTemplate.
  repeat first
    [ relates_step (fun d : ResourceData => eq_refl (Get dbOwnerAttr d)) owner_trans
    | apply relates_update; intros d; reflexivity ].
Qed.

(** When the two core queries return rows, the owner [d] holds after
    the read-back is the owner the catalog reported. *)
Lemma ReadImpl_owner c (st : St S) (n o e co ct ts : string) (l : Z) :
  let q := [VString (rd_id (rd st))] in
  let x1 := db_queryRow S (world st) identitySQL q in
  let x2 := db_queryRow S (fst x1) (dbSQLFmt coreColumns) q in
  snd x1 = Row [VString n; VString o] ->
  snd x2 = Row [VString e; VString co; VString ct; VString ts; VInt l] ->
  Get dbOwnerAttr (rd (final (ReadImpl c st))) = o.
Proof.
  intros q x1 x2 H1 H2.
  unfold resourcePostgreSQLDatabaseReadImpl.
  rewrite bind_getData_run.
  rewrite bind_run, QueryRow_run. projections. fold q x1. rewrite H1.
  cbn [scan_string_string].
  rewrite bind_run, QueryRow_run. projections. fold x2. rewrite H2.
  cbn [scan_core].
  rewrite !bind_update_run, bind_getData_run, bind_update_run.
  rewrite (gated_reads_keep_owner c (rd_id (rd st))). reflexivity.
Qed.

(** X11.  The revoke that Create defers reads the owner from [d] when
    it runs, after the read-back.  When the grant and the CREATE
    DATABASE succeed and the two core queries return rows, the revoke at
    the end of Create is the revoke of the owner that the catalog
    reported, not of the owner that was granted. *)
Theorem create_revokes_owner_read_back
  (c : Client) (st : St S) (n o' e co ct ts : string) (l : Z) :
  let o := Get dbOwnerAttr (rd st) in
  let u := config_Username c in
  let sql := createSQL pqQuoteLiteral c (rd st) in
  let g := grantRoleMembership S o u st in
  let x := db_exec S (world (final g)) sql [] in
  let q := [VString (Get dbNameAttr (rd st))] in
  let x1 := db_queryRow S (fst x) identitySQL q in
  let x2 := db_queryRow S (fst x1) (dbSQLFmt coreColumns) q in
  let back := ReadImpl c (mkSt (fst x) (SetId (Get dbNameAttr (rd st)) (rd st))) in
  result g = None ->
  snd x = None ->
  snd x1 = Row [VString n; VString o'] ->
  snd x2 = Row [VString e; VString co; VString ct; VString ts; VInt l] ->
  events (Create c st) =
    (events g ++ EvExec SCreate sql [] None
       :: events back ++ events (revokeRoleMembership S o' u (final back)))%list.
Proof.
  intros o u sql g x q x1 x2 back Hg Hx H1 H2.
  rewrite Create_run. cbn zeta. fold o u sql g x back. rewrite Hg, Hx.
  rewrite deferredRevoke_run. projections.
  subst back.
  rewrite (ReadImpl_owner c (mkSt (fst x) (SetId (Get dbNameAttr (rd st)) (rd st)))
             n o' e co ct ts l H1 H2).
  reflexivity.
Qed.

Lemma allowConns_trans (d1 d2 d3 : ResourceData) :
  Get dbAllowConnsAttr d2 = Get dbAllowConnsAttr d1 ->
  Get dbAllowConnsAttr d3 = Get dbAllowConnsAttr d2 ->
  Get dbAllowConnsAttr d3 = Get dbAllowConnsAttr d1.
Proof. congruence. Qed.

Lemma isTemplate_trans (d1 d2 d3 : ResourceData) :
  Get dbIsTemplateAttr d2 = Get dbIsTemplateAttr d1 ->
  Get dbIsTemplateAttr d3 = Get dbIsTemplateAttr d2 ->
  Get dbIsTemplateAttr d3 = Get dbIsTemplateAttr d1.
Proof. congruence. Qed.

(** X12.  On a server without ALLOW_CONNECTIONS a Read, whatever the
    store answers, leaves the allow-connections value of [d] as it was
    and never asks the catalog for it; the same holds for is-template on
    a server without IS_TEMPLATE. *)
Theorem read_leaves_unsupported_attributes (c : Client) (st : St S) :
  (featureSupported c featureDBAllowConnections = false ->
   Get dbAllowConnsAttr (rd (final (Read c st))) = Get dbAllowConnsAttr (rd st) /\
   Forall (fun e => querySite e <> Some QAllowConns) (events (Read c st))) /\
  (featureSupported c featureDBIsTemplate = false ->
   Get dbIsTemplateAttr (rd (final (Read c st))) = Get dbIsTemplateAttr (rd st) /\
   Forall (fun e => querySite e <> Some QIsTemplate) (events (Read c st))).
Proof.
  unfold resourcePostgreSQLDatabaseRead. split; intros Hf; split.
  - revert st.
    change (relates (fun d d' => Get dbAllowConnsAttr d' = Get dbAllowConnsAttr d)
              (ReadImpl c)).
    unfold resourcePostgreSQLDatabaseReadImpl, readAllowConns, readIsTemplate.
    rewrite Hf.
    repeat first
      [ relates_step (fun d : ResourceData => eq_refl (Get dbAllowConnsAttr d))
                     allowConns_trans
      | apply relates_update; intros d; reflexivity ].
  - revert st.
    change (emitsOnly (fun e => querySite e <> Some QAllowConns) (ReadImpl c)).
    unfold resourcePostgreSQLDatabaseReadImpl, readAllowConns, readIsTemplate.
    rewrite Hf. repeat emits_step; discriminate.
  - revert st.
    change (relates (fun d d' => Get dbIsTemplateAttr d' = Get dbIsTemplateAttr d)
              (ReadImpl c)).
    unfold resourcePostgreSQLDatabaseReadImpl, readAllowConns, readIsTemplate.
    rewrite Hf.
    repeat first
      [ relates_step (fun d : ResourceData => eq_refl (Get dbIsTemplateAttr d))
                     isTemplate_trans
      | apply relates_update; intros d; reflexivity ].
  - revert st.
    change (emitsOnly (fun e => querySite e <> Some QIsTemplate) (ReadImpl c)).
    unfold resourcePostgreSQLDatabaseReadImpl, readAllowConns, readIsTemplate.
    rewrite Hf. repeat emits_step; discriminate.
Qed.

(* --------------------------------------------------------------------- *)
(** *** The outcome of Delete *)

Lemma clearTemplate_emits c (d : ResourceData) :
  emitsOnly (fun e => execSite e = Some SIsTemplate)
    (if featureSupported c featureDBIsTemplate then
       if Get dbIsTemplateAttr d then
         doSetDBIsTemplate S c (Get dbNameAttr d) false
       else ret None
     else ret None).
Proof.
  repeat emits_step. apply doSetDBIsTemplate_emits.
Qed.

Lemma clearTemplate_untouched c (d : ResourceData) :
  relates (fun d0 d' => d' = d0)
    (if featureSupported c featureDBIsTemplate then
       if Get dbIsTemplateAttr d then
         doSetDBIsTemplate S c (Get dbNameAttr d) false
       else ret None
     else ret None).
Proof.
  repeat untouched_step. apply doSetDBIsTemplate_untouched.
Qed.

(** X13.  Delete returns nil exactly when its DROP DATABASE was
    executed with success: then the DROP is its last call, every call
    before it is an IS_TEMPLATE statement, and the identifier is
    cleared.  When Delete returns an error, [d] is as it was, the
    identifier included, and the log holds no successful DROP. *)
Theorem delete_clears_identifier_only_after_drop (c : Client) (st : St S) :
  let run := Delete c st in
  let dropped := EvExec SDrop (dropSQL (Get dbNameAttr (rd st))) [] None in
  (result run = None ->
   rd (final run) = SetId "" (rd st) /\
   exists before,
     events run = (before ++ [dropped])%list /\
     Forall (fun e => execSite e = Some SIsTemplate) before) /\
  (forall e, result run = Some e ->
   rd (final run) = rd st /\ ~ In dropped (events run)).
Proof.
  intros run dropped. subst run.
  unfold resourcePostgreSQLDatabaseDelete. rewrite bind_getData_run.
  set (clear := if featureSupported c featureDBIsTemplate then _ else _).
  assert (Hc1 : Forall (fun e => execSite e = Some SIsTemplate) (events (clear st)))
    by apply (clearTemplate_emits c (rd st)).
  assert (Hc2 : rd (final (clear st)) = rd st)
    by apply (clearTemplate_untouched c (rd st) st).
  set (st1 := final (clear st)) in *.
  assert (Hs1 : Forall (fun e => execSite e = Some SIsTemplate)
                  (events (setDBIsTemplate S c st1)))
    by apply setDBIsTemplate_emits.
  assert (Hs2 : rd (final (setDBIsTemplate S c st1)) = rd st).
  { rewrite (setDBIsTemplate_untouched c st1). exact Hc2. }
  set (st2 := final (setDBIsTemplate S c st1)) in *.
  assert (notDropped : forall l, Forall (fun e => execSite e = Some SIsTemplate) l ->
                                 ~ In dropped l).
  { intros l Hl Hin. rewrite Forall_forall in Hl. specialize (Hl _ Hin).
    discriminate Hl. }
  match goal with
  | |- context [check clear ?wr ?k st] =>
      destruct (check_cases _ clear wr k st) as [(e1 & _ & ->) | (_ & ->)]
  end; projections.
  { split; [discriminate|]. intros e _. split; [exact Hc2 | exact (notDropped _ Hc1)]. }
  fold st1.
  match goal with
  | |- context [check (setDBIsTemplate S c) ?wr ?k st1] =>
      destruct (check_cases _ (setDBIsTemplate S c) wr k st1)
        as [(e2 & _ & ->) | (_ & ->)]
  end; projections.
  { split; [discriminate|]. intros e _. split; [exact Hs2|].
    intros Hin. apply in_app_or in Hin as [Hin | Hin];
      [exact (notDropped _ Hc1 Hin) | exact (notDropped _ Hs1 Hin)]. }
  fold st2. rewrite bind_run, Exec_run. projections.
  destruct (snd (db_exec S (world st2) (dropSQL (Get dbNameAttr (rd st))) []))
    as [msg|]; projections.
  - split; [discriminate|]. intros e _. split; [exact Hs2|].
    intros Hin. apply in_app_or in Hin as [Hin | Hin];
      [exact (notDropped _ Hc1 Hin)|].
    apply in_app_or in Hin as [Hin | [Hin | []]];
      [exact (notDropped _ Hs1 Hin) | discriminate Hin].
  - rewrite bind_update_run. unfold ret. projections. split; [| discriminate].
    intros _. split; [now rewrite Hs2|].
    exists (events (clear st) ++ events (setDBIsTemplate S c st1))%list.
    split; [now rewrite app_assoc | apply Forall_app; split; assumption].
Qed.

(* --------------------------------------------------------------------- *)
(** *** Exists *)


(* --------------------------------------------------------------------- *)
(** *** The text of CREATE DATABASE *)

Lemma templateClause_shape (d : ResourceData) :
  exists t, templateClause d = " TEMPLATE " ++ t /\
            (Get dbTemplateAttr d = "" -> t = "template0").
Proof.
  unfold templateClause, GetOk, Get.
  destruct (dbTemplateAttr (rd_set d) =? "")%string eqn:E; cbn [negb andb].
  - eexists. split; reflexivity.
  - apply String.eqb_neq in E.
    destruct (isDefault (dbTemplateAttr (rd_set d)));
      eexists; (split; [reflexivity | intros H; contradiction]).
Qed.

Lemma encodingClause_shape (d : ResourceData) :
  exists t, encodingClause pqQuoteLiteral d = " ENCODING " ++ t /\
            (Get dbEncodingAttr d = "" -> t = "'UTF8'").
Proof.
  unfold encodingClause, GetOk, Get.
  destruct (dbEncodingAttr (rd_set d) =? "")%string eqn:E; cbn [negb andb].
  - eexists. split; reflexivity.
  - apply String.eqb_neq in E.
    destruct (isDefault (dbEncodingAttr (rd_set d)));
      eexists; (split; [reflexivity | intros H; contradiction]).
Qed.

Lemma collationClause_shape (d : ResourceData) :
  exists t, collationClause pqQuoteLiteral d = " LC_COLLATE " ++ t /\
            (Get dbCollationAttr d = "" -> t = "'C'").
Proof.
  unfold collationClause, GetOk, Get.
  destruct (dbCollationAttr (rd_set d) =? "")%string eqn:E; cbn [negb andb].
  - eexists. split; reflexivity.
  - apply String.eqb_neq in E.
    destruct (isDefault (dbCollationAttr (rd_set d)));
      eexists; (split; [reflexivity | intros H; contradiction]).
Qed.

Lemma ctypeClause_shape (d : ResourceData) :
  exists t, ctypeClause pqQuoteLiteral d = " LC_CTYPE " ++ t /\
            (Get dbCTypeAttr d = "" -> t = "'C'").
Proof.
  unfold ctypeClause, GetOk, Get.
  destruct (dbCTypeAttr (rd_set d) =? "")%string eqn:E; cbn [negb andb].
  - eexists. split; reflexivity.
  - apply String.eqb_neq in E.
    destruct (isDefault (dbCTypeAttr (rd_set d)));
      eexists; (split; [reflexivity | intros H; contradiction]).
Qed.

Lemma ownerClause_shape c (d : ResourceData) :
  exists t, ownerClause c d = " OWNER " ++ t /\
            (Get dbOwnerAttr d = "" -> t = QuoteIdentifier (config_Username c)).
Proof.
  unfold ownerClause, GetOk, Get.
  destruct (dbOwnerAttr (rd_set d) =? "")%string eqn:E; cbn [negb].
  - eexists. split; reflexivity.
  - apply String.eqb_neq in E.
    eexists. split; [reflexivity | intros H; contradiction].
Qed.

(** X15.  The statement Create builds never leaves the owner, the
    template, the encoding, the collation or the character
    classification to the server: the text always carries, in this
    order after the database name, an OWNER, a TEMPLATE, an ENCODING,
    an LC_COLLATE and an LC_CTYPE clause.  For an attribute left unset
    the clause holds the connecting user, [template0], ['UTF8'], ['C']
    and ['C']; an unset tablespace gives no TABLESPACE clause. *)
Theorem create_statement_always_carries_clauses (c : Client) (d : ResourceData) :
  exists o t e co ct rest,
    createSQL pqQuoteLiteral c d =
      "CREATE DATABASE " ++ QuoteIdentifier (Get dbNameAttr d)
        ++ " OWNER " ++ o ++ " TEMPLATE " ++ t ++ " ENCODING " ++ e
        ++ " LC_COLLATE " ++ co ++ " LC_CTYPE " ++ ct ++ rest /\
    (Get dbOwnerAttr d = "" -> o = QuoteIdentifier (config_Username c)) /\
    (Get dbTemplateAttr d = "" -> t = "template0") /\
    (Get dbEncodingAttr d = "" -> e = "'UTF8'") /\
    (Get dbCollationAttr d = "" -> co = "'C'") /\
    (Get dbCTypeAttr d = "" -> ct = "'C'") /\
    (Get dbTablespaceAttr d = "" ->
     rest = allowConnsClause c d ++ connLimitClause d ++ isTemplateClause c d).
Proof.
  destruct (ownerClause_shape c d) as (o & Ho & Ho').
  destruct (templateClause_shape d) as (t & Ht & Ht').
  destruct (encodingClause_shape d) as (e & He & He').
  destruct (collationClause_shape d) as (co & Hco & Hco').
  destruct (ctypeClause_shape d) as (ct & Hct & Hct').
  exists o, t, e, co, ct,
    (tablespaceClause d ++ allowConnsClause c d ++ connLimitClause d
       ++ isTemplateClause c d).
  repeat split; try assumption.
  - unfold createSQL. rewrite Ho, Ht, He, Hco, Hct.
    rewrite !append_assoc. reflexivity.
  - intros H. unfold tablespaceClause, GetOk. unfold Get in H. rewrite H.
    reflexivity.
Qed.

(* --------------------------------------------------------------------- *)
(** *** Grant and revoke, side by side *)

(** X16.  The revoke executes a statement exactly when the grant for the
    same owner and user does, namely when the owner is neither empty nor
    the connecting user.  Unlike the grant, which turns the
    duplicate-key message into nil, the revoke returns an error for
    every refusal of the store: it returns nil exactly when it executed
    nothing or its REVOKE succeeded. *)
Theorem revoke_mirrors_grant (o u : string) (st st' : St S) :
  (events (grantRoleMembership S o u st) = [] <-> (o = "" \/ o = u)) /\
  (events (revokeRoleMembership S o u st') = [] <-> (o = "" \/ o = u)) /\
  (result (revokeRoleMembership S o u st') = None <->
   (o = "" \/ o = u \/ snd (db_exec S (world st') (revokeSQL o u) []) = None)).
Proof.
  clear pqQuoteLiteral.
  destruct (String.eqb_spec o "") as [-> | Ho].
  { rewrite (grant_noop S "" u st), (revoke_noop S "" u st') by auto.
    projections. intuition. }
  destruct (String.eqb_spec o u) as [-> | Hu].
  { rewrite (grant_noop S u u st), (revoke_noop S u u st') by auto.
    projections. intuition. }
  rewrite (grant_run o u st Ho Hu), (revoke_run o u st' Ho Hu). projections.
  repeat split; try discriminate; try (intros [H | H]; contradiction).
  - destruct (snd (db_exec S (world st') (revokeSQL o u) [])); [discriminate | auto].
  - intros [H | [H | H]]; try contradiction. now rewrite H.
Qed.

(* --------------------------------------------------------------------- *)
(** *** A Read that fails on a core query *)

Lemma readAllowConns_error c i (st : St S) e :
  result (readAllowConns S c i st) = Some e ->
  exists inner,
    e = errwrap_Wrapf
          "Error reading ALLOW_CONNECTIONS property for DATABASE: {{err}}" [] inner.
Proof.
  unfold readAllowConns.
  destruct (featureSupported c featureDBAllowConnections); [| discriminate].
  rewrite bind_run, QueryRow_run. projections.
  destruct (scan_bool _) as [e0 | b].
  - intros [= <-]. eexists. reflexivity.
  - rewrite bind_update_run. discriminate.
Qed.

Lemma readIsTemplate_error c i (st : St S) e :
  result (readIsTemplate S c i st) = Some e ->
  exists inner,
    e = errwrap_Wrapf
          "Error reading IS_TEMPLATE property for DATABASE: {{err}}" [] inner.
Proof.
  unfold readIsTemplate.
  destruct (featureSupported c featureDBIsTemplate); [| discriminate].
  rewrite bind_run, QueryRow_run. projections.
  destruct (scan_bool _) as [e0 | b].
  - intros [= <-]. eexists. reflexivity.
  - rewrite bind_update_run. discriminate.
Qed.

(** X17.  When Read returns the error "Error reading database", that
    is when one of the two core queries failed with something other than
    no-rows, nothing has been written to [d]: the attributes and the
    identifier are as they were, and at most the two core queries were
    made. *)
Theorem read_core_failure_writes_nothing (c : Client) (st : St S) (e : error) :
  result (Read c st) = Some (wrapRead e) ->
  rd (final (Read c st)) = rd st /\
  (length (events (Read c st)) <= 2)%nat /\
  Forall isQuery (events (Read c st)).
Proof.
  unfold resourcePostgreSQLDatabaseRead. intros Hres.
  split; [| split; [| apply ReadImpl_emits_queries]]; revert Hres;
    unfold resourcePostgreSQLDatabaseReadImpl;
    rewrite bind_getData_run;
    rewrite bind_run, QueryRow_run; projections;
    (destruct (scan_string_string _) as [e1 | [a b]];
     [ destruct (isErrNoRows e1);
       [ rewrite bind_update_run; discriminate
       | intros _; cbn; first [reflexivity | lia] ]
     | ]);
    rewrite bind_run, QueryRow_run; projections;
    (destruct (scan_core _) as [e2 | [[[[en co] ct] ts] l]];
     [ destruct (isErrNoRows e2);
       [ rewrite bind_update_run; discriminate
       | intros _; cbn; first [reflexivity | lia] ]
     | ]);
    rewrite !bind_update_run, bind_getData_run, bind_update_run;
    rewrite !check_result;
    match goal with
    | |- context [result (readAllowConns S c ?i ?s)] =>
        destruct (result (readAllowConns S c i s)) as [ea|] eqn:Ea;
          [ apply readAllowConns_error in Ea as [inner ->]; discriminate |]
    end;
    match goal with
    | |- context [result (readIsTemplate S c ?i ?s)] =>
        destruct (result (readIsTemplate S c i s)) as [ei|] eqn:Ei;
          [ apply readIsTemplate_error in Ei as [inner ->]; discriminate |]
    end;
    discriminate.
Qed.

(* --------------------------------------------------------------------- *)
(** *** The rename and the ownership change of one Update *)

(** C5.  In an Update in which the name and the owner both differ from
    the prior state, every ALTER ... OWNER TO statement in the log names
    the database by its new name, and the rename statement, executed
    with success, is the first call of the log, before it.  When the
    store accepts the rename and the grant does not fail, the ownership
    statement is executed: the log is the rename, the calls of the
    grant, the ALTER ... OWNER TO on the new name, and what follows. *)
Theorem update_renames_before_owner
  (c : Client) (id : string) (old new : Attrs) (w : World S) :
  dbNameAttr old <> dbNameAttr new ->
  dbOwnerAttr old <> dbOwnerAttr new ->
  let run := Update c (mkSt w (resourceData id old new)) in
  let renameText :=
    "ALTER DATABASE " ++ QuoteIdentifier (dbNameAttr old)
      ++ " RENAME TO " ++ QuoteIdentifier (dbNameAttr new) in
  let ownerText :=
    "ALTER DATABASE " ++ QuoteIdentifier (dbNameAttr new)
      ++ " OWNER TO " ++ QuoteIdentifier (dbOwnerAttr new) in
  let renamed := db_exec S w renameText [] in
  let granted :=
    grantRoleMembership S (dbOwnerAttr new) (config_Username c)
      (mkSt (fst renamed) (SetId (dbNameAttr new) (resourceData id old new))) in
  (forall pre ev post,
     events run = (pre ++ ev :: post)%list ->
     execSite ev = Some SOwner ->
     ev_sql ev = ownerText /\
     exists pre', pre = EvExec SRename renameText [] None :: pre') /\
  (dbNameAttr new <> "" ->
   dbOwnerAttr new <> "" ->
   snd renamed = None ->
   result granted = None ->
   exists a rest,
     events run =
       (EvExec SRename renameText [] None
          :: events granted ++ EvExec SOwner ownerText [] a :: rest)%list).
Proof.
  intros Hname Howner run renameText ownerText renamed granted. subst run.
  set (st := mkSt w (resourceData id old new)).
  assert (Hch : HasChange_string dbNameAttr (rd st) = true).
  { unfold HasChange_string; simpl. apply negb_true_iff, String.eqb_neq, Hname. }
  pose proof (setDBName_changed S st Hch) as Hrun. cbn zeta in Hrun.
  simpl rd_state in Hrun; simpl rd_diff in Hrun.
  change (renameSQL (dbNameAttr old) (dbNameAttr new)) with renameText in Hrun.
  change (db_exec S (world st) renameText []) with renamed in Hrun.
  split.
  - intros pre ev post Hev Hsite. split.
    + pose proof (update_emits_owner_statement S c st) as HF.
      rewrite Hev in HF. apply Forall_app in HF as [_ HF].
      apply Forall_inv in HF. exact (HF Hsite).
    + unfold resourcePostgreSQLDatabaseUpdate, settersBeforeAllowConns in Hev.
      destruct (dbNameAttr new =? "")%string;
        [| destruct (snd renamed) as [msg|]];
        rewrite (check_run _ _ _ _ _ _ _ _ Hrun) in Hev;
        cbn [result final events fst snd app] in Hev;
        destruct pre as [| x pre]; try discriminate Hev;
        injection Hev as Hx Hrest; subst;
        try discriminate Hsite;
        try (destruct pre; discriminate Hrest).
      eexists. reflexivity.
  - intros Hn Ho Hren Hg.
    apply String.eqb_neq in Hn. rewrite Hn, Hren in Hrun.
    unfold resourcePostgreSQLDatabaseUpdate, settersBeforeAllowConns.
    rewrite (check_run _ _ _ _ _ _ _ _ Hrun). projections.
    set (st1 := mkSt (fst renamed) (SetId (dbNameAttr new) (rd st))).
    assert (Hch1 : HasChange_string dbOwnerAttr (rd st1) = true).
    { unfold HasChange_string; simpl. apply negb_true_iff, String.eqb_neq, Howner. }
    pose proof (setDBOwner_run c st1 Hch1 Ho) as Hrun1. cbn zeta in Hrun1.
    change (grantRoleMembership S (Get dbOwnerAttr (rd st1)) (config_Username c) st1)
      with granted in Hrun1.
    rewrite Hg in Hrun1.
    change (ownerSQL (Get dbNameAttr (rd st1)) (Get dbOwnerAttr (rd st1)))
      with ownerText in Hrun1.
    rewrite (check_run _ _ _ _ _ _ _ _ Hrun1).
    match goal with
    | |- context [snd ?x] =>
        match x with
        | db_exec S _ ownerText [] => destruct (snd x)
        end
    end; projections; rewrite <- ?app_assoc; cbn [app];
      eexists _, _; reflexivity.
Qed.

(* --------------------------------------------------------------------- *)
(** *** The connection limit in Update and in Create *)

Lemma settersBeforeConnLimit_keeps c : keepsAttrs (settersBeforeConnLimit S c).
Proof.
  unfold settersBeforeConnLimit.
  repeat keeps_step;
    auto using setDBName_keeps, setDBOwner_keeps, setDBTablespace_keeps.
Qed.

Lemma settersBeforeConnLimit_sites c :
  emitsOnly (notSite SConnLimit) (settersBeforeConnLimit S c).
Proof.
  clear pqQuoteLiteral.
  unfold settersBeforeConnLimit. repeat emits_step.
  - eapply emitsOnly_weaken; [| apply setDBName_emits].
    intros e He. unfold notSite. congruence.
  - eapply emitsOnly_weaken; [| apply setDBOwner_emits].
    intros e He. cbv beta in He. unfold notSite. intuition congruence.
  - eapply emitsOnly_weaken; [| apply setDBTablespace_emits].
    intros e He. unfold notSite. congruence.
Qed.

Lemma update_when_early_setter_fails c (st : St S) e :
  result (settersBeforeConnLimit S c st) = Some e ->
  Update c st = settersBeforeConnLimit S c st.
Proof.
  unfold resourcePostgreSQLDatabaseUpdate, settersBeforeConnLimit,
    settersBeforeAllowConns.
  revert st e.
  do 3 (intros st e; apply check_agree; clear st e).
  intros st e H. discriminate H.
Qed.

Lemma update_when_early_setters_succeed c (st : St S) :
  let rest := check (setDBConnLimit S) same
                (check (setDBAllowConns S c) same
                   (check (setDBIsTemplate S c) same (ReadImpl c))) in
  result (settersBeforeConnLimit S c st) = None ->
  Update c st =
    (result (rest (final (settersBeforeConnLimit S c st))),
     final (rest (final (settersBeforeConnLimit S c st))),
     (events (settersBeforeConnLimit S c st)
        ++ events (rest (final (settersBeforeConnLimit S c st))))%list).
Proof.
  intros rest.
  unfold resourcePostgreSQLDatabaseUpdate, settersBeforeConnLimit,
    settersBeforeAllowConns.
  revert st.
  do 3 apply check_extends.
  intros st _. projections. apply triple_eta.
Qed.

Lemma after_connLimit_sites c :
  emitsOnly (notSite SConnLimit)
    (check (setDBAllowConns S c) same
       (check (setDBIsTemplate S c) same (ReadImpl c))).
Proof.
  clear pqQuoteLiteral.
  repeat emits_step.
  - eapply emitsOnly_weaken; [| apply setDBAllowConns_emits].
    intros e He. unfold notSite. congruence.
  - eapply emitsOnly_weaken; [| apply setDBIsTemplate_emits].
    intros e He. unfold notSite. congruence.
  - eapply emitsOnly_weaken; [| apply ReadImpl_emits_queries].
    intros e. apply notSite_query.
Qed.

(** C7, as the code has it.  In Update, every ALTER ... CONNECTION LIMIT
    statement has the text ALTER DATABASE <name> CONNECTION LIMIT = $1,
    built from the database name alone, and binds the limit as its only
    parameter; an Update of a database of the same name has the same
    text, whatever its limit.  [setDBConnLimit] executes exactly that
    statement when the limit has changed, and Update executes it when
    the limit has changed and none of the three setters before it has
    failed; when the limit has not changed or one of them has failed,
    Update executes no such statement.  In Create, the CREATE DATABASE
    statement, executed when the grant has not failed, binds no
    parameter: its text holds the clause [CONNECTION LIMIT] followed by
    the limit in decimal. *)
Theorem connection_limit_bound_in_update_formatted_in_create
  (c : Client) (st : St S) :
  let name := Get dbNameAttr (rd st) in
  let limit := Get dbConnLimitAttr (rd st) in
  let limitText :=
    "ALTER DATABASE " ++ QuoteIdentifier name ++ " CONNECTION LIMIT = $1" in
  let createText := createSQL pqQuoteLiteral c (rd st) in
  Forall (fun e => execSite e = Some SConnLimit ->
                   ev_sql e = limitText /\ ev_args e = [VInt limit])
         (events (Update c st)) /\
  (forall st' : St S, Get dbNameAttr (rd st') = name ->
     Forall (fun e => execSite e = Some SConnLimit -> ev_sql e = limitText)
            (events (Update c st'))) /\
  (HasChange_int dbConnLimitAttr (rd st) = true ->
   exists r,
     events (setDBConnLimit S st) = [EvExec SConnLimit limitText [VInt limit] r]) /\
  (HasChange_int dbConnLimitAttr (rd st) = true ->
   result (settersBeforeConnLimit S c st) = None ->
   exists r,
     In (EvExec SConnLimit limitText [VInt limit] r) (events (Update c st))) /\
  (HasChange_int dbConnLimitAttr (rd st) = false \/
   result (settersBeforeConnLimit S c st) <> None ->
   Forall (notSite SConnLimit) (events (Update c st))) /\
  Forall (fun e => execSite e = Some SCreate ->
                   ev_sql e = createText /\ ev_args e = [])
         (events (Create c st)) /\
  (result (grantRoleMembership S (Get dbOwnerAttr (rd st)) (config_Username c) st)
     = None ->
   exists r, In (EvExec SCreate createText [] r) (events (Create c st))) /\
  (exists before after,
     createText = before ++ " CONNECTION LIMIT " ++ fmt_int limit ++ after).
Proof.
  intros name limit limitText createText.
  assert (Hshape : forall s : St S,
    Forall (fun e => execSite e = Some SConnLimit ->
                     ev_sql e = "ALTER DATABASE " ++ QuoteIdentifier (Get dbNameAttr (rd s))
                                  ++ " CONNECTION LIMIT = $1" /\
                     ev_args e = [VInt (Get dbConnLimitAttr (rd s))])
           (events (Update c s))).
  { intros s. eapply Forall_impl; [| apply (update_emits_connLimit_statement S c s)].
    intros e He Hs. exact (He Hs). }
  pose proof (settersBeforeConnLimit_keeps c st) as (_ & _ & Hset).
  set (st1 := final (settersBeforeConnLimit S c st)) in *.
  assert (Hname : Get dbNameAttr (rd st1) = name)
    by (unfold name, Get; now rewrite Hset).
  assert (Hlimit : Get dbConnLimitAttr (rd st1) = limit)
    by (unfold limit, Get; now rewrite Hset).
  assert (Hch1 : HasChange_int dbConnLimitAttr (rd st1)
                 = HasChange_int dbConnLimitAttr (rd st)).
  { destruct (settersBeforeConnLimit_keeps c st) as (H1 & H2 & _).
    fold st1 in H1, H2. unfold HasChange_int. now rewrite H1, H2. }
  split; [apply Hshape|].
  split.
  { intros st' Hn. eapply Forall_impl; [| apply (Hshape st')].
    intros e He Hs. cbv beta in He. rewrite Hn in He. exact (proj1 (He Hs)). }
  split.
  { intros H. eexists. now apply setDBConnLimit_changed. }
  split.
  { intros Hch Hres.
    rewrite (update_when_early_setters_succeed c st Hres). cbn zeta. projections.
    fold st1. rewrite <- Hch1 in Hch.
    pose proof (setDBConnLimit_changed S st1 Hch) as Hev. cbn zeta in Hev.
    rewrite Hname, Hlimit in Hev.
    change (connLimitSQL name) with limitText in Hev.
    eexists. apply in_or_app. right.
    match goal with
    | |- In _ (events (check ?m ?wr ?k ?s)) =>
        destruct (check_cases _ m wr k s) as [(e & _ & ->) | (_ & ->)]
    end; projections; rewrite Hev; [| apply in_or_app; left]; now left. }
  split.
  { intros Hno.
    destruct (result (settersBeforeConnLimit S c st)) as [e|] eqn:Hres.
    - rewrite (update_when_early_setter_fails c st e Hres).
      apply settersBeforeConnLimit_sites.
    - destruct Hno as [Hch | Hno]; [| now contradiction Hno].
      rewrite (update_when_early_setters_succeed c st Hres). cbn zeta. projections.
      fold st1. apply Forall_app. split; [apply settersBeforeConnLimit_sites|].
      rewrite <- Hch1 in Hch.
      rewrite check_skip by now apply setDBConnLimit_unchanged.
      apply after_connLimit_sites. }
  split; [apply create_emits_create_statement|].
  split.
  { intros Hg. rewrite Create_run. cbn zeta. rewrite Hg.
    match goal with
    | |- context [match snd ?x with _ => _ end] => destruct (snd x)
    end; projections; eexists; apply in_or_app; right; now left. }
  unfold createText, createSQL, connLimitClause.
  exists ("CREATE DATABASE " ++ QuoteIdentifier (Get dbNameAttr (rd st))
            ++ ownerClause c (rd st) ++ templateClause (rd st)
            ++ encodingClause pqQuoteLiteral (rd st)
            ++ collationClause pqQuoteLiteral (rd st)
            ++ ctypeClause pqQuoteLiteral (rd st)
            ++ tablespaceClause (rd st) ++ allowConnsClause c (rd st)),
         (isTemplateClause c (rd st)).
  rewrite !append_assoc. reflexivity.
Qed.

End Further.


(* ===================================================================== *)
(** ** The theorems at the sample inputs *)
(* ===================================================================== *)

Section Runs.
Import Samples.

Local Abbreviation Create := (resourcePostgreSQLDatabaseCreate quoteLiteral).
Local Abbreviation Update := resourcePostgreSQLDatabaseUpdate.
Local Abbreviation Delete := resourcePostgreSQLDatabaseDelete.
Local Abbreviation Read := resourcePostgreSQLDatabaseRead.

(** C1.  With a store that executes the GRANT and the CREATE DATABASE
    and refuses the REVOKE, Create returns [nil]: the failure of the
    revoke is in the log of calls and not in the result.  The same holds
    for [setDBOwner], and so for Update, when the ALTER ... OWNER TO
    succeeds and the REVOKE is refused. *)
Theorem revoke_failure_is_not_returned :
  let refused := Some "pq: permission denied to revoke role" in
  let create := Create (revokeRefusingStore appDbRow) capableClient
                  (start (revokeRefusingStore appDbRow) tt createAppDb) in
  let update := Update (revokeRefusingStore appDbNewOwnerRow) capableClient
                  (start (revokeRefusingStore appDbNewOwnerRow) tt chown) in
  (result create = None /\
   In (EvExec SGrant (grantSQL "app_role" "postgres") [] None) (events create) /\
   In (EvExec SCreate createAppDbSQL [] None) (events create) /\
   In (EvExec SRevoke (revokeSQL "app_role" "postgres") [] refused) (events create)) /\
  (result (setDBOwner (revokeRefusingStore appDbNewOwnerRow) capableClient
             (start (revokeRefusingStore appDbNewOwnerRow) tt chown)) = None /\
   result update = None /\
   In (EvExec SGrant (grantSQL "new_role" "postgres") [] None) (events update) /\
   In (EvExec SOwner (ownerSQL "app_db" "new_role") [] None) (events update) /\
   In (EvExec SRevoke (revokeSQL "new_role" "postgres") [] refused) (events update)).
Proof.
  vm_compute. intuition.
Qed.

Lemma grantRoleMembership_duplicate_or_noop_witness :
  let st := start (memberStore appDbRow) tt createAppDb in
  ("app_role" = "" \/ "app_role" = "postgres" \/
   exists msg,
     snd (db_exec (memberStore appDbRow) (world st) (grantSQL "app_role" "postgres") [])
       = Some msg /\
     Contains msg duplicateKeyMessage = true) /\
  result (grantRoleMembership (memberStore appDbRow) "app_role" "postgres" st) = None /\
  grantRoleMembership (memberStore appDbRow) "postgres" "postgres" st = (None, st, []).
Proof.
  intros st.
  assert (H : "app_role" = "" \/ "app_role" = "postgres" \/
              exists msg,
                snd (db_exec (memberStore appDbRow) (world st)
                       (grantSQL "app_role" "postgres") []) = Some msg /\
                Contains msg duplicateKeyMessage = true).
  { right. right. eexists. split; reflexivity. }
  split; [exact H|]. split.
  - exact (proj1 (grantRoleMembership_duplicate_or_noop
                    (memberStore appDbRow) "app_role" "postgres" st H)).
  - apply (grantRoleMembership_duplicate_or_noop
             (memberStore appDbRow) "postgres" "postgres" st).
    + right. left. reflexivity.
    + right. reflexivity.
Defined.

Lemma create_owner_defaults_to_username_witness :
  let st := start (acceptingStore closedTemplateRow) tt createClosedTemplate in
  Get dbOwnerAttr (rd st) = "" /\
  ownerClause capableClient (rd st) = " OWNER " ++ quoted "postgres" /\
  exists r evs,
    events (Create (acceptingStore closedTemplateRow) capableClient st) =
      EvExec SCreate (createSQL quoteLiteral capableClient (rd st)) [] r :: evs.
Proof.
  intros st.
  assert (H : Get dbOwnerAttr (rd st) = "") by reflexivity.
  pose proof (create_owner_defaults_to_username
                quoteLiteral (acceptingStore closedTemplateRow) capableClient st H)
    as (H1 & _ & H3).
  split; [exact H|]. split; [exact H1 | exact H3].
Defined.

Lemma read_absent_clears_identifier_witness :
  let st := start emptyStore tt unchangedAppDb in
  snd (db_queryRow emptyStore (world st) identitySQL [VString (rd_id (rd st))])
    = NoRows /\
  result (Read emptyStore capableClient st) = None /\
  rd_id (rd (final (Read emptyStore capableClient st))) = "" /\
  sameAttrs (rd st) (rd (final (Read emptyStore capableClient st))) /\
  events (Read emptyStore capableClient st) =
    [EvQuery QIdentity identitySQL [VString "app_db"] NoRows].
Proof.
  intros st.
  assert (H : snd (db_queryRow emptyStore (world st) identitySQL
                     [VString (rd_id (rd st))]) = NoRows) by reflexivity.
  split; [exact H|].
  rewrite (read_absent_clears_identifier emptyStore capableClient st H).
  repeat split.
Defined.

Lemma update_unchanged_executes_nothing_witness :
  let st := start (acceptingStore appDbRow) tt unchangedAppDb in
  unchanged (rd st) /\
  setDBName (acceptingStore appDbRow) st = (None, st, []) /\
  Forall isQuery (events (Update (acceptingStore appDbRow) capableClient st)).
Proof.
  intros st.
  assert (H : unchanged (rd st)) by (repeat split).
  pose proof (update_unchanged_executes_nothing
                (acceptingStore appDbRow) capableClient st H)
    as (H1 & _ & _ & _ & _ & _ & _ & H8).
  split; [exact H|]. split; [exact H1 | exact H8].
Defined.

Lemma update_renames_before_owner_witness :
  let S := acceptingStore appDbRenamedRow in
  let d := resourceData "app_db" appDb appDbRenamed in
  let run := Update S capableClient (mkSt (S:=S) tt d) in
  let renameText :=
    "ALTER DATABASE " ++ quoted "app_db" ++ " RENAME TO " ++ quoted "app_db2" in
  let grantText := "GRANT " ++ quoted "new_role" ++ " TO " ++ quoted "postgres" in
  let ownerText :=
    "ALTER DATABASE " ++ quoted "app_db2" ++ " OWNER TO " ++ quoted "new_role" in
  let pre := [EvExec SRename renameText [] None; EvExec SGrant grantText [] None] in
  let ev := EvExec SOwner ownerText [] None in
  let post := skipn 3 (events run) in
  (dbNameAttr appDb <> dbNameAttr appDbRenamed /\
   dbOwnerAttr appDb <> dbOwnerAttr appDbRenamed /\
   events run = (pre ++ ev :: post)%list /\
   execSite ev = Some SOwner) /\
  (dbNameAttr appDbRenamed <> "" /\
   dbOwnerAttr appDbRenamed <> "" /\
   snd (db_exec S tt renameText []) = None /\
   result (grantRoleMembership S "new_role" "postgres"
             (mkSt (S:=S) tt (SetId "app_db2" d))) = None) /\
  (ev_sql ev = ownerText /\
   exists pre', pre = EvExec SRename renameText [] None :: pre') /\
  (exists a rest,
     events run =
       EvExec SRename renameText [] None
         :: EvExec SGrant grantText [] None
         :: EvExec SOwner ownerText [] a :: rest).
Proof.
  intros S d run renameText grantText ownerText pre ev post.
  assert (H1 : dbNameAttr appDb <> dbNameAttr appDbRenamed) by discriminate.
  assert (H2 : dbOwnerAttr appDb <> dbOwnerAttr appDbRenamed) by discriminate.
  assert (H3 : events run = (pre ++ ev :: post)%list) by (vm_compute; reflexivity).
  assert (H4 : execSite ev = Some SOwner) by reflexivity.
  assert (H5 : dbNameAttr appDbRenamed <> "") by discriminate.
  assert (H6 : dbOwnerAttr appDbRenamed <> "") by discriminate.
  assert (H7 : snd (db_exec S tt renameText []) = None) by reflexivity.
  assert (H8 : result (grantRoleMembership S "new_role" "postgres"
                         (mkSt (S:=S) tt (SetId "app_db2" d))) = None)
    by reflexivity.
  destruct (update_renames_before_owner S capableClient "app_db" appDb appDbRenamed
              tt H1 H2) as [HA HB].
  split; [repeat split; assumption|].
  split; [repeat split; assumption|].
  split; [exact (HA pre ev post H3 H4) | exact (HB H5 H6 H7 H8)].
Defined.

Lemma delete_clears_template_before_drop_witness :
  let S := acceptingStore appDbRow in
  let run := fun new : Attrs =>
    Delete S capableClient
      (mkSt (S:=S) tt (resourceData "app_db" appDbClosedTemplate new)) in
  let clear :=
    EvExec SIsTemplate ("ALTER DATABASE " ++ quoted "app_db" ++ " IS_TEMPLATE $1")
      [VBool false] None in
  let drop := EvExec SDrop ("DROP DATABASE " ++ quoted "app_db") [] None in
  (featureSupported capableClient featureDBIsTemplate = true /\
   dbIsTemplateAttr appDbClosedTemplate = true /\
   dbIsTemplateAttr appDb = false) /\
  (events (run appDbClosedTemplate) = [clear; drop] /\
   result (run appDbClosedTemplate) = None) /\
  (events (run appDb) = [clear; drop] /\
   result (run appDb) = None).
Proof.
  intros S run clear drop.
  assert (H1 : featureSupported capableClient featureDBIsTemplate = true)
    by reflexivity.
  assert (H2 : dbIsTemplateAttr appDbClosedTemplate = true) by reflexivity.
  assert (H3 : dbIsTemplateAttr appDb = false) by reflexivity.
  destruct (delete_clears_template_before_drop
              S capableClient "app_db" appDbClosedTemplate appDbClosedTemplate tt H1 H2)
    as [Hstay Hstay'].
  destruct (delete_clears_template_before_drop
              S capableClient "app_db" appDbClosedTemplate appDb tt H1 H2)
    as [Hgo Hgo'].
  split; [repeat split; assumption|]. split.
  - split; [exact Hstay | exact (proj2 Hstay' (conj eq_refl eq_refl))].
  - split; [exact Hgo | exact (proj2 Hgo' (conj eq_refl eq_refl))].
Defined.

(** Create on a server without the two features, with both gated
    attributes set away from their defaults: the CREATE DATABASE is
    executed without them and Create returns [nil]. *)
Lemma create_without_features_returns_nil :
  let run := Create (acceptingStore closedTemplateRow) oldClient
               (start (acceptingStore closedTemplateRow) tt createClosedTemplate) in
  featureSupported oldClient featureDBAllowConnections = false /\
  featureSupported oldClient featureDBIsTemplate = false /\
  Get dbAllowConnsAttr createClosedTemplate = false /\
  Get dbIsTemplateAttr createClosedTemplate = true /\
  result run = None /\
  In (EvExec SCreate createClosedTemplateSQL [] None) (events run).
Proof.
  vm_compute. intuition.
Qed.

Lemma gated_attribute_without_feature_witness :
  let st := start (acceptingStore appDbRow) tt closeAndTemplate in
  (featureSupported oldClient featureDBAllowConnections = false /\
   HasChange_bool dbAllowConnsAttr (rd st) = true /\
   result (settersBeforeAllowConns (acceptingStore appDbRow) oldClient (ret None) st) = None) /\
  (featureSupported halfClient featureDBIsTemplate = false /\
   HasChange_bool dbIsTemplateAttr (rd st) = true /\
   result (settersBeforeAllowConns (acceptingStore appDbRow) halfClient
             (check (setDBAllowConns (acceptingStore appDbRow) halfClient) same (ret None)) st)
     = None) /\
  result (Update (acceptingStore appDbRow) oldClient st) = Some (unsupportedAllowConns oldClient) /\
  Forall (notSite SAllowConns) (events (Update (acceptingStore appDbRow) oldClient st)) /\
  result (Update (acceptingStore appDbRow) halfClient st)
    = Some (wrapIsTemplate (unsupportedIsTemplate halfClient)) /\
  Forall (notSite SIsTemplate) (events (Update (acceptingStore appDbRow) halfClient st)).
Proof.
  intros st.
  assert (A1 : featureSupported oldClient featureDBAllowConnections = false)
    by reflexivity.
  assert (A2 : HasChange_bool dbAllowConnsAttr (rd st) = true) by reflexivity.
  assert (A3 : result (settersBeforeAllowConns (acceptingStore appDbRow) oldClient
                         (ret None) st) = None) by reflexivity.
  assert (B1 : featureSupported halfClient featureDBIsTemplate = false)
    by reflexivity.
  assert (B2 : HasChange_bool dbIsTemplateAttr (rd st) = true) by reflexivity.
  assert (B3 : result (settersBeforeAllowConns (acceptingStore appDbRow) halfClient
                         (check (setDBAllowConns (acceptingStore appDbRow) halfClient) same
                            (ret None)) st) = None) by reflexivity.
  destruct (gated_attribute_without_feature
              quoteLiteral (acceptingStore appDbRow) oldClient st) as (HA & _ & _).
  destruct (gated_attribute_without_feature
              quoteLiteral (acceptingStore appDbRow) halfClient st) as (_ & HB & _).
  destruct (HA A1) as (_ & _ & _ & HA4 & HA5).
  destruct (HB B1) as (_ & _ & _ & HB4 & HB5).
  split; [repeat split; assumption|].
  split; [repeat split; assumption|].
  split; [exact (proj2 (HA5 A2) A3)|].
  split; [exact HA4|].
  split; [exact (proj2 (HB5 B2) B3) | exact HB4].
Defined.

(** Create with a connection limit of 50: the CREATE DATABASE statement
    is executed with no bound parameter and with the limit written into
    its text. *)
Lemma create_writes_connection_limit_into_text :
  let run := Create (acceptingStore appDbRow) capableClient
               (start (acceptingStore appDbRow) tt createAppDb) in
  Get dbConnLimitAttr createAppDb = 50 /\
  In (EvExec SCreate createAppDbSQL [] None) (events run) /\
  Contains createAppDbSQL " CONNECTION LIMIT 50" = true /\
  ~ limitIsBound 50 (events run).
Proof.
  intros run.
  assert (Hin : In (EvExec SCreate createAppDbSQL [] None) (events run))
    by (vm_compute; intuition).
  split; [reflexivity|]. split; [exact Hin|]. split; [reflexivity|].
  intros H. exact (H _ Hin (or_introl eq_refl)).
Qed.

Lemma connection_limit_bound_in_update_formatted_in_create_witness :
  let S := acceptingStore appDbLimit10 in
  let st := start S tt relimit in
  let limitText :=
    "ALTER DATABASE " ++ quoted "app_db" ++ " CONNECTION LIMIT = $1" in
  let R := alterRefusingStore appDbRow in
  let refused := start R tt renameAndRelimit in
  let C := acceptingStore appDbRow in
  let create := start C tt createAppDb in
  (HasChange_int dbConnLimitAttr (rd st) = true /\
   result (settersBeforeConnLimit S capableClient st) = None /\
   result (settersBeforeConnLimit R capableClient refused) <> None /\
   result (grantRoleMembership C "app_role" "postgres" create) = None) /\
  (exists r,
     events (setDBConnLimit S st) = [EvExec SConnLimit limitText [VInt 10] r]) /\
  (exists r,
     In (EvExec SConnLimit limitText [VInt 10] r) (events (Update S capableClient st))) /\
  Forall (fun e => execSite e = Some SConnLimit ->
                   ev_sql e = limitText /\ ev_args e = [VInt 10])
         (events (Update S capableClient st)) /\
  Forall (notSite SConnLimit) (events (Update R capableClient refused)) /\
  (exists r, In (EvExec SCreate createAppDbSQL [] r) (events (Create C capableClient create))).
Proof.
  intros S st limitText R refused C create.
  assert (H1 : HasChange_int dbConnLimitAttr (rd st) = true) by reflexivity.
  assert (H2 : result (settersBeforeConnLimit S capableClient st) = None)
    by reflexivity.
  assert (H3 : result (settersBeforeConnLimit R capableClient refused) <> None)
    by discriminate.
  assert (H4 : result (grantRoleMembership C (Get dbOwnerAttr (rd create))
                         (config_Username capableClient) create) = None)
    by reflexivity.
  destruct (connection_limit_bound_in_update_formatted_in_create
              quoteLiteral S capableClient st)
    as (A1 & _ & A3 & A4 & _).
  destruct (connection_limit_bound_in_update_formatted_in_create
              quoteLiteral R capableClient refused)
    as (_ & _ & _ & _ & B5 & _).
  destruct (connection_limit_bound_in_update_formatted_in_create
              quoteLiteral C capableClient create)
    as (_ & _ & _ & _ & _ & _ & C7 & _).
  split; [repeat split; assumption|].
  split; [exact (A3 H1)|].
  split; [exact (A4 H1 H2)|].
  split; [exact A1|].
  split; [exact (B5 (or_intror H3)) | exact (C7 H4)].
Defined.

End Runs.

(* ===================================================================== *)
(** ** The further properties at the sample inputs *)
(* ===================================================================== *)

Section FurtherRuns.
Import Samples.

Local Abbreviation Create := (resourcePostgreSQLDatabaseCreate quoteLiteral).
Local Abbreviation Update := resourcePostgreSQLDatabaseUpdate.
Local Abbreviation Delete := resourcePostgreSQLDatabaseDelete.
Local Abbreviation Read := resourcePostgreSQLDatabaseRead.

Lemma update_statements_name_the_database_witness :
  let S := acceptingStore appDbRenamedRow in
  let st := start S tt renameAndChown in
  (HasChange_string dbNameAttr (rd st) = true /\ "app_db2" <> "") /\
  Forall (namesDatabase (rd st)) (events (Update S capableClient st)) /\
  exists r rest,
    events (Update S capableClient st) =
      EvExec SRename (renameSQL "app_db" "app_db2") [] r :: rest /\
    (r <> None -> rest = []).
Proof.
  intros S st.
  assert (H1 : HasChange_string dbNameAttr (rd st) = true) by reflexivity.
  assert (H2 : "app_db2" <> "") by discriminate.
  destruct (update_statements_name_the_database S capableClient st) as [HA HB].
  split; [split; assumption|]. split; [exact HA|].
  exact (proj2 (HB H1) H2).
Defined.

Lemma update_stops_at_first_failing_setter_witness :
  let S := alterRefusingStore appDbRow in
  let st := start S tt renameAndChown in
  let e := errwrap_Wrapf "Error updating database name: {{err}}" []
             (DriverError "pq: must be owner of database") in
  result (allSetters S capableClient st) = Some e /\
  result (Update S capableClient st) = Some e /\
  Forall (fun ev => isExec ev = true) (events (Update S capableClient st)) /\
  length (events (Update S capableClient st)) = 1%nat.
Proof.
  intros S st e.
  assert (H : result (allSetters S capableClient st) = Some e) by reflexivity.
  destruct (update_stops_at_first_failing_setter S capableClient st) as [HA _].
  destruct (HA e H) as (H1 & H2 & H3 & _).
  split; [exact H|]. split; [exact H1|]. split; [exact H3|].
  rewrite H2. reflexivity.
Defined.

Lemma update_reads_back_by_current_identifier_witness :
  let S := acceptingStore appDbRenamedRow in
  let st := start S tt renameAndChown in
  let gone := start emptyStore tt renameAndChown in
  (result (allSetters S capableClient st) = None /\
   result (Update emptyStore capableClient gone) = None) /\
  Forall (fun e => isQuery e -> ev_args e = [VString "app_db2"])
         (events (Update S capableClient st)) /\
  rd_id (rd (final (Update S capableClient st))) = "app_db2" /\
  rd_id (rd (final (Update emptyStore capableClient gone))) = "".
Proof.
  intros S st gone.
  assert (H1 : result (allSetters S capableClient st) = None) by reflexivity.
  assert (H2 : result (Update emptyStore capableClient gone) = None) by reflexivity.
  destruct (update_reads_back_by_current_identifier S capableClient st) as [HA HB].
  destruct (update_reads_back_by_current_identifier emptyStore capableClient gone)
    as [_ HC].
  split; [split; assumption|]. split; [exact HA|].
  split; [exact (HB (or_introl H1)) | exact (HC (or_intror H2))].
Defined.

Lemma setDBOwner_grants_alters_revokes_witness :
  let S := memberStore appDbNewOwnerRow in
  let st := start S tt chown in
  (HasChange_string dbOwnerAttr (rd st) = true /\
   "new_role" <> "" /\ "new_role" <> "postgres" /\
   result (grantRoleMembership S "new_role" "postgres" st) = None) /\
  exists g a v,
    events (setDBOwner S capableClient st) =
      [EvExec SGrant (grantSQL "new_role" "postgres") [] g;
       EvExec SOwner (ownerSQL "app_db" "new_role") [] a;
       EvExec SRevoke (revokeSQL "new_role" "postgres") [] v].
Proof.
  intros S st.
  assert (H1 : HasChange_string dbOwnerAttr (rd st) = true) by reflexivity.
  assert (H2 : Get dbOwnerAttr (rd st) <> "") by discriminate.
  assert (H3 : Get dbOwnerAttr (rd st) <> config_Username capableClient)
    by discriminate.
  assert (H4 : result (grantRoleMembership S (Get dbOwnerAttr (rd st))
                         (config_Username capableClient) st) = None)
    by reflexivity.
  destruct (setDBOwner_grants_alters_revokes S capableClient st H1 H2 H3 H4)
    as (g & a & v & Hev & _).
  split; [repeat split; assumption|].
  exists g, a, v. exact Hev.
Defined.

Lemma setDBOwner_stops_when_grant_fails_witness :
  let S := grantRefusingStore appDbRow in
  let st := start S tt chown in
  let msg := "pq: permission denied to grant role" in
  (HasChange_string dbOwnerAttr (rd st) = true /\
   "new_role" <> "" /\ "new_role" <> "postgres" /\
   snd (db_exec S (world st) (grantSQL "new_role" "postgres") []) = Some msg /\
   Contains msg duplicateKeyMessage = false) /\
  events (setDBOwner S capableClient st) =
    [EvExec SGrant (grantSQL "new_role" "postgres") [] (Some msg)] /\
  rd (final (setDBOwner S capableClient st)) = rd st.
Proof.
  intros S st msg.
  assert (H1 : HasChange_string dbOwnerAttr (rd st) = true) by reflexivity.
  assert (H2 : Get dbOwnerAttr (rd st) <> "") by discriminate.
  assert (H3 : Get dbOwnerAttr (rd st) <> config_Username capableClient)
    by discriminate.
  assert (H4 : snd (db_exec S (world st)
                      (grantSQL (Get dbOwnerAttr (rd st))
                         (config_Username capableClient)) []) = Some msg)
    by reflexivity.
  assert (H5 : Contains msg duplicateKeyMessage = false) by reflexivity.
  rewrite (setDBOwner_stops_when_grant_fails S capableClient st msg H1 H2 H3 H4 H5).
  split; [repeat split; assumption|]. split; reflexivity.
Defined.

Lemma setDBOwner_without_elevation_witness :
  let S := acceptingStore appDbOwnedBySelf in
  let st := start S tt chownToSelf in
  (HasChange_string dbOwnerAttr (rd st) = true /\
   Get dbOwnerAttr (rd st) <> "" /\
   Get dbOwnerAttr (rd st) = config_Username capableClient) /\
  exists a,
    events (setDBOwner S capableClient st) =
      [EvExec SOwner (ownerSQL "app_db" "postgres") [] a].
Proof.
  intros S st.
  assert (H1 : HasChange_string dbOwnerAttr (rd st) = true) by reflexivity.
  assert (H2 : Get dbOwnerAttr (rd st) <> "") by discriminate.
  assert (H3 : Get dbOwnerAttr (rd st) = config_Username capableClient)
    by reflexivity.
  destruct (proj2 (setDBOwner_without_elevation S capableClient st H1) H2 H3)
    as (a & Hev & _).
  split; [repeat split; assumption|]. exists a. exact Hev.
Defined.

Lemma create_failure_still_revokes_witness :
  let S := createRefusingStore appDbRow in
  let st := start S tt createAppDb in
  let msg := "pq: permission denied to create database" in
  (result (grantRoleMembership S "app_role" "postgres" st) = None /\
   snd (db_exec S tt (createSQL quoteLiteral capableClient (rd st)) []) = Some msg) /\
  events (Create S capableClient st) =
    [EvExec SGrant (grantSQL "app_role" "postgres") [] None;
     EvExec SCreate createAppDbSQL [] (Some msg);
     EvExec SRevoke (revokeSQL "app_role" "postgres") [] None] /\
  rd (final (Create S capableClient st)) = rd st.
Proof.
  intros S st msg.
  assert (H1 : result (grantRoleMembership S (Get dbOwnerAttr (rd st))
                         (config_Username capableClient) st) = None)
    by reflexivity.
  assert (H2 : snd (db_exec S
                      (world (final (grantRoleMembership S (Get dbOwnerAttr (rd st))
                                       (config_Username capableClient) st)))
                      (createSQL quoteLiteral capableClient (rd st)) []) = Some msg)
    by reflexivity.
  destruct (create_failure_still_revokes quoteLiteral S capableClient st msg H1 H2)
    as (_ & Hev & Hrd).
  split; [split; [exact H1 | exact H2]|].
  split; [rewrite Hev; reflexivity | exact Hrd].
Defined.

Lemma create_revokes_owner_read_back_witness :
  let S := acceptingStore appDbForeignRow in
  let st := start S tt createAppDb in
  (Get dbOwnerAttr (rd st) = "app_role" /\
   db_queryRow S tt identitySQL [VString "app_db"]
     = (tt, Row [VString "app_db"; VString "other_role"])) /\
  exists before,
    events (Create S capableClient st) =
      (before ++ [EvExec SRevoke (revokeSQL "other_role" "postgres") [] None])%list /\
    In (EvExec SGrant (grantSQL "app_role" "postgres") [] None) before.
Proof.
  intros S st.
  pose proof (create_revokes_owner_read_back quoteLiteral S capableClient st
                "app_db" "other_role" "UTF8" "C" "C" "pg_default" 50
                eq_refl eq_refl eq_refl eq_refl) as Hev.
  cbn zeta in Hev.
  split; [split; reflexivity|].
  eexists. split.
  - rewrite Hev. rewrite app_comm_cons, app_assoc. reflexivity.
  - apply in_or_app. left. apply in_or_app. left. now left.
Defined.

Lemma read_leaves_unsupported_attributes_witness :
  let S := acceptingStore appDbRow in
  let st := start S tt closeAndTemplate in
  (featureSupported oldClient featureDBAllowConnections = false /\
   featureSupported oldClient featureDBIsTemplate = false) /\
  Get dbAllowConnsAttr (rd (final (Read S oldClient st))) = false /\
  Get dbIsTemplateAttr (rd (final (Read S oldClient st))) = true.
Proof.
  intros S st.
  assert (H1 : featureSupported oldClient featureDBAllowConnections = false)
    by reflexivity.
  assert (H2 : featureSupported oldClient featureDBIsTemplate = false)
    by reflexivity.
  destruct (read_leaves_unsupported_attributes S oldClient st) as [HA HB].
  split; [split; assumption|].
  split; [rewrite (proj1 (HA H1)) | rewrite (proj1 (HB H2))]; reflexivity.
Defined.

Lemma delete_clears_identifier_only_after_drop_witness :
  let S := acceptingStore appDbClosedTemplate in
  let st := start S tt deleteTemplate in
  result (Delete S capableClient st) = None /\
  rd_id (rd (final (Delete S capableClient st))) = "" /\
  exists before,
    events (Delete S capableClient st) =
      (before ++ [EvExec SDrop (dropSQL "app_db") [] None])%list.
Proof.
  intros S st.
  assert (H : result (Delete S capableClient st) = None) by reflexivity.
  destruct (delete_clears_identifier_only_after_drop S capableClient st) as [HA _].
  destruct (HA H) as (Hrd & before & Hev & _).
  split; [exact H|]. split; [rewrite Hrd; reflexivity|].
  exists before. exact Hev.
Defined.

Lemma read_core_failure_writes_nothing_witness :
  let st := start brokenCatalogStore tt unchangedAppDb in
  result (Read brokenCatalogStore capableClient st)
    = Some (wrapRead (DriverError "pq: connection reset")) /\
  rd (final (Read brokenCatalogStore capableClient st)) = rd st.
Proof.
  intros st.
  assert (H : result (Read brokenCatalogStore capableClient st)
              = Some (wrapRead (DriverError "pq: connection reset")))
    by reflexivity.
  split; [exact H|].
  exact (proj1 (read_core_failure_writes_nothing
                  brokenCatalogStore capableClient st _ H)).
Defined.

Lemma read_back_copies_catalog_rows_witness :
  let S := acceptingStore appDbRow in
  let st := start S tt chown in
  (featureSupported capableClient featureDBAllowConnections = true /\
   featureSupported capableClient featureDBIsTemplate = true) /\
  result (resourcePostgreSQLDatabaseReadImpl S capableClient st) = None /\
  rd_set (rd (final (resourcePostgreSQLDatabaseReadImpl S capableClient st))) =
    mkAttrs "app_db" "app_role" "template0" "UTF8" "C" "C" "pg_default" 50 true false.
Proof.
  intros S st.
  assert (H1 : featureSupported capableClient featureDBAllowConnections = true)
    by reflexivity.
  assert (H2 : featureSupported capableClient featureDBIsTemplate = true)
    by reflexivity.
  split; [split; assumption|].
  exact (read_back_copies_catalog_rows S capableClient st
           "app_db" "app_role" "UTF8" "C" "C" "pg_default" 50 true false
           H1 H2 eq_refl eq_refl eq_refl eq_refl).
Defined.

Lemma read_absent_at_core_query_witness :
  let st := start vanishingStore tt unchangedAppDb in
  result (Read vanishingStore capableClient st) = None /\
  rd (final (Read vanishingStore capableClient st)) = SetId "" (rd st) /\
  length (events (Read vanishingStore capableClient st)) = 2%nat.
Proof.
  intros st.
  rewrite (read_absent_at_core_query vanishingStore capableClient st
             "app_db" "app_role" eq_refl eq_refl).
  repeat split.
Defined.

End FurtherRuns.
